(** * HiveServer2 result-set codec (be/src/service/hs2-util.cc)

    A shallow embedding of the null-bitmap helpers, the columnar (V6+)
    appenders, the legacy (V1-V5) per-value converters and the value printer
    of [hs2-util.cc], followed by the properties proved about them.

    Conventions of the embedding.
    - Machine integers are [Z]; conversions between [uint32_t], [int] and
      [int16_t] are written out with [u32], [s32] and [s16].
    - A null bitmap (a [std::string] used as raw bytes) is a [list Z]; each
      element is the 8-bit pattern of one [char].  Text values are [string].
    - A function returns [None] where the C++ has no defined result: a failed
      [DCHECK] in a build that keeps them, an index outside a vector, a write
      of a non-zero byte past the end of a string, a negative size.
    - [std::vector] and [std::string] are lists; [v[i] = x] is stdpp's
      [<[i:=x]>] guarded by the bounds test the C++ leaves to the caller. *)

From Stdlib Require Import ZArith Lia Bool.
From Stdlib Require Import Floats.PrimFloat.
From stdpp Require Import base option list strings pretty.

Local Open Scope Z_scope.

(** ** Machine integers *)

Definition u32 (z : Z) : Z := z mod 2 ^ 32.
Definition s32 (z : Z) : Z := (z + 2 ^ 31) mod 2 ^ 32 - 2 ^ 31.
Definition s16 (z : Z) : Z := (z + 2 ^ 15) mod 2 ^ 16 - 2 ^ 15.
Definition s8 (z : Z) : Z := (z + 2 ^ 7) mod 2 ^ 8 - 2 ^ 7.

Definition INT_MAX : Z := 2 ^ 31 - 1.

(** ** Runtime types that hs2-util.cc only uses *)

(** Modelled from the spec: [TPrimitiveType] is declared in the Thrift
    definitions, not in this file.  The thirteen tags are the closed set of
    the data model; [INVALID_TYPE] stands for every other tag, which the
    switches send to their [default] branch. *)
Inductive TPrimitiveType :=
  | INVALID_TYPE | NULL_TYPE | BOOLEAN | TINYINT | SMALLINT | INT | BIGINT
  | FLOAT | DOUBLE | TIMESTAMP | STRING | VARCHAR | CHAR | DECIMAL.

Inductive TTypeNodeType := SCALAR | ARRAY | MAP | STRUCT.

(** Modelled from the spec: the scalar descriptor carries the tag and the
    family parameters (length for char, precision and scale for decimal). *)
Record TScalarType := {
  ts_type : TPrimitiveType;
  ts_len : Z;
  ts_precision : Z;
  ts_scale : Z
}.

Record TTypeNode := {
  tn_type : TTypeNodeType;
  tn_isset_scalar_type : bool;
  tn_scalar_type : TScalarType
}.

Record TColumnType := { types : list TTypeNode }.

(** Modelled from the spec: [ColumnType] (runtime/types.h) with the two
    constructors the codec calls. *)
Record ColumnType := {
  ct_type : TPrimitiveType;
  ct_len : Z;
  ct_precision : Z;
  ct_scale : Z
}.

Definition CreateCharType (len : Z) : ColumnType :=
  {| ct_type := CHAR; ct_len := len; ct_precision := -1; ct_scale := -1 |}.

Definition FromThrift_scalar (s : TScalarType) : ColumnType :=
  {| ct_type := ts_type s; ct_len := ts_len s;
     ct_precision := ts_precision s; ct_scale := ts_scale s |}.

(** [StringValue]: [ptr] is the text readable at the pointer, [len] the
    declared length. *)
Record StringValue := { ptr : string; len : Z }.

(** The host the codec runs in: the build flavour, the memory a non-null
    [void*] points to with its typed reads ([reinterpret_cast]), and the
    external formatters. *)
Class Host := {
  (** [true] when DCHECKs are compiled out *)
  NDEBUG : bool;
  RawValue : Type;
  as_bool : RawValue → bool;
  as_int8 : RawValue → Z;
  as_int16 : RawValue → Z;
  as_int32 : RawValue → Z;
  as_int64 : RawValue → Z;
  float32 : Type;
  float32_zero : float32;
  float_to_double : float32 → float;
  float_to_double_zero : float_to_double float32_zero = 0%float;
  as_float : RawValue → float32;
  as_double : RawValue → float;
  as_StringValue : RawValue → StringValue;
  (** [StringValue::CharSlotToPtr]: the text readable at the returned pointer *)
  CharSlotToPtr : RawValue → ColumnType → string;
  (** [RawValue::PrintValue(value, TYPE_TIMESTAMP, -1, &str)] *)
  PrintTimestamp : RawValue → string;
  Decimal4ToString : RawValue → ColumnType → string;
  Decimal8ToString : RawValue → ColumnType → string;
  Decimal16ToString : RawValue → ColumnType → string;
  GetByteSize : ColumnType → Z;
  (** [ostream << double] *)
  print_double : float → string
}.

(** ** DCHECK *)

Definition DCHECK `{Host} (c : bool) : option unit :=
  if NDEBUG || c then Some () else None.

(** [DCHECK_LE(a, v.size())] with [a] an [int]: the comparison converts [a]
    to [size_t], so a negative [a] is larger than every size. *)
Definition DCHECK_LE_size `{Host} (a : Z) (size : Z) : option unit :=
  DCHECK ((0 <=? a) && (a <=? size)).

(** ** std::string as a byte buffer, std::vector *)

Definition size {A} (v : list A) : Z := Z.of_nat (length v).

(** [s.resize(n)] with [n] an [int] converted to [size_t]: a negative [n]
    is beyond [max_size()] and throws. *)
Definition resize_to {A} (n : Z) (dflt : A) (v : list A) : option (list A) :=
  if 0 <=? n then Some (resize (Z.to_nat n) dflt v) else None.

(** [v[i]] on a vector *)
Definition vector_at {A} (v : list A) (i : Z) : option A :=
  if (0 <=? i) && (i <? size v) then v !! Z.to_nat i else None.

(** [v[i] = x] on a vector *)
Definition vector_set {A} (v : list A) (i : Z) (x : A) : option (list A) :=
  if (0 <=? i) && (i <? size v) then Some (<[Z.to_nat i := x]> v) else None.

(** [s[i]] on a string: position [size()] reads the terminator. *)
Definition string_at (s : list Z) (i : Z) : option Z :=
  if (0 <=? i) && (i <? size s) then s !! Z.to_nat i
  else if i =? size s then Some 0 else None.

(** [s[i] = c] on a string: the terminator may only be rewritten with 0. *)
Definition string_set (s : list Z) (i : Z) (c : Z) : option (list Z) :=
  if (0 <=? i) && (i <? size s) then Some (<[Z.to_nat i := c]> s)
  else if (i =? size s) && (c =? 0) then Some s else None.

(** [c |= m]: the char is promoted to [int], or-ed, and narrowed back. *)
Definition char_or (c m : Z) : Z := Z.lor (s8 c) m mod 2 ^ 8.

(** [s.assign(p, n)]: the first [n] characters at [p]. *)
Definition string_assign (p : string) (n : Z) : option string :=
  if (0 <=? n) && (n <=? Z.of_nat (String.length p))
  then Some (String.substring 0 (Z.to_nat n) p) else None.

(** ** Null bitmap *)

(** [int GetNullsRequiredSize(int numVals)]; every caller passes a
    [uint32_t], converted here to [int].  (The body spells the parameter
    [numvals]; it is read as the parameter.)  The addition is done in [int]
    and wraps where the C++ overflows. *)
Definition GetNullsRequiredSize (numVals : Z) : Z :=
  Z.quot (s32 (s32 numVals + 7)) 8.

Definition SetNullsSize (new_size : Z) (nulls : list Z) : option (list Z) :=
  resize_to (GetNullsRequiredSize new_size) 0 nulls.

Definition null_mask (mod_8 : Z) (is_null : bool) : Z :=
  Z.shiftl 1 mod_8 * Z.b2z is_null.

Definition SetNullBit `{Host} (row_idx : Z) (is_null : bool) (nulls : list Z)
  : option (list Z) :=
  DCHECK_LE_size (GetNullsRequiredSize row_idx) (size nulls);;
  let mod_8 := s16 (row_idx mod 8) in
  let nulls := if mod_8 =? 0 then nulls ++ [0] else nulls in
  c ← string_at nulls (row_idx / 8);
  string_set nulls (row_idx / 8) (char_or c (null_mask mod_8 is_null)).

Definition SetNullBitNoResize `{Host} (row_idx : Z) (is_null : bool)
  (nulls : list Z) : option (list Z) :=
  DCHECK_LE_size (GetNullsRequiredSize (u32 (row_idx + 1))) (size nulls);;
  let mod_8 := s16 (row_idx mod 8) in
  c ← string_at nulls (row_idx / 8);
  string_set nulls (row_idx / 8) (char_or c (null_mask mod_8 is_null)).

(** The DCHECK writes [nulls->size()] on a reference; it is read as
    [nulls.size()]. *)
Definition GetNullBit `{Host} (nulls : list Z) (row_idx : Z) : option bool :=
  DCHECK_LE_size (GetNullsRequiredSize (u32 (row_idx + 1))) (size nulls);;
  c ← string_at nulls (row_idx / 8);
  Some (negb (Z.land (s8 c) (Z.shiftl 1 (row_idx mod 8)) =? 0)).

(** [for (int i = lo; i < hi; ++i) body], [hi] a [uint32_t]: the comparison
    is unsigned, the body runs [hi - lo] times when [lo < hi] and never
    otherwise. *)
Fixpoint for_loop {St} (trip : nat) (i : Z) (body : Z → St → option St)
  (st : St) : option St :=
  match trip with
  | O => Some st
  | S trip' => st' ← body i st; for_loop trip' (i + 1) body st'
  end.

Definition for_range {St} (lo hi : Z) (body : Z → St → option St) (st : St)
  : option St :=
  for_loop (Z.to_nat (hi - lo)) lo body st.

Definition StitchNulls `{Host} (num_rows_before num_rows_added start_idx : Z)
  (from to : list Z) : option (list Z) :=
  for_range 0 num_rows_added
    (λ i to,
       b ← GetNullBit from (u32 (i + start_idx));
       SetNullBit (u32 (num_rows_before + i)) b to)
    to.

(** ** Row values produced by the engine *)

(** Impala's pre-decoded [TColumnValue]; [isset_x] is [__isset.x]. *)
Record TColumnValue := {
  bool_val : bool;
  byte_val : Z;
  short_val : Z;
  int_val : Z;
  long_val : Z;
  double_val : float;
  string_val : string;
  isset_bool_val : bool;
  isset_byte_val : bool;
  isset_short_val : bool;
  isset_int_val : bool;
  isset_long_val : bool;
  isset_double_val : bool;
  isset_string_val : bool
}.

(** ** HiveServer2 wire records *)

Module thrift.

(** One typed sub-column ([TBoolColumn], [TByteColumn], ...). *)
Record TXColumn (A : Type) := { values : list A; nulls : list Z }.
Arguments values {A} _.
Arguments nulls {A} _.

Module TColumn.
Record t := {
  boolVal : TXColumn bool;
  byteVal : TXColumn Z;
  i16Val : TXColumn Z;
  i32Val : TXColumn Z;
  i64Val : TXColumn Z;
  doubleVal : TXColumn float;
  stringVal : TXColumn string
}.

Definition set_boolVal (x : TXColumn bool) (c : t) : t :=
  {| boolVal := x; byteVal := byteVal c; i16Val := i16Val c;
     i32Val := i32Val c; i64Val := i64Val c; doubleVal := doubleVal c;
     stringVal := stringVal c |}.
Definition set_byteVal (x : TXColumn Z) (c : t) : t :=
  {| boolVal := boolVal c; byteVal := x; i16Val := i16Val c;
     i32Val := i32Val c; i64Val := i64Val c; doubleVal := doubleVal c;
     stringVal := stringVal c |}.
Definition set_i16Val (x : TXColumn Z) (c : t) : t :=
  {| boolVal := boolVal c; byteVal := byteVal c; i16Val := x;
     i32Val := i32Val c; i64Val := i64Val c; doubleVal := doubleVal c;
     stringVal := stringVal c |}.
Definition set_i32Val (x : TXColumn Z) (c : t) : t :=
  {| boolVal := boolVal c; byteVal := byteVal c; i16Val := i16Val c;
     i32Val := x; i64Val := i64Val c; doubleVal := doubleVal c;
     stringVal := stringVal c |}.
Definition set_i64Val (x : TXColumn Z) (c : t) : t :=
  {| boolVal := boolVal c; byteVal := byteVal c; i16Val := i16Val c;
     i32Val := i32Val c; i64Val := x; doubleVal := doubleVal c;
     stringVal := stringVal c |}.
Definition set_doubleVal (x : TXColumn float) (c : t) : t :=
  {| boolVal := boolVal c; byteVal := byteVal c; i16Val := i16Val c;
     i32Val := i32Val c; i64Val := i64Val c; doubleVal := x;
     stringVal := stringVal c |}.
Definition set_stringVal (x : TXColumn string) (c : t) : t :=
  {| boolVal := boolVal c; byteVal := byteVal c; i16Val := i16Val c;
     i32Val := i32Val c; i64Val := i64Val c; doubleVal := doubleVal c;
     stringVal := x |}.

(** A default-constructed column. *)
Definition empty : t :=
  {| boolVal := {| values := []; nulls := [] |};
     byteVal := {| values := []; nulls := [] |};
     i16Val := {| values := []; nulls := [] |};
     i32Val := {| values := []; nulls := [] |};
     i64Val := {| values := []; nulls := [] |};
     doubleVal := {| values := []; nulls := [] |};
     stringVal := {| values := []; nulls := [] |} |}.
End TColumn.

(** One typed legacy value ([TBoolValue], [TByteValue], ...);
    [isset_value] is [__isset.value]. *)
Record TXValue (A : Type) := { value : A; isset_value : bool }.
Arguments value {A} _.
Arguments isset_value {A} _.

Module TColumnValue.
Record t := {
  boolVal : TXValue bool;
  byteVal : TXValue Z;
  i16Val : TXValue Z;
  i32Val : TXValue Z;
  i64Val : TXValue Z;
  doubleVal : TXValue float;
  stringVal : TXValue string;
  isset_boolVal : bool;
  isset_byteVal : bool;
  isset_i16Val : bool;
  isset_i32Val : bool;
  isset_i64Val : bool;
  isset_doubleVal : bool;
  isset_stringVal : bool
}.

(** [hs2_col_val->__isset.xVal = true; hs2_col_val->xVal = x] *)
Definition select_boolVal (x : TXValue bool) (c : t) : t :=
  {| boolVal := x; byteVal := byteVal c; i16Val := i16Val c;
     i32Val := i32Val c; i64Val := i64Val c; doubleVal := doubleVal c;
     stringVal := stringVal c;
     isset_boolVal := true; isset_byteVal := isset_byteVal c;
     isset_i16Val := isset_i16Val c; isset_i32Val := isset_i32Val c;
     isset_i64Val := isset_i64Val c;
     isset_doubleVal := isset_doubleVal c;
     isset_stringVal := isset_stringVal c |}.
Definition select_byteVal (x : TXValue Z) (c : t) : t :=
  {| boolVal := boolVal c; byteVal := x; i16Val := i16Val c;
     i32Val := i32Val c; i64Val := i64Val c; doubleVal := doubleVal c;
     stringVal := stringVal c;
     isset_boolVal := isset_boolVal c; isset_byteVal := true;
     isset_i16Val := isset_i16Val c; isset_i32Val := isset_i32Val c;
     isset_i64Val := isset_i64Val c;
     isset_doubleVal := isset_doubleVal c;
     isset_stringVal := isset_stringVal c |}.
Definition select_i16Val (x : TXValue Z) (c : t) : t :=
  {| boolVal := boolVal c; byteVal := byteVal c; i16Val := x;
     i32Val := i32Val c; i64Val := i64Val c; doubleVal := doubleVal c;
     stringVal := stringVal c;
     isset_boolVal := isset_boolVal c; isset_byteVal := isset_byteVal c;
     isset_i16Val := true; isset_i32Val := isset_i32Val c;
     isset_i64Val := isset_i64Val c;
     isset_doubleVal := isset_doubleVal c;
     isset_stringVal := isset_stringVal c |}.
Definition select_i32Val (x : TXValue Z) (c : t) : t :=
  {| boolVal := boolVal c; byteVal := byteVal c; i16Val := i16Val c;
     i32Val := x; i64Val := i64Val c; doubleVal := doubleVal c;
     stringVal := stringVal c;
     isset_boolVal := isset_boolVal c; isset_byteVal := isset_byteVal c;
     isset_i16Val := isset_i16Val c; isset_i32Val := true;
     isset_i64Val := isset_i64Val c;
     isset_doubleVal := isset_doubleVal c;
     isset_stringVal := isset_stringVal c |}.
Definition select_i64Val (x : TXValue Z) (c : t) : t :=
  {| boolVal := boolVal c; byteVal := byteVal c; i16Val := i16Val c;
     i32Val := i32Val c; i64Val := x; doubleVal := doubleVal c;
     stringVal := stringVal c;
     isset_boolVal := isset_boolVal c; isset_byteVal := isset_byteVal c;
     isset_i16Val := isset_i16Val c; isset_i32Val := isset_i32Val c;
     isset_i64Val := true;
     isset_doubleVal := isset_doubleVal c;
     isset_stringVal := isset_stringVal c |}.
Definition select_doubleVal (x : TXValue float) (c : t) : t :=
  {| boolVal := boolVal c; byteVal := byteVal c; i16Val := i16Val c;
     i32Val := i32Val c; i64Val := i64Val c; doubleVal := x;
     stringVal := stringVal c;
     isset_boolVal := isset_boolVal c; isset_byteVal := isset_byteVal c;
     isset_i16Val := isset_i16Val c; isset_i32Val := isset_i32Val c;
     isset_i64Val := isset_i64Val c;
     isset_doubleVal := true;
     isset_stringVal := isset_stringVal c |}.
Definition select_stringVal (x : TXValue string) (c : t) : t :=
  {| boolVal := boolVal c; byteVal := byteVal c; i16Val := i16Val c;
     i32Val := i32Val c; i64Val := i64Val c; doubleVal := doubleVal c;
     stringVal := x;
     isset_boolVal := isset_boolVal c; isset_byteVal := isset_byteVal c;
     isset_i16Val := isset_i16Val c; isset_i32Val := isset_i32Val c;
     isset_i64Val := isset_i64Val c;
     isset_doubleVal := isset_doubleVal c;
     isset_stringVal := true |}.

(** A default-constructed value: nothing selected, payloads zero. *)
Definition empty : t :=
  {| boolVal := {| value := false; isset_value := false |};
     byteVal := {| value := 0; isset_value := false |};
     i16Val := {| value := 0; isset_value := false |};
     i32Val := {| value := 0; isset_value := false |};
     i64Val := {| value := 0; isset_value := false |};
     doubleVal := {| value := 0%float; isset_value := false |};
     stringVal := {| value := ""; isset_value := false |};
     isset_boolVal := false; isset_byteVal := false;
     isset_i16Val := false; isset_i32Val := false;
     isset_i64Val := false; isset_doubleVal := false;
     isset_stringVal := false |}.
End TColumnValue.

End thrift.

Import thrift.

(** ** Bulk appenders over a row batch

    [rows] is the row batch seen through the expression: entry [i] is what
    [expr_ctx->GetValue(batch->GetRow(i))] returns, [None] for [NULL].
    The loop state is [(result_idx, result, nulls)]. *)

Definition AddValues `{Host} {S T : Type} (read : RawValue → S) (zero : S)
  (conv : S → T) (dflt : T) (rows : list (option RawValue))
  (result : list T) (nulls : list Z)
  (src_start_idx result_start_idx num_vals : Z) : option (list T * list Z) :=
  let new_size := u32 (result_start_idx + num_vals) in
  let source_end_idx := u32 (src_start_idx + num_vals) in
  let result_idx := result_start_idx in
  result ← resize_to new_size dflt result;
  nulls ← SetNullsSize new_size nulls;
  '(_, result, nulls) ←
    for_range src_start_idx source_end_idx
      (λ i '(result_idx, result, nulls),
         value ← vector_at rows (s32 i);
         result ← vector_set result result_idx
                    (conv (match value with
                           | None => zero
                           | Some p => read p
                           end));
         nulls ← SetNullBitNoResize result_idx (bool_decide (value = None))
                   nulls;
         Some (u32 (result_idx + 1), result, nulls))
      (result_idx, result, nulls);
  Some (result, nulls).

Definition AddDecimalValues `{Host} (ToString : RawValue → ColumnType → string)
  (rows : list (option RawValue)) (result : list string)
  (decimalType : ColumnType) (nulls : list Z)
  (src_start_idx result_start_idx num_vals : Z)
  : option (list string * list Z) :=
  let new_size := u32 (result_start_idx + num_vals) in
  let source_end_idx := u32 (src_start_idx + num_vals) in
  let result_idx := result_start_idx in
  result ← resize_to new_size "" result;
  nulls ← SetNullsSize new_size nulls;
  '(_, result, nulls) ←
    for_range src_start_idx source_end_idx
      (λ i '(result_idx, result, nulls),
         value ← vector_at rows (s32 i);
         result ← vector_set result result_idx
                    (match value with
                     | None => ""
                     | Some p => ToString p decimalType
                     end);
         nulls ← SetNullBitNoResize result_idx (bool_decide (value = None))
                   nulls;
         Some (u32 (result_idx + 1), result, nulls))
      (result_idx, result, nulls);
  Some (result, nulls).

Definition AddTimestampValues `{Host} (rows : list (option RawValue))
  (result : list string) (nulls : list Z)
  (src_start_idx result_start_idx num_vals : Z)
  : option (list string * list Z) :=
  let new_size := u32 (result_start_idx + num_vals) in
  let source_end_idx := u32 (src_start_idx + num_vals) in
  let result_idx := result_start_idx in
  result ← resize_to new_size "" result;
  nulls ← SetNullsSize new_size nulls;
  '(_, result, nulls) ←
    for_range src_start_idx source_end_idx
      (λ i '(result_idx, result, nulls),
         value ← vector_at rows (s32 i);
         result ← match value with
                  | Some p => vector_set result result_idx (PrintTimestamp p)
                  | None => Some result
                  end;
         nulls ← SetNullBitNoResize result_idx (bool_decide (value = None))
                   nulls;
         Some (u32 (result_idx + 1), result, nulls))
      (result_idx, result, nulls);
  Some (result, nulls).

Definition AddStringValues `{Host} (rows : list (option RawValue))
  (result : list string) (nulls : list Z)
  (src_start_idx result_start_idx num_vals : Z)
  : option (list string * list Z) :=
  let new_size := u32 (result_start_idx + num_vals) in
  let source_end_idx := u32 (src_start_idx + num_vals) in
  let result_idx := result_start_idx in
  result ← resize_to new_size "" result;
  nulls ← SetNullsSize new_size nulls;
  '(_, result, nulls) ←
    for_range src_start_idx source_end_idx
      (λ i '(result_idx, result, nulls),
         value ← vector_at rows (s32 i);
         result ← match value with
                  | Some p =>
                      let str_val := as_StringValue p in
                      s ← string_assign (ptr str_val) (len str_val);
                      vector_set result result_idx s
                  | None => Some result
                  end;
         nulls ← SetNullBitNoResize result_idx (bool_decide (value = None))
                   nulls;
         Some (u32 (result_idx + 1), result, nulls))
      (result_idx, result, nulls);
  Some (result, nulls).

Definition AddCharValues `{Host} (rows : list (option RawValue))
  (result : list string) (char_type : ColumnType) (nulls : list Z)
  (src_start_idx result_start_idx num_vals : Z)
  : option (list string * list Z) :=
  let new_size := u32 (result_start_idx + num_vals) in
  let source_end_idx := u32 (src_start_idx + num_vals) in
  let result_idx := result_start_idx in
  result ← resize_to new_size "" result;
  nulls ← SetNullsSize new_size nulls;
  '(_, result, nulls) ←
    for_range src_start_idx source_end_idx
      (λ i '(result_idx, result, nulls),
         value ← vector_at rows (s32 i);
         result ← match value with
                  | Some p =>
                      s ← string_assign (CharSlotToPtr p char_type)
                            (ct_len char_type);
                      vector_set result result_idx s
                  | None => Some result
                  end;
         nulls ← SetNullBitNoResize result_idx (bool_decide (value = None))
                   nulls;
         Some (u32 (result_idx + 1), result, nulls))
      (result_idx, result, nulls);
  Some (result, nulls).

(** ** Columnar appenders (V6 and above) *)

(** [col.values.push_back(v)] followed, at the end of the function, by
    [SetNullBit(row_idx, is_null, &col.nulls)]. *)
Definition push_back_and_mark `{Host} {A} (v : A) (row_idx : Z)
  (is_null : bool) (col : TXColumn A) : option (TXColumn A) :=
  nulls ← SetNullBit row_idx is_null (nulls col);
  Some {| values := values col ++ [v]; nulls := nulls |}.

Definition TColumnValueToHS2TColumn `{Host} (col_val : TColumnValue)
  (type : TColumnType) (row_idx : Z) (column : TColumn.t)
  : option TColumn.t :=
  t0 ← vector_at (types type) 0;
  match ts_type (tn_scalar_type t0) with
  | NULL_TYPE | BOOLEAN =>
      let is_null := negb (isset_bool_val col_val) in
      col ← push_back_and_mark (bool_val col_val) row_idx is_null
              (TColumn.boolVal column);
      Some (TColumn.set_boolVal col column)
  | TINYINT =>
      let is_null := negb (isset_byte_val col_val) in
      col ← push_back_and_mark (byte_val col_val) row_idx is_null
              (TColumn.byteVal column);
      Some (TColumn.set_byteVal col column)
  | SMALLINT =>
      let is_null := negb (isset_short_val col_val) in
      col ← push_back_and_mark (short_val col_val) row_idx is_null
              (TColumn.i16Val column);
      Some (TColumn.set_i16Val col column)
  | INT =>
      let is_null := negb (isset_int_val col_val) in
      col ← push_back_and_mark (int_val col_val) row_idx is_null
              (TColumn.i32Val column);
      Some (TColumn.set_i32Val col column)
  | BIGINT =>
      let is_null := negb (isset_long_val col_val) in
      col ← push_back_and_mark (long_val col_val) row_idx is_null
              (TColumn.i64Val column);
      Some (TColumn.set_i64Val col column)
  | FLOAT | DOUBLE =>
      let is_null := negb (isset_double_val col_val) in
      col ← push_back_and_mark (double_val col_val) row_idx is_null
              (TColumn.doubleVal column);
      Some (TColumn.set_doubleVal col column)
  | TIMESTAMP | STRING | CHAR | VARCHAR | DECIMAL =>
      let is_null := negb (isset_string_val col_val) in
      col ← push_back_and_mark (string_val col_val) row_idx is_null
              (TColumn.stringVal column);
      Some (TColumn.set_stringVal col column)
  | INVALID_TYPE => DCHECK false;; Some column
  end.

(** The loop every case of [TColumnValuesToHS2TColumn] repeats:
    [result.resize(new_size); SetNullsSize(new_size, nulls);] then, for each
    [i], [result[result_idx] = value->field] and
    [SetNullBitNoResize(result_idx, value->__isset.field, nulls)]. *)
Definition copy_range `{Host} {A} (field : TColumnValue → A)
  (isset : TColumnValue → bool) (dflt : A) (col_vals : list TColumnValue)
  (src_start_idx result_start_idx num_vals : Z)
  (result : list A) (nulls : list Z) : option (list A * list Z) :=
  let new_size := u32 (result_start_idx + num_vals) in
  let source_end_idx := u32 (src_start_idx + num_vals) in
  let result_idx := result_start_idx in
  result ← resize_to new_size dflt result;
  nulls ← SetNullsSize new_size nulls;
  '(_, result, nulls) ←
    for_range src_start_idx source_end_idx
      (λ i '(result_idx, result, nulls),
         value ← vector_at col_vals (s32 i);
         result ← vector_set result result_idx (field value);
         nulls ← SetNullBitNoResize result_idx (isset value) nulls;
         Some (u32 (result_idx + 1), result, nulls))
      (result_idx, result, nulls);
  Some (result, nulls).

(** [std::string::operator=(char)] applied to an [int64_t]: the value is
    narrowed to one character. *)
Definition string_of_char (c : Z) : string :=
  String (Ascii.ascii_of_N (Z.to_N (c mod 2 ^ 8))) "".

Definition TColumnValuesToHS2TColumn `{Host} (col_vals : list TColumnValue)
  (type : TColumnType) (src_start_idx result_start_idx num_vals : Z)
  (column : TColumn.t) : option TColumn.t :=
  t0 ← vector_at (types type) 0;
  match ts_type (tn_scalar_type t0) with
  | NULL_TYPE | BOOLEAN =>
      '(result, nulls) ←
        copy_range bool_val isset_bool_val false col_vals
          src_start_idx result_start_idx num_vals
          (values (TColumn.boolVal column)) (nulls (TColumn.boolVal column));
      Some (TColumn.set_boolVal {| values := result; nulls := nulls |} column)
  | TINYINT =>
      '(result, nulls) ←
        copy_range byte_val isset_byte_val 0 col_vals
          src_start_idx result_start_idx num_vals
          (values (TColumn.byteVal column)) (nulls (TColumn.byteVal column));
      Some (TColumn.set_byteVal {| values := result; nulls := nulls |} column)
  | SMALLINT =>
      '(result, nulls) ←
        copy_range short_val isset_short_val 0 col_vals
          src_start_idx result_start_idx num_vals
          (values (TColumn.i16Val column)) (nulls (TColumn.i16Val column));
      Some (TColumn.set_i16Val {| values := result; nulls := nulls |} column)
  | INT =>
      '(result, nulls) ←
        copy_range int_val isset_int_val 0 col_vals
          src_start_idx result_start_idx num_vals
          (values (TColumn.i32Val column)) (nulls (TColumn.i32Val column));
      Some (TColumn.set_i32Val {| values := result; nulls := nulls |} column)
  | BIGINT =>
      '(result, nulls) ←
        copy_range long_val isset_long_val 0 col_vals
          src_start_idx result_start_idx num_vals
          (values (TColumn.i64Val column)) (nulls (TColumn.i64Val column));
      Some (TColumn.set_i64Val {| values := result; nulls := nulls |} column)
  | FLOAT | DOUBLE =>
      '(result, nulls) ←
        copy_range double_val isset_double_val 0%float col_vals
          src_start_idx result_start_idx num_vals
          (values (TColumn.doubleVal column))
          (nulls (TColumn.doubleVal column));
      Some (TColumn.set_doubleVal {| values := result; nulls := nulls |}
              column)
  | TIMESTAMP | STRING | CHAR | VARCHAR | DECIMAL =>
      (* result is stringVal.values, nulls is i64Val.nulls *)
      '(result, nulls) ←
        copy_range (λ value, string_of_char (long_val value)) isset_long_val
          "" col_vals src_start_idx result_start_idx num_vals
          (values (TColumn.stringVal column)) (nulls (TColumn.i64Val column));
      Some (TColumn.set_i64Val
              {| values := values (TColumn.i64Val column); nulls := nulls |}
              (TColumn.set_stringVal
                 {| values := result;
                    nulls := thrift.nulls (TColumn.stringVal column) |}
                 column))
  | INVALID_TYPE => DCHECK false;; Some column
  end.

(** The text a decimal slot renders to, by physical width. *)
Definition decimal_text `{Host} (decimalType : ColumnType) (p : RawValue)
  : option string :=
  match GetByteSize decimalType with
  | 4 => Some (Decimal4ToString p decimalType)
  | 8 => Some (Decimal8ToString p decimalType)
  | 16 => Some (Decimal16ToString p decimalType)
  | _ => None
  end.

Definition ExprValueToHS2TColumn `{Host} (value : option RawValue)
  (type : TColumnType) (row_idx : Z) (column : TColumn.t)
  : option TColumn.t :=
  t0 ← vector_at (types type) 0;
  let is_null := bool_decide (value = None) in
  match ts_type (tn_scalar_type t0) with
  | NULL_TYPE | BOOLEAN =>
      col ← push_back_and_mark
              (match value with None => false | Some p => as_bool p end)
              row_idx is_null (TColumn.boolVal column);
      Some (TColumn.set_boolVal col column)
  | TINYINT =>
      col ← push_back_and_mark
              (match value with None => 0 | Some p => as_int8 p end)
              row_idx is_null (TColumn.byteVal column);
      Some (TColumn.set_byteVal col column)
  | SMALLINT =>
      col ← push_back_and_mark
              (match value with None => 0 | Some p => as_int16 p end)
              row_idx is_null (TColumn.i16Val column);
      Some (TColumn.set_i16Val col column)
  | INT =>
      col ← push_back_and_mark
              (match value with None => 0 | Some p => as_int32 p end)
              row_idx is_null (TColumn.i32Val column);
      Some (TColumn.set_i32Val col column)
  | BIGINT =>
      col ← push_back_and_mark
              (match value with None => 0 | Some p => as_int64 p end)
              row_idx is_null (TColumn.i64Val column);
      Some (TColumn.set_i64Val col column)
  | FLOAT =>
      col ← push_back_and_mark
              (float_to_double
                 (match value with
                  | None => float32_zero
                  | Some p => as_float p
                  end))
              row_idx is_null (TColumn.doubleVal column);
      Some (TColumn.set_doubleVal col column)
  | DOUBLE =>
      col ← push_back_and_mark
              (match value with None => 0%float | Some p => as_double p end)
              row_idx is_null (TColumn.doubleVal column);
      Some (TColumn.set_doubleVal col column)
  | TIMESTAMP =>
      let back := match value with
                  | None => ""
                  | Some p => PrintTimestamp p
                  end in
      col ← push_back_and_mark back row_idx is_null
              (TColumn.stringVal column);
      Some (TColumn.set_stringVal col column)
  | STRING | VARCHAR =>
      back ← match value with
             | None => Some ""
             | Some p =>
                 let str_val := as_StringValue p in
                 string_assign (ptr str_val) (len str_val)
             end;
      col ← push_back_and_mark back row_idx is_null
              (TColumn.stringVal column);
      Some (TColumn.set_stringVal col column)
  | CHAR =>
      back ← match value with
             | None => Some ""
             | Some p =>
                 let char_type := CreateCharType (ts_len (tn_scalar_type t0)) in
                 string_assign (CharSlotToPtr p char_type) (ct_len char_type)
             end;
      col ← push_back_and_mark back row_idx is_null
              (TColumn.stringVal column);
      Some (TColumn.set_stringVal col column)
  | DECIMAL =>
      let decimalType := FromThrift_scalar (tn_scalar_type t0) in
      back ← match value with
             | None => Some ""
             | Some p =>
                 match decimal_text decimalType p with
                 | Some s => Some s
                 | None => DCHECK false;; Some ""
                 end
             end;
      col ← push_back_and_mark back row_idx is_null
              (TColumn.stringVal column);
      Some (TColumn.set_stringVal col column)
  | INVALID_TYPE => DCHECK false;; Some column
  end.

(** The [FLOAT] case assigns [nulls = &column->doubleVal.nulls] without
    declaring it; it is read like its neighbours, as the bitmap of
    [doubleVal]. *)
Definition ExprValuesToHS2TColumn `{Host} (rows : list (option RawValue))
  (type : TColumnType) (src_start_idx result_start_idx num_vals : Z)
  (column : TColumn.t) : option TColumn.t :=
  t0 ← vector_at (types type) 0;
  match ts_type (tn_scalar_type t0) with
  | NULL_TYPE | BOOLEAN =>
      '(result, nulls) ←
        AddValues as_bool false id false rows
          (values (TColumn.boolVal column)) (nulls (TColumn.boolVal column))
          src_start_idx result_start_idx num_vals;
      Some (TColumn.set_boolVal {| values := result; nulls := nulls |} column)
  | TINYINT =>
      '(result, nulls) ←
        AddValues as_int8 0 id 0 rows
          (values (TColumn.byteVal column)) (nulls (TColumn.byteVal column))
          src_start_idx result_start_idx num_vals;
      Some (TColumn.set_byteVal {| values := result; nulls := nulls |} column)
  | SMALLINT =>
      '(result, nulls) ←
        AddValues as_int16 0 id 0 rows
          (values (TColumn.i16Val column)) (nulls (TColumn.i16Val column))
          src_start_idx result_start_idx num_vals;
      Some (TColumn.set_i16Val {| values := result; nulls := nulls |} column)
  | INT =>
      '(result, nulls) ←
        AddValues as_int32 0 id 0 rows
          (values (TColumn.i32Val column)) (nulls (TColumn.i32Val column))
          src_start_idx result_start_idx num_vals;
      Some (TColumn.set_i32Val {| values := result; nulls := nulls |} column)
  | BIGINT =>
      '(result, nulls) ←
        AddValues as_int64 0 id 0 rows
          (values (TColumn.i64Val column)) (nulls (TColumn.i64Val column))
          src_start_idx result_start_idx num_vals;
      Some (TColumn.set_i64Val {| values := result; nulls := nulls |} column)
  | FLOAT =>
      '(result, nulls) ←
        AddValues as_float float32_zero float_to_double 0%float rows
          (values (TColumn.doubleVal column))
          (nulls (TColumn.doubleVal column))
          src_start_idx result_start_idx num_vals;
      Some (TColumn.set_doubleVal {| values := result; nulls := nulls |}
              column)
  | DOUBLE =>
      '(result, nulls) ←
        AddValues as_double 0%float id 0%float rows
          (values (TColumn.doubleVal column))
          (nulls (TColumn.doubleVal column))
          src_start_idx result_start_idx num_vals;
      Some (TColumn.set_doubleVal {| values := result; nulls := nulls |}
              column)
  | TIMESTAMP =>
      '(result, nulls) ←
        AddTimestampValues rows
          (values (TColumn.stringVal column))
          (nulls (TColumn.stringVal column))
          src_start_idx result_start_idx num_vals;
      Some (TColumn.set_stringVal {| values := result; nulls := nulls |}
              column)
  | STRING | VARCHAR =>
      '(result, nulls) ←
        AddStringValues rows
          (values (TColumn.stringVal column))
          (nulls (TColumn.stringVal column))
          src_start_idx result_start_idx num_vals;
      Some (TColumn.set_stringVal {| values := result; nulls := nulls |}
              column)
  | CHAR =>
      let char_type := CreateCharType (ts_len (tn_scalar_type t0)) in
      '(result, nulls) ←
        AddCharValues rows
          (values (TColumn.stringVal column)) char_type
          (nulls (TColumn.stringVal column))
          src_start_idx result_start_idx num_vals;
      Some (TColumn.set_stringVal {| values := result; nulls := nulls |}
              column)
  | DECIMAL =>
      let decimalType := FromThrift_scalar (tn_scalar_type t0) in
      match GetByteSize decimalType with
      | 4 =>
          '(result, nulls) ←
            AddDecimalValues Decimal4ToString rows
              (values (TColumn.stringVal column)) decimalType
              (nulls (TColumn.stringVal column))
              src_start_idx result_start_idx num_vals;
          Some (TColumn.set_stringVal {| values := result; nulls := nulls |}
                  column)
      | 8 =>
          '(result, nulls) ←
            AddDecimalValues Decimal8ToString rows
              (values (TColumn.stringVal column)) decimalType
              (nulls (TColumn.stringVal column))
              src_start_idx result_start_idx num_vals;
          Some (TColumn.set_stringVal {| values := result; nulls := nulls |}
                  column)
      | 16 =>
          '(result, nulls) ←
            AddDecimalValues Decimal16ToString rows
              (values (TColumn.stringVal column)) decimalType
              (nulls (TColumn.stringVal column))
              src_start_idx result_start_idx num_vals;
          Some (TColumn.set_stringVal {| values := result; nulls := nulls |}
                  column)
      | _ => DCHECK false;; Some column
      end
  | INVALID_TYPE => DCHECK false;; Some column
  end.

(** ** Legacy per-value converters (V1 to V5) *)

Definition is_SCALAR (t : TTypeNodeType) : bool :=
  match t with SCALAR => true | _ => false end.

(** The three DCHECKs that open both converters, and [type.types[0]]. *)
Definition scalar_node `{Host} (type : TColumnType) : option TTypeNode :=
  DCHECK (size (types type) =? 1);;
  t0 ← vector_at (types type) 0;
  DCHECK (is_SCALAR (tn_type t0));;
  DCHECK (tn_isset_scalar_type t0);;
  Some t0.

Definition TColumnValueToHS2TColumnValue `{Host} (col_val : TColumnValue)
  (type : TColumnType) (hs2_col_val : TColumnValue.t)
  : option TColumnValue.t :=
  t0 ← scalar_node type;
  match ts_type (tn_scalar_type t0) with
  | BOOLEAN =>
      Some (TColumnValue.select_boolVal
              {| value := bool_val col_val;
                 isset_value := isset_bool_val col_val |} hs2_col_val)
  | TINYINT =>
      Some (TColumnValue.select_byteVal
              {| value := byte_val col_val;
                 isset_value := isset_byte_val col_val |} hs2_col_val)
  | SMALLINT =>
      Some (TColumnValue.select_i16Val
              {| value := short_val col_val;
                 isset_value := isset_short_val col_val |} hs2_col_val)
  | INT =>
      Some (TColumnValue.select_i32Val
              {| value := int_val col_val;
                 isset_value := isset_int_val col_val |} hs2_col_val)
  | BIGINT =>
      Some (TColumnValue.select_i64Val
              {| value := long_val col_val;
                 isset_value := isset_long_val col_val |} hs2_col_val)
  | FLOAT | DOUBLE =>
      Some (TColumnValue.select_doubleVal
              {| value := double_val col_val;
                 isset_value := isset_double_val col_val |} hs2_col_val)
  | DECIMAL | STRING | TIMESTAMP | VARCHAR | CHAR =>
      Some (TColumnValue.select_stringVal
              {| value := if isset_string_val col_val
                          then string_val col_val
                          else value (TColumnValue.stringVal hs2_col_val);
                 isset_value := isset_string_val col_val |} hs2_col_val)
  | NULL_TYPE | INVALID_TYPE => DCHECK false;; Some hs2_col_val
  end.

Definition ExprValueToHS2TColumnValue `{Host} (value : option RawValue)
  (type : TColumnType) (hs2_col_val : TColumnValue.t)
  : option TColumnValue.t :=
  let not_null := negb (bool_decide (value = None)) in
  t0 ← scalar_node type;
  match ts_type (tn_scalar_type t0) with
  | NULL_TYPE =>
      Some (TColumnValue.select_boolVal
              {| value := thrift.value (TColumnValue.boolVal hs2_col_val);
                 isset_value := false |} hs2_col_val)
  | BOOLEAN =>
      Some (TColumnValue.select_boolVal
              {| value := match value with
                          | Some p => as_bool p
                          | None => thrift.value
                                      (TColumnValue.boolVal hs2_col_val)
                          end;
                 isset_value := not_null |} hs2_col_val)
  | TINYINT =>
      Some (TColumnValue.select_byteVal
              {| value := match value with
                          | Some p => as_int8 p
                          | None => thrift.value
                                      (TColumnValue.byteVal hs2_col_val)
                          end;
                 isset_value := not_null |} hs2_col_val)
  | SMALLINT =>
      Some (TColumnValue.select_i16Val
              {| value := match value with
                          | Some p => as_int16 p
                          | None => thrift.value
                                      (TColumnValue.i16Val hs2_col_val)
                          end;
                 isset_value := not_null |} hs2_col_val)
  | INT =>
      Some (TColumnValue.select_i32Val
              {| value := match value with
                          | Some p => as_int32 p
                          | None => thrift.value
                                      (TColumnValue.i32Val hs2_col_val)
                          end;
                 isset_value := not_null |} hs2_col_val)
  | BIGINT =>
      Some (TColumnValue.select_i64Val
              {| value := match value with
                          | Some p => as_int64 p
                          | None => thrift.value
                                      (TColumnValue.i64Val hs2_col_val)
                          end;
                 isset_value := not_null |} hs2_col_val)
  | FLOAT =>
      Some (TColumnValue.select_doubleVal
              {| value := match value with
                          | Some p => float_to_double (as_float p)
                          | None => thrift.value
                                      (TColumnValue.doubleVal hs2_col_val)
                          end;
                 isset_value := not_null |} hs2_col_val)
  | DOUBLE =>
      Some (TColumnValue.select_doubleVal
              {| value := match value with
                          | Some p => as_double p
                          | None => thrift.value
                                      (TColumnValue.doubleVal hs2_col_val)
                          end;
                 isset_value := not_null |} hs2_col_val)
  | STRING | VARCHAR =>
      text ← match value with
             | Some p =>
                 let string_val := as_StringValue p in
                 string_assign (ptr string_val) (len string_val)
             | None => Some (thrift.value (TColumnValue.stringVal hs2_col_val))
             end;
      Some (TColumnValue.select_stringVal
              {| value := text; isset_value := not_null |} hs2_col_val)
  | CHAR =>
      text ← match value with
             | Some p =>
                 let char_type := CreateCharType (ts_len (tn_scalar_type t0)) in
                 string_assign (CharSlotToPtr p char_type) (ct_len char_type)
             | None => Some (thrift.value (TColumnValue.stringVal hs2_col_val))
             end;
      Some (TColumnValue.select_stringVal
              {| value := text; isset_value := not_null |} hs2_col_val)
  | TIMESTAMP =>
      Some (TColumnValue.select_stringVal
              {| value := match value with
                          | Some p => PrintTimestamp p
                          | None => thrift.value
                                      (TColumnValue.stringVal hs2_col_val)
                          end;
                 isset_value := not_null |} hs2_col_val)
  | DECIMAL =>
      let decimalType := FromThrift_scalar (tn_scalar_type t0) in
      text ← match value with
             | Some p =>
                 match decimal_text decimalType p with
                 | Some s => Some s
                 | None =>
                     DCHECK false;;
                     Some (thrift.value (TColumnValue.stringVal hs2_col_val))
                 end
             | None => Some (thrift.value (TColumnValue.stringVal hs2_col_val))
             end;
      Some (TColumnValue.select_stringVal
              {| value := text; isset_value := not_null |} hs2_col_val)
  | INVALID_TYPE => DCHECK false;; Some hs2_col_val
  end.

(** ** Value printer *)

(** [PrintVal<T>]: [show] is [ostream << T]. *)
Definition PrintVal {A} (show : A → string) (val : TXValue A) (ss : string)
  : string :=
  if isset_value val then ss +:+ show (value val) else ss +:+ "NULL".

(** The [TByteValue] specialisation prints [static_cast<int16_t>(val.value)]. *)
Definition PrintVal_TByteValue (val : TXValue Z) (ss : string) : string :=
  if isset_value val then ss +:+ pretty (s16 (value val)) else ss +:+ "NULL".

Definition PrintTColumnValue `{Host} (colval : TColumnValue.t) (out : string)
  : string :=
  if TColumnValue.isset_boolVal colval then
    if isset_value (TColumnValue.boolVal colval) then
      out +:+ (if value (TColumnValue.boolVal colval) then "true" else "false")
    else out +:+ "NULL"
  else if TColumnValue.isset_doubleVal colval then
    PrintVal print_double (TColumnValue.doubleVal colval) out
  else if TColumnValue.isset_byteVal colval then
    PrintVal_TByteValue (TColumnValue.byteVal colval) out
  else if TColumnValue.isset_i32Val colval then
    PrintVal pretty (TColumnValue.i32Val colval) out
  else if TColumnValue.isset_i16Val colval then
    PrintVal pretty (TColumnValue.i16Val colval) out
  else if TColumnValue.isset_i64Val colval then
    PrintVal pretty (TColumnValue.i64Val colval) out
  else if TColumnValue.isset_stringVal colval then
    PrintVal id (TColumnValue.stringVal colval) out
  else out +:+ "NULL".

(** ** Notions used to state the properties *)

(** [requiredBytes(n) = ceil(n / 8)] *)
Definition ceil_div8 (n : Z) : Z := (n + 7) / 8.

(** Bit [i] of a bitmap, LSB first; bits beyond the storage read as clear. *)
Definition bit_of (nulls : list Z) (i : Z) : bool :=
  Z.testbit (default 0 (nulls !! Z.to_nat (i / 8))) (i mod 8).

(** The streaming appender: [SetNullBit(i, flags[i], nulls)] for
    [i = 0 .. n-1]. *)
Definition append_bits `{Host} (flags : list bool) (nulls : list Z)
  : option (list Z) :=
  for_range 0 (size flags)
    (λ i nulls, is_null ← vector_at flags i; SetNullBit i is_null nulls)
    nulls.

(** A write of one nullness flag at a fixed index, through either setter. *)
Inductive bit_write :=
  | ByAppend (is_null : bool)
  | ByNoResize (is_null : bool).

Definition written (w : bit_write) : bool :=
  match w with ByAppend b | ByNoResize b => b end.

Definition apply_write `{Host} (row_idx : Z) (w : bit_write) (nulls : list Z)
  : option (list Z) :=
  match w with
  | ByAppend b => SetNullBit row_idx b nulls
  | ByNoResize b => SetNullBitNoResize row_idx b nulls
  end.

Fixpoint apply_writes `{Host} (row_idx : Z) (ws : list bit_write)
  (nulls : list Z) : option (list Z) :=
  match ws with
  | [] => Some nulls
  | w :: ws' =>
      nulls' ← apply_write row_idx w nulls; apply_writes row_idx ws' nulls'
  end.

(** Appending [col_vals[src_start_idx .. src_start_idx + num_vals)] one value
    at a time at rows [result_start_idx ..]. *)
Definition append_one_at_a_time `{Host} (col_vals : list TColumnValue)
  (type : TColumnType) (src_start_idx result_start_idx num_vals : Z)
  (column : TColumn.t) : option TColumn.t :=
  for_range 0 num_vals
    (λ i column,
       col_val ← vector_at col_vals (src_start_idx + i);
       TColumnValueToHS2TColumn col_val type (result_start_idx + i) column)
    column.

(** An element of a value array, whatever its family. *)
Inductive Cell :=
  | CBool (b : bool)
  | CInt (z : Z)
  | CDouble (d : float)
  | CText (s : string).

(** The value array and the bitmap that carry a column of a given type. *)
Definition family_values (t : TPrimitiveType) (c : TColumn.t) : list Cell :=
  match t with
  | NULL_TYPE | BOOLEAN => CBool <$> values (TColumn.boolVal c)
  | TINYINT => CInt <$> values (TColumn.byteVal c)
  | SMALLINT => CInt <$> values (TColumn.i16Val c)
  | INT => CInt <$> values (TColumn.i32Val c)
  | BIGINT => CInt <$> values (TColumn.i64Val c)
  | FLOAT | DOUBLE => CDouble <$> values (TColumn.doubleVal c)
  | _ => CText <$> values (TColumn.stringVal c)
  end.

Definition family_nulls (t : TPrimitiveType) (c : TColumn.t) : list Z :=
  match t with
  | NULL_TYPE | BOOLEAN => nulls (TColumn.boolVal c)
  | TINYINT => nulls (TColumn.byteVal c)
  | SMALLINT => nulls (TColumn.i16Val c)
  | INT => nulls (TColumn.i32Val c)
  | BIGINT => nulls (TColumn.i64Val c)
  | FLOAT | DOUBLE => nulls (TColumn.doubleVal c)
  | _ => nulls (TColumn.stringVal c)
  end.

(** The placeholder a null row leaves in the value array. *)
Definition placeholder (t : TPrimitiveType) : Cell :=
  match t with
  | NULL_TYPE | BOOLEAN => CBool false
  | TINYINT | SMALLINT | INT | BIGINT => CInt 0
  | FLOAT | DOUBLE => CDouble 0%float
  | _ => CText ""
  end.

(** The wire form of a present slot, by family (section 4.2 of the design):
    [None] where the slot cannot be read. *)
Definition wire_cell `{Host} (t : TScalarType) (p : RawValue) : option Cell :=
  match ts_type t with
  | NULL_TYPE | BOOLEAN => Some (CBool (as_bool p))
  | TINYINT => Some (CInt (as_int8 p))
  | SMALLINT => Some (CInt (as_int16 p))
  | INT => Some (CInt (as_int32 p))
  | BIGINT => Some (CInt (as_int64 p))
  | FLOAT => Some (CDouble (float_to_double (as_float p)))
  | DOUBLE => Some (CDouble (as_double p))
  | TIMESTAMP => Some (CText (PrintTimestamp p))
  | STRING | VARCHAR =>
      CText <$> string_assign (ptr (as_StringValue p)) (len (as_StringValue p))
  | CHAR =>
      CText <$> string_assign (CharSlotToPtr p (CreateCharType (ts_len t)))
                  (ts_len t)
  | DECIMAL => CText <$> decimal_text (FromThrift_scalar t) p
  | INVALID_TYPE => None
  end.

(** A descriptor the codec handles: a tag of the closed set and, for a
    decimal, one of the three physical widths. *)
Definition supported `{Host} (t : TScalarType) : Prop :=
  ts_type t ≠ INVALID_TYPE ∧
  (ts_type t = DECIMAL →
   GetByteSize (FromThrift_scalar t) = 4 ∨
   GetByteSize (FromThrift_scalar t) = 8 ∨
   GetByteSize (FromThrift_scalar t) = 16).

(** The variants of a legacy tagged value. *)
Inductive Variant := VBool | VByte | VI16 | VI32 | VI64 | VDouble | VText.

(** The variant of each family; [NULL_TYPE] has no family. *)
Definition variant_of (t : TPrimitiveType) : option Variant :=
  match t with
  | BOOLEAN => Some VBool
  | TINYINT => Some VByte
  | SMALLINT => Some VI16
  | INT => Some VI32
  | BIGINT => Some VI64
  | FLOAT | DOUBLE => Some VDouble
  | TIMESTAMP | STRING | VARCHAR | CHAR | DECIMAL => Some VText
  | NULL_TYPE | INVALID_TYPE => None
  end.

Definition selected (v : TColumnValue.t) (x : Variant) : bool :=
  match x with
  | VBool => TColumnValue.isset_boolVal v
  | VByte => TColumnValue.isset_byteVal v
  | VI16 => TColumnValue.isset_i16Val v
  | VI32 => TColumnValue.isset_i32Val v
  | VI64 => TColumnValue.isset_i64Val v
  | VDouble => TColumnValue.isset_doubleVal v
  | VText => TColumnValue.isset_stringVal v
  end.

Definition all_variants : list Variant :=
  [VBool; VByte; VI16; VI32; VI64; VDouble; VText].

(** The variants whose selected flag is set. *)
Definition selection (v : TColumnValue.t) : list Variant :=
  filter (λ x, selected v x = true) all_variants.

Definition present (v : TColumnValue.t) (x : Variant) : bool :=
  match x with
  | VBool => isset_value (TColumnValue.boolVal v)
  | VByte => isset_value (TColumnValue.byteVal v)
  | VI16 => isset_value (TColumnValue.i16Val v)
  | VI32 => isset_value (TColumnValue.i32Val v)
  | VI64 => isset_value (TColumnValue.i64Val v)
  | VDouble => isset_value (TColumnValue.doubleVal v)
  | VText => isset_value (TColumnValue.stringVal v)
  end.

Definition payload (v : TColumnValue.t) (x : Variant) : Cell :=
  match x with
  | VBool => CBool (value (TColumnValue.boolVal v))
  | VByte => CInt (value (TColumnValue.byteVal v))
  | VI16 => CInt (value (TColumnValue.i16Val v))
  | VI32 => CInt (value (TColumnValue.i32Val v))
  | VI64 => CInt (value (TColumnValue.i64Val v))
  | VDouble => CDouble (value (TColumnValue.doubleVal v))
  | VText => CText (value (TColumnValue.stringVal v))
  end.

(** Presence and payload of a pre-decoded value, seen as a given variant. *)
Definition source_present (c : TColumnValue) (x : Variant) : bool :=
  match x with
  | VBool => isset_bool_val c
  | VByte => isset_byte_val c
  | VI16 => isset_short_val c
  | VI32 => isset_int_val c
  | VI64 => isset_long_val c
  | VDouble => isset_double_val c
  | VText => isset_string_val c
  end.

Definition source_payload (c : TColumnValue) (x : Variant) : Cell :=
  match x with
  | VBool => CBool (bool_val c)
  | VByte => CInt (byte_val c)
  | VI16 => CInt (short_val c)
  | VI32 => CInt (int_val c)
  | VI64 => CInt (long_val c)
  | VDouble => CDouble (double_val c)
  | VText => CText (string_val c)
  end.

(** The order in which the printer tests the variants. *)
Definition print_order : list Variant :=
  [VBool; VDouble; VByte; VI32; VI16; VI64; VText].

(** The text of one variant of a legacy value. *)
Definition render `{Host} (v : TColumnValue.t) (x : Variant) : string :=
  if present v x then
    match payload v x with
    | CBool b => if b then "true" else "false"
    | CInt z => pretty z
    | CDouble d => print_double d
    | CText s => s
    end
  else "NULL".

(** What the printer is specified to emit. *)
Definition printed `{Host} (v : TColumnValue.t) : string :=
  match list_find (λ x, selected v x = true) print_order with
  | Some (_, x) => render v x
  | None => "NULL"
  end.

(** A descriptor made of one scalar node. *)
Definition one_scalar (t : TScalarType) : TColumnType :=
  {| types := [ {| tn_type := SCALAR; tn_isset_scalar_type := true;
                   tn_scalar_type := t |} ] |}.

Definition scalar (t : TPrimitiveType) (len precision scale : Z)
  : TColumnType :=
  one_scalar {| ts_type := t; ts_len := len; ts_precision := precision;
                ts_scale := scale |}.

(** The text the five bulk appenders share, with the statement that stores
    one value left open as [write]. *)
Definition bulk_fill `{Host} {T : Type}
  (write : option RawValue → list T → Z → option (list T)) (dflt : T)
  (rows : list (option RawValue)) (result : list T) (nulls : list Z)
  (src_start_idx result_start_idx num_vals : Z) : option (list T * list Z) :=
  let new_size := u32 (result_start_idx + num_vals) in
  let source_end_idx := u32 (src_start_idx + num_vals) in
  let result_idx := result_start_idx in
  result ← resize_to new_size dflt result;
  nulls ← SetNullsSize new_size nulls;
  '(_, result, nulls) ←
    for_range src_start_idx source_end_idx
      (λ i '(result_idx, result, nulls),
         value ← vector_at rows (s32 i);
         result ← write value result result_idx;
         nulls ← SetNullBitNoResize result_idx (bool_decide (value = None))
                   nulls;
         Some (u32 (result_idx + 1), result, nulls))
      (result_idx, result, nulls);
  Some (result, nulls).

(** Whether row [i] of the batch evaluates to [NULL]. *)
Definition null_at `{Host} (rows : list (option RawValue)) (i : Z) : bool :=
  match rows !! Z.to_nat i with
  | Some None => true
  | _ => false
  end.

(** What a column filled from rows [[s, s+k)] of a batch must look like:
    [k] values, [ceil(k/8)] bitmap bytes, the placeholder at null rows and the
    wire form elsewhere, and a bit set exactly at the null rows. *)
Definition filled_from `{Host} (t : TScalarType)
  (rows : list (option RawValue)) (s k : Z) (vals : list Cell)
  (nulls : list Z) : Prop :=
  size vals = k ∧
  size nulls = ceil_div8 k ∧
  (∀ j, 0 ≤ j < k →
        ∃ value cell,
          rows !! Z.to_nat (s + j) = Some value ∧
          vals !! Z.to_nat j = Some cell ∧
          match value with
          | None => cell = placeholder (ts_type t)
          | Some p => wire_cell t p = Some cell
          end ∧
          GetNullBit nulls j = Some (bool_decide (value = None))) ∧
  (∀ j, 0 ≤ j →
        bit_of nulls j = true ↔ j < k ∧ rows !! Z.to_nat (s + j) = Some None).

(** Every sub-column but [boolVal] is the same in both columns. *)
Definition same_outside_boolVal (c c' : TColumn.t) : Prop :=
  TColumn.byteVal c' = TColumn.byteVal c ∧
  TColumn.i16Val c' = TColumn.i16Val c ∧
  TColumn.i32Val c' = TColumn.i32Val c ∧
  TColumn.i64Val c' = TColumn.i64Val c ∧
  TColumn.doubleVal c' = TColumn.doubleVal c ∧
  TColumn.stringVal c' = TColumn.stringVal c.

(** ** A concrete host, used to run the codec on examples *)

Module Demo.

Record slot := {
  s_bool : bool;
  s_int : Z;
  s_double : float;
  s_text : string
}.

Definition host : Host := {|
  NDEBUG := false;
  RawValue := slot;
  as_bool := s_bool;
  as_int8 := s_int;
  as_int16 := s_int;
  as_int32 := s_int;
  as_int64 := s_int;
  float32 := float;
  float32_zero := 0%float;
  float_to_double := id;
  float_to_double_zero := eq_refl;
  as_float := s_double;
  as_double := s_double;
  as_StringValue p :=
    {| ptr := s_text p; len := Z.of_nat (String.length (s_text p)) |};
  CharSlotToPtr p _ := s_text p;
  PrintTimestamp := s_text;
  Decimal4ToString p _ := s_text p;
  Decimal8ToString p _ := s_text p;
  Decimal16ToString p _ := s_text p;
  GetByteSize t :=
    if ct_precision t <=? 9 then 4
    else if ct_precision t <=? 18 then 8 else 16;
  print_double _ := "0"
|}.

(** The same host in a build without DCHECKs. *)
Definition release : Host := {|
  NDEBUG := true;
  RawValue := slot;
  as_bool := s_bool;
  as_int8 := s_int;
  as_int16 := s_int;
  as_int32 := s_int;
  as_int64 := s_int;
  float32 := float;
  float32_zero := 0%float;
  float_to_double := id;
  float_to_double_zero := eq_refl;
  as_float := s_double;
  as_double := s_double;
  as_StringValue p :=
    {| ptr := s_text p; len := Z.of_nat (String.length (s_text p)) |};
  CharSlotToPtr p _ := s_text p;
  PrintTimestamp := s_text;
  Decimal4ToString p _ := s_text p;
  Decimal8ToString p _ := s_text p;
  Decimal16ToString p _ := s_text p;
  GetByteSize t :=
    if ct_precision t <=? 9 then 4
    else if ct_precision t <=? 18 then 8 else 16;
  print_double _ := "0"
|}.

Definition int_slot (z : Z) : slot :=
  {| s_bool := false; s_int := z; s_double := 0%float; s_text := "" |}.
Definition text_slot (s : string) : slot :=
  {| s_bool := false; s_int := 0; s_double := 0%float; s_text := s |}.

(** A pre-decoded value with no field set. *)
Definition unset : TColumnValue :=
  {| bool_val := false; byte_val := 0; short_val := 0; int_val := 0;
     long_val := 0; double_val := 0%float; string_val := "";
     isset_bool_val := false; isset_byte_val := false;
     isset_short_val := false; isset_int_val := false;
     isset_long_val := false; isset_double_val := false;
     isset_string_val := false |}.

End Demo.

(** ** Notions used for the further properties *)

(** The text the bulk loops over a row batch ([bulk_fill]) and over
    pre-decoded values ([copy_range]) share: [write] stores one value and
    [flag] is the bit handed to [SetNullBitNoResize]. *)
Definition range_fill `{Host} {V T : Type}
  (write : V → list T → Z → option (list T)) (flag : V → bool) (dflt : T)
  (src : list V) (result : list T) (nulls : list Z)
  (src_start_idx result_start_idx num_vals : Z) : option (list T * list Z) :=
  let new_size := u32 (result_start_idx + num_vals) in
  let source_end_idx := u32 (src_start_idx + num_vals) in
  let result_idx := result_start_idx in
  result ← resize_to new_size dflt result;
  nulls ← SetNullsSize new_size nulls;
  '(_, result, nulls) ←
    for_range src_start_idx source_end_idx
      (λ i '(result_idx, result, nulls),
         value ← vector_at src (s32 i);
         result ← write value result result_idx;
         nulls ← SetNullBitNoResize result_idx (flag value) nulls;
         Some (u32 (result_idx + 1), result, nulls))
      (result_idx, result, nulls);
  Some (result, nulls).

(** The flag of source element [i], [false] outside the source. *)
Definition flag_at {V} (flag : V → bool) (src : list V) (i : Z) : bool :=
  match src !! Z.to_nat i with
  | Some v => flag v
  | None => false
  end.

(** A value array and bitmap that hold exactly [r] rows: [r] values,
    [ceil(r/8)] bytes, and no bit set at or beyond row [r]. *)
Definition holds_rows {A} (r : Z) (vals : list A) (nulls : list Z) : Prop :=
  size vals = r ∧
  size nulls = ceil_div8 r ∧
  ∀ j, r ≤ j → bit_of nulls j = false.

(** [vals], [nulls] hold the [r] rows of [vals0], [nulls0] followed by rows
    [[s, s+k)] of the batch in wire form. *)
Definition extended_from `{Host} (t : TScalarType)
  (rows : list (option RawValue)) (s k r : Z)
  (vals0 : list Cell) (nulls0 : list Z) (vals : list Cell) (nulls : list Z)
  : Prop :=
  holds_rows (r + k) vals nulls ∧
  (∀ i, 0 ≤ i < r →
        vals !! Z.to_nat i = vals0 !! Z.to_nat i ∧
        bit_of nulls i = bit_of nulls0 i) ∧
  (∀ j, 0 ≤ j < k →
        ∃ value cell,
          rows !! Z.to_nat (s + j) = Some value ∧
          vals !! Z.to_nat (r + j) = Some cell ∧
          match value with
          | None => cell = placeholder (ts_type t)
          | Some p => wire_cell t p = Some cell
          end ∧
          bit_of nulls (r + j) = bool_decide (value = None)).

(** Appending rows [[s, s+k)] of a batch one value at a time at rows
    [r, r+1, ...] of the column. *)
Definition append_expr_one_at_a_time `{Host} (rows : list (option RawValue))
  (type : TColumnType) (s r k : Z) (column : TColumn.t) : option TColumn.t :=
  for_range 0 k
    (λ i column,
       value ← vector_at rows (s + i);
       ExprValueToHS2TColumn value type (r + i) column)
    column.

(** The variant whose fields a columnar appender of pre-decoded values
    reads: that of the family, the boolean one for [NULL_TYPE]. *)
Definition columnar_variant (t : TPrimitiveType) : option Variant :=
  match t with
  | NULL_TYPE => Some VBool
  | _ => variant_of t
  end.

(** The text of a cell as the printer writes it. *)
Definition cell_text `{Host} (c : Cell) : string :=
  match c with
  | CBool b => if b then "true" else "false"
  | CInt z => pretty z
  | CDouble d => print_double d
  | CText s => s
  end.

(** What a caller reads after rows [[s, s+k)] of a batch were appended to a
    column [c0] of [r] rows, giving [c]: the sizes, the old rows and the new
    rows as [GetNullBit] and the value array show them, and that [c] holds
    exactly [r + k] rows. *)
Definition accumulated `{Host} (t : TScalarType)
  (rows : list (option RawValue)) (s k r : Z) (c0 c : TColumn.t) : Prop :=
  let fv := family_values (ts_type t) in
  let fn := family_nulls (ts_type t) in
  size (fv c) = r + k ∧
  size (fn c) = ceil_div8 (r + k) ∧
  (∀ i, 0 ≤ i < r →
        fv c !! Z.to_nat i = fv c0 !! Z.to_nat i ∧
        GetNullBit (fn c) i = GetNullBit (fn c0) i) ∧
  (∀ j, 0 ≤ j < k →
        ∃ value cell,
          rows !! Z.to_nat (s + j) = Some value ∧
          fv c !! Z.to_nat (r + j) = Some cell ∧
          match value with
          | None => cell = placeholder (ts_type t)
          | Some p => wire_cell t p = Some cell
          end ∧
          GetNullBit (fn c) (r + j) = Some (bool_decide (value = None))) ∧
  holds_rows (r + k) (fv c) (fn c).

(** What the bulk copy of pre-decoded values leaves for a fixed-width
    family: [vals], [nulls] hold the [r] rows of [vals0], [nulls0] followed by
    the fields of [col_vals[s .. s+k)], each new bit being the field's
    [__isset] flag itself. *)
Definition bulk_copied `{Host} (x : Variant) (col_vals : list TColumnValue)
  (s k r : Z) (vals0 : list Cell) (nulls0 : list Z) (vals : list Cell)
  (nulls : list Z) : Prop :=
  holds_rows (r + k) vals nulls ∧
  (∀ i, 0 ≤ i < r →
        vals !! Z.to_nat i = vals0 !! Z.to_nat i ∧
        GetNullBit nulls i = GetNullBit nulls0 i) ∧
  (∀ j, 0 ≤ j < k →
        ∃ col_val,
          col_vals !! Z.to_nat (s + j) = Some col_val ∧
          vals !! Z.to_nat (r + j) = Some (source_payload col_val x) ∧
          GetNullBit nulls (r + j) = Some (source_present col_val x)).

(** What [DCHECK(false); return] leaves of a destination: nothing in a
    build with DCHECKs, the destination as it was in a build without. *)
Definition after_unhandled `{Host} {A} (a : A) : option A :=
  if NDEBUG then Some a else None.

(** * Properties *)

(** ** Machine integers and bits *)

Lemma u32_small z : 0 ≤ z < 2 ^ 32 → u32 z = z.
Proof. intros. unfold u32. apply Z.mod_small. lia. Qed.

Lemma s32_small z : - 2 ^ 31 ≤ z < 2 ^ 31 → s32 z = z.
Proof. intros. unfold s32. rewrite Z.mod_small; lia. Qed.

Lemma s16_small z : - 2 ^ 15 ≤ z < 2 ^ 15 → s16 z = z.
Proof. intros. unfold s16. rewrite Z.mod_small; lia. Qed.

Lemma s8_testbit c k : 0 ≤ k < 8 → Z.testbit (s8 c) k = Z.testbit c k.
Proof.
  intros Hk. unfold s8.
  rewrite <- (Z.mod_pow2_bits_low (_ - _) 8 k) by lia.
  rewrite <- (Z.mod_pow2_bits_low c 8 k) by lia.
  f_equal. change (2 ^ 8) with 256. change (2 ^ 7) with 128.
  rewrite Zminus_mod_idemp_l. f_equal. lia.
Qed.

Lemma GetNullsRequiredSize_small n :
  0 ≤ n ≤ INT_MAX - 7 → GetNullsRequiredSize n = ceil_div8 n.
Proof.
  unfold INT_MAX, GetNullsRequiredSize, ceil_div8. intros Hn.
  rewrite (s32_small n) by lia. rewrite s32_small by lia.
  apply Z.quot_div_nonneg; lia.
Qed.

Lemma null_mask_testbit r b k :
  0 ≤ r → 0 ≤ k → Z.testbit (null_mask r b) k = b && (k =? r).
Proof.
  intros Hr Hk. unfold null_mask. rewrite Z.shiftl_1_l.
  destruct b; simpl.
  - rewrite Z.mul_1_r. rewrite Z.pow2_bits_eqb by lia. apply Z.eqb_sym.
  - rewrite Z.mul_0_r. apply Z.bits_0.
Qed.

Lemma char_or_testbit c r b k :
  0 ≤ r → 0 ≤ k < 8 →
  Z.testbit (char_or c (null_mask r b)) k = Z.testbit c k || (b && (k =? r)).
Proof.
  intros Hr Hk. unfold char_or.
  rewrite Z.mod_pow2_bits_low by lia.
  rewrite Z.lor_spec, s8_testbit, null_mask_testbit by lia. done.
Qed.

Lemma land_bit_test x r :
  0 ≤ r → negb (Z.land x (Z.shiftl 1 r) =? 0) = Z.testbit x r.
Proof.
  intros Hr. rewrite Z.shiftl_1_l.
  destruct (Z.testbit x r) eqn:Hb.
  - apply negb_true_iff, Z.eqb_neq. intros Hz.
    assert (Z.testbit (Z.land x (2 ^ r)) r = true) as Ht.
    { rewrite Z.land_spec, Hb, Z.pow2_bits_true by lia. done. }
    rewrite Hz, Z.bits_0 in Ht. done.
  - apply negb_false_iff, Z.eqb_eq. apply Z.bits_inj'. intros k Hk.
    rewrite Z.land_spec, Z.bits_0, Z.pow2_bits_eqb by lia.
    destruct (Z.eqb_spec r k) as [->|]; [by rewrite Hb | by rewrite andb_false_r].
Qed.

Ltac zdiv := unfold ceil_div8, INT_MAX, size in *; Z.div_mod_to_equations; lia.

Lemma ceil_div8_succ i : 0 ≤ i → ceil_div8 (i + 1) = i / 8 + 1.
Proof. intros. zdiv. Qed.

(** ** Strings and vectors *)

Lemma size_app {A} (l k : list A) : size (l ++ k) = size l + size k.
Proof. unfold size. rewrite length_app. lia. Qed.

Lemma DCHECK_ok `{Host} c : c = true → DCHECK c = Some ().
Proof. intros ->. unfold DCHECK. by rewrite orb_true_r. Qed.

Lemma DCHECK_LE_size_ok `{Host} a n : 0 ≤ a ≤ n → DCHECK_LE_size a n = Some ().
Proof.
  intros. apply DCHECK_ok. apply andb_true_iff. split; apply Z.leb_le; lia.
Qed.

Lemma in_range_true i n : 0 ≤ i < n → (0 <=? i) && (i <? n) = true.
Proof. intros. apply andb_true_iff. split; [apply Z.leb_le | apply Z.ltb_lt]; lia. Qed.

Lemma vector_at_lookup {A} (v : list A) i :
  0 ≤ i < size v → vector_at v i = v !! Z.to_nat i.
Proof. intros. unfold vector_at. by rewrite in_range_true. Qed.

Lemma vector_set_insert {A} (v : list A) i x :
  0 ≤ i < size v → vector_set v i x = Some (<[Z.to_nat i := x]> v).
Proof. intros. unfold vector_set. by rewrite in_range_true. Qed.

Lemma string_at_lookup s i :
  0 ≤ i < size s → string_at s i = Some (default 0 (s !! Z.to_nat i)).
Proof.
  intros Hi. unfold string_at. rewrite in_range_true by done.
  destruct (lookup_lt_is_Some_2 s (Z.to_nat i)) as [c ->]; [unfold size in *; lia | done].
Qed.

Lemma string_set_insert s i c :
  0 ≤ i < size s → string_set s i c = Some (<[Z.to_nat i := c]> s).
Proof. intros. unfold string_set. by rewrite in_range_true. Qed.

(** ** Bits of a bitmap *)

Lemma bit_of_nil i : bit_of [] i = false.
Proof. unfold bit_of. simpl. apply Z.bits_0. Qed.

Lemma bit_of_beyond nulls i : 0 ≤ i → size nulls ≤ i / 8 → bit_of nulls i = false.
Proof.
  intros Hi Hs. unfold bit_of. rewrite lookup_ge_None_2; [apply Z.bits_0 |].
  unfold size in *. lia.
Qed.

Lemma bit_of_app_zero nulls i : 0 ≤ i → bit_of (nulls ++ [0]) i = bit_of nulls i.
Proof.
  intros Hi. unfold bit_of.
  destruct (decide (Z.to_nat (i / 8) < length nulls)%nat) as [Hlt|Hge].
  - by rewrite lookup_app_l.
  - rewrite (lookup_ge_None_2 nulls) by lia.
    rewrite lookup_app_r by lia.
    by destruct (Z.to_nat (i / 8) - length nulls)%nat as [|[|?]].
Qed.

Lemma bit_of_resize_zero nulls n i :
  0 ≤ i → (length nulls ≤ n)%nat → bit_of (resize n 0 nulls) i = bit_of nulls i.
Proof.
  intros Hi Hn. unfold bit_of. rewrite resize_ge by done.
  destruct (decide (Z.to_nat (i / 8) < length nulls)%nat) as [Hlt|Hge].
  - by rewrite lookup_app_l.
  - rewrite (lookup_ge_None_2 nulls) by lia.
    rewrite lookup_app_r by lia.
    destruct (replicate _ _ !! _) as [c|] eqn:Hc; [| done].
    apply lookup_replicate in Hc as [-> _]. done.
Qed.

Lemma bit_of_insert nulls q c i :
  0 ≤ i → 0 ≤ q < size nulls →
  bit_of (<[Z.to_nat q := c]> nulls) i =
  if i / 8 =? q then Z.testbit c (i mod 8) else bit_of nulls i.
Proof.
  intros Hi Hq. unfold bit_of.
  destruct (Z.eqb_spec (i / 8) q) as [->|Hne].
  - rewrite list_lookup_insert_eq; [done | unfold size in *; lia].
  - rewrite list_lookup_insert_ne; [done |].
    assert (0 ≤ i / 8) by (apply Z.div_pos; lia). lia.
Qed.

Lemma or_at_spec nulls i b :
  0 ≤ i → i / 8 < size nulls →
  ∃ nulls',
    (string_at nulls (i / 8) ≫= λ c,
       string_set nulls (i / 8) (char_or c (null_mask (s16 (i mod 8)) b)))
    = Some nulls' ∧
    length nulls' = length nulls ∧
    ∀ j, 0 ≤ j → bit_of nulls' j = bit_of nulls j || (b && (j =? i)).
Proof.
  intros Hi Hq.
  assert (0 ≤ i / 8) as Hq0 by (apply Z.div_pos; lia).
  assert (0 ≤ i mod 8 < 8) as Hr by (apply Z.mod_pos_bound; lia).
  rewrite string_at_lookup by lia. simpl.
  rewrite string_set_insert by lia.
  eexists. split; [done |]. split; [apply length_insert |].
  intros j Hj. rewrite bit_of_insert by lia.
  rewrite s16_small by lia.
  assert (0 ≤ j mod 8 < 8) as Hjr by (apply Z.mod_pos_bound; lia).
  destruct (Z.eqb_spec (j / 8) (i / 8)) as [Heq|Hne].
  - rewrite char_or_testbit by lia. unfold bit_of. rewrite Heq.
    f_equal. f_equal.
    destruct (Z.eqb_spec (j mod 8) (i mod 8)), (Z.eqb_spec j i); try done.
    + exfalso. clear Hq Hq0. Z.div_mod_to_equations. lia.
    + subst. done.
  - destruct (Z.eqb_spec j i) as [->|]; [done |].
    by rewrite andb_false_r, orb_false_r.
Qed.

Lemma SetNullBitNoResize_spec `{Host} nulls i b :
  0 ≤ i ≤ INT_MAX - 8 → i / 8 < size nulls →
  ∃ nulls',
    SetNullBitNoResize i b nulls = Some nulls' ∧
    length nulls' = length nulls ∧
    ∀ j, 0 ≤ j → bit_of nulls' j = bit_of nulls j || (b && (j =? i)).
Proof.
  intros Hi Hq. unfold SetNullBitNoResize.
  rewrite u32_small by (unfold INT_MAX in *; lia).
  rewrite GetNullsRequiredSize_small by lia.
  rewrite ceil_div8_succ by lia.
  rewrite DCHECK_LE_size_ok by (assert (0 ≤ i / 8) by (apply Z.div_pos; lia); lia).
  simpl. apply or_at_spec; lia.
Qed.

Lemma SetNullBit_spec `{Host} nulls i b :
  0 ≤ i ≤ INT_MAX - 7 → ceil_div8 i ≤ size nulls →
  ∃ nulls',
    SetNullBit i b nulls = Some nulls' ∧
    size nulls' = size nulls + (if i mod 8 =? 0 then 1 else 0) ∧
    ∀ j, 0 ≤ j → bit_of nulls' j = bit_of nulls j || (b && (j =? i)).
Proof.
  intros Hi Hq. unfold SetNullBit.
  rewrite GetNullsRequiredSize_small by lia.
  rewrite DCHECK_LE_size_ok by (split; [zdiv | done]).
  simpl.
  assert (0 ≤ i mod 8 < 8) as Hr by (apply Z.mod_pos_bound; lia).
  rewrite (s16_small (i mod 8)) by lia.
  destruct (Z.eqb_spec (i mod 8) 0) as [H0|H0].
  - destruct (or_at_spec (nulls ++ [0]) i b) as (nulls' & Heq & Hlen & Hbits).
    { lia. } { rewrite size_app. change (size [0]) with 1. zdiv. }
    rewrite s16_small in Heq by lia.
    exists nulls'. split; [done |]. split.
    + unfold size. rewrite Hlen, length_app. simpl. lia.
    + intros j Hj. rewrite Hbits by done. by rewrite bit_of_app_zero.
  - destruct (or_at_spec nulls i b) as (nulls' & Heq & Hlen & Hbits).
    { lia. } { zdiv. }
    rewrite s16_small in Heq by lia.
    exists nulls'. split; [done |]. split; [unfold size; lia | done].
Qed.

Lemma GetNullBit_spec `{Host} nulls i :
  0 ≤ i ≤ INT_MAX - 8 → i / 8 < size nulls →
  GetNullBit nulls i = Some (bit_of nulls i).
Proof.
  intros Hi Hq. unfold GetNullBit.
  rewrite u32_small by (unfold INT_MAX in *; lia).
  rewrite GetNullsRequiredSize_small by lia.
  rewrite ceil_div8_succ by lia.
  assert (0 ≤ i / 8) by (apply Z.div_pos; lia).
  rewrite DCHECK_LE_size_ok by lia. simpl.
  rewrite string_at_lookup by lia. simpl.
  f_equal. rewrite land_bit_test by (apply Z.mod_pos_bound; lia).
  rewrite s8_testbit by (apply Z.mod_pos_bound; lia). done.
Qed.

(** ** Loops *)

Lemma for_loop_inv {St} (Inv : Z → St → Prop) (body : Z → St → option St)
  (n : nat) (i0 : Z) (st : St) :
  Inv 0 st →
  (∀ j st, 0 ≤ j < Z.of_nat n → Inv j st →
           ∃ st', body (i0 + j) st = Some st' ∧ Inv (j + 1) st') →
  ∃ st', for_loop n i0 body st = Some st' ∧ Inv (Z.of_nat n) st'.
Proof.
  revert Inv i0 st. induction n as [|n IH]; intros Inv i0 st H0 Hstep.
  - exists st. done.
  - destruct (Hstep 0 st) as (st1 & Hb & H1); [lia | done |].
    rewrite Z.add_0_r in Hb. simpl. rewrite Hb. simpl.
    destruct (IH (λ j, Inv (j + 1)) (i0 + 1) st1) as (st' & Hl & Hn).
    + done.
    + intros j st2 Hj Hinv.
      destruct (Hstep (j + 1) st2) as (st3 & Hb3 & H3); [lia | done |].
      exists st3. split; [| done]. rewrite <- Hb3. f_equal. lia.
    + exists st'. split; [done |].
      replace (Z.of_nat (S n)) with (Z.of_nat n + 1) by lia. done.
Qed.

Lemma for_range_inv {St} (Inv : Z → St → Prop) (body : Z → St → option St)
  (lo hi : Z) (st : St) :
  lo ≤ hi →
  Inv 0 st →
  (∀ j st, 0 ≤ j < hi - lo → Inv j st →
           ∃ st', body (lo + j) st = Some st' ∧ Inv (j + 1) st') →
  ∃ st', for_range lo hi body st = Some st' ∧ Inv (hi - lo) st'.
Proof.
  intros Hle H0 Hstep. unfold for_range.
  destruct (for_loop_inv Inv body (Z.to_nat (hi - lo)) lo st) as (st' & ? & ?).
  - done.
  - intros j st2 Hj. apply Hstep. lia.
  - exists st'. split; [done |]. by rewrite Z2Nat.id in * by lia.
Qed.

(** ** Null bitmap: streaming append, resize, repeated writes, stitch *)

(** C4. For every row count [n] (within [int] range, as the DCHECK of
    [SetNullBit] computes the required size in [int]), appending [n] nullness
    flags with [SetNullBit] at rows [0 .. n-1], starting from an empty
    bitmap, succeeds and leaves a bitmap of exactly [ceil(n/8)] bytes: the
    least number of bytes that holds [n] bits. *)
Theorem streaming_append_length `{Host} (flags : list bool) :
  size flags ≤ INT_MAX - 6 →
  ∃ nulls,
    append_bits flags [] = Some nulls ∧
    size nulls = ceil_div8 (size flags) ∧
    size flags ≤ 8 * size nulls < size flags + 8.
Proof.
  intros Hn. unfold append_bits.
  destruct (for_range_inv (λ j nulls, size nulls = ceil_div8 j)
              (λ i nulls, is_null ← vector_at flags i; SetNullBit i is_null nulls)
              0 (size flags) []) as (nulls & Hrun & Hinv).
  - unfold size. lia.
  - done.
  - intros j nulls Hj Hsz. rewrite Z.add_0_l.
    rewrite vector_at_lookup by lia.
    destruct (lookup_lt_is_Some_2 flags (Z.to_nat j)) as [b Hb];
      [unfold size in *; lia |].
    rewrite Hb. simpl.
    destruct (SetNullBit_spec nulls j b) as (nulls' & Hs & Hsz' & _);
      [lia | lia |].
    exists nulls'. split; [done |]. rewrite Hsz', Hsz.
    destruct (Z.eqb_spec (j mod 8) 0); zdiv.
  - rewrite Z.sub_0_r in Hinv. exists nulls.
    split; [done |]. split; [done |]. rewrite Hinv. clear Hrun Hinv. zdiv.
Qed.

Lemma streaming_append_length_witness :
  size [true; false; true; false; true; false; true; false; true] ≤ INT_MAX - 6 ∧
  ∃ nulls,
    append_bits (H := Demo.host)
      [true; false; true; false; true; false; true; false; true] []
    = Some nulls ∧ size nulls = 2.
Proof.
  assert (size [true; false; true; false; true; false; true; false; true]
          ≤ INT_MAX - 6) as Hn by (vm_compute; discriminate).
  split; [exact Hn |].
  destruct (streaming_append_length (H := Demo.host) _ Hn)
    as (nulls & Hrun & Hsz & _).
  exists nulls. split; [exact Hrun | exact Hsz].
Defined.

(** C6 (as the code has it).  [SetNullsSize] sets the byte length to exactly
    [ceil(new_size / 8)], keeps the bytes that were there and zero-fills the
    new ones; the bitmap gets shorter exactly when that length is below the
    current one. *)
Theorem SetNullsSize_exact (new_size : Z) (nulls : list Z) :
  0 ≤ new_size ≤ INT_MAX - 7 →
  ∃ nulls',
    SetNullsSize new_size nulls = Some nulls' ∧
    size nulls' = ceil_div8 new_size ∧
    (∀ j, 0 ≤ j < size nulls → j < ceil_div8 new_size →
          nulls' !! Z.to_nat j = nulls !! Z.to_nat j) ∧
    (∀ j, size nulls ≤ j < ceil_div8 new_size →
          nulls' !! Z.to_nat j = Some 0) ∧
    (size nulls' < size nulls ↔ ceil_div8 new_size < size nulls).
Proof.
  intros Hn. unfold SetNullsSize, resize_to.
  rewrite GetNullsRequiredSize_small by done.
  assert (0 ≤ ceil_div8 new_size) as Hc by zdiv.
  destruct (Z.leb_spec 0 (ceil_div8 new_size)) as [_|]; [| lia].
  eexists. split; [done |].
  assert (size (resize (Z.to_nat (ceil_div8 new_size)) 0 nulls)
          = ceil_div8 new_size) as Hsz.
  { unfold size. rewrite length_resize. lia. }
  split; [done |]. split; [| split].
  - intros j Hj Hlt. apply lookup_resize; unfold size in *; lia.
  - intros j Hj. apply lookup_resize_new; unfold size in *; lia.
  - rewrite Hsz. done.
Qed.

Lemma SetNullsSize_exact_witness :
  0 ≤ 3 ≤ INT_MAX - 7 ∧
  ∃ nulls', SetNullsSize 3 [5; 0] = Some nulls' ∧ size nulls' = 1.
Proof.
  assert (0 ≤ 3 ≤ INT_MAX - 7) as Hn by (vm_compute; split; discriminate).
  split; [exact Hn |].
  destruct (SetNullsSize_exact 3 [5; 0] Hn) as (nulls' & Hrun & Hsz & _).
  exists nulls'. split; [exact Hrun | exact Hsz].
Defined.

(** C6 as stated fails: resizing a two-byte bitmap for three rows leaves one
    byte, so the call made the bitmap shorter. *)
Lemma SetNullsSize_shrinks :
  SetNullsSize 3 [5; 0] = Some [5] ∧ size [5] < size [5; 0].
Proof. split; [reflexivity | reflexivity]. Qed.

Lemma apply_writes_bits `{Host} (ws : list bit_write) (i : Z) (nulls : list Z) :
  0 ≤ i ≤ INT_MAX - 8 → i / 8 < size nulls →
  ∃ nulls',
    apply_writes i ws nulls = Some nulls' ∧
    size nulls ≤ size nulls' ∧
    ∀ j, 0 ≤ j →
         bit_of nulls' j = bit_of nulls j || (existsb written ws && (j =? i)).
Proof.
  intros Hi. revert nulls. induction ws as [|w ws IH]; intros nulls Hq.
  - exists nulls. split; [done |]. split; [lia |].
    intros j _. simpl. by rewrite orb_false_r.
  - assert (∃ nulls1, apply_write i w nulls = Some nulls1 ∧
                      size nulls ≤ size nulls1 ∧
                      ∀ j, 0 ≤ j →
                           bit_of nulls1 j = bit_of nulls j || (written w && (j =? i)))
      as (nulls1 & Hw & Hsz & Hbits).
    { destruct w as [b|b]; simpl.
      - destruct (SetNullBit_spec nulls i b) as (n1 & ? & Hs & ?); [lia | zdiv |].
        exists n1. split; [done |]. split; [| done].
        rewrite Hs. destruct (i mod 8 =? 0); lia.
      - destruct (SetNullBitNoResize_spec nulls i b) as (n1 & ? & Hs & ?);
          [lia | done |].
        exists n1. split; [done |]. split; [unfold size; lia | done]. }
    destruct (IH nulls1) as (nulls' & Hrun & Hsz' & Hbits'); [lia |].
    exists nulls'. simpl. rewrite Hw. simpl. split; [done |]. split; [lia |].
    intros j Hj. rewrite Hbits', Hbits by done.
    destruct (bit_of nulls j), (written w), (existsb written ws), (j =? i); done.
Qed.

(** C5. For every bit index [i] covered by the bitmap and every sequence of
    writes at [i], through either setter, the writes succeed and [GetNullBit]
    then returns the bit that was there or-ed with the flags written.  On a
    bit that starts clear, as every bit of storage sized by [SetNullsSize]
    does, it is therefore true exactly when at least one of the writes had
    [is_null = true]; a later write of [false] clears nothing. *)
Theorem repeated_writes_or `{Host} (ws : list bit_write) (i : Z)
  (nulls : list Z) :
  0 ≤ i ≤ INT_MAX - 8 → i / 8 < size nulls →
  ∃ nulls' b0,
    apply_writes i ws nulls = Some nulls' ∧
    GetNullBit nulls i = Some b0 ∧
    GetNullBit nulls' i = Some (b0 || existsb written ws) ∧
    (b0 = false →
     (GetNullBit nulls' i = Some true ↔ ∃ w, w ∈ ws ∧ written w = true)) ∧
    (∀ new_size, SetNullsSize new_size [] = Some nulls → b0 = false).
Proof.
  intros Hi Hq.
  destruct (apply_writes_bits ws i nulls) as (nulls' & Hrun & Hsz & Hbits);
    [done | done |].
  exists nulls', (bit_of nulls i).
  split; [done |]. split; [by apply GetNullBit_spec |].
  assert (GetNullBit nulls' i = Some (bit_of nulls i || existsb written ws))
    as Hget.
  { rewrite GetNullBit_spec by lia. rewrite Hbits by lia.
    by rewrite Z.eqb_refl, andb_true_r. }
  split; [done |]. split.
  - intros Hb0. rewrite Hget, Hb0. simpl. split.
    + intros [= Hex]. apply existsb_exists in Hex as (w & Hin & Hw).
      exists w. split; [by apply list_elem_of_In | done].
    + intros (w & Hin & Hw). f_equal. apply existsb_exists.
      exists w. split; [by apply list_elem_of_In | done].
  - intros new_size. unfold SetNullsSize, resize_to.
    destruct (0 <=? _); [| done]. intros [= <-].
    rewrite bit_of_resize_zero by (simpl; lia). apply bit_of_nil.
Qed.

Lemma repeated_writes_or_witness :
  (0 ≤ 10 ≤ INT_MAX - 8 ∧ 10 / 8 < size [0; 0]) ∧
  ∃ nulls',
    apply_writes (H := Demo.host) 10
      [ByNoResize true; ByNoResize false; ByAppend false] [0; 0]
    = Some nulls' ∧
    GetNullBit (H := Demo.host) nulls' 10 = Some true.
Proof.
  assert (0 ≤ 10 ≤ INT_MAX - 8) as Hi by (vm_compute; split; discriminate).
  assert (10 / 8 < size [0; 0]) as Hq by reflexivity.
  split; [exact (conj Hi Hq) |].
  destruct (repeated_writes_or (H := Demo.host)
              [ByNoResize true; ByNoResize false; ByAppend false] 10 [0; 0]
              Hi Hq) as (nulls' & b0 & Hrun & Hget0 & Hget & _ & _).
  exists nulls'. split; [exact Hrun |].
  rewrite Hget. f_equal.
  assert (b0 = false) as -> by (vm_compute in Hget0; congruence).
  reflexivity.
Defined.

(** C3. Stitch round trip: for a source bitmap that holds rows [0, m) and a
    range [s, s+k) inside it, [StitchNulls] into an empty destination at
    offset 0 succeeds, and [GetNullBit] on the destination at [i] agrees with
    [GetNullBit] on the source at [s+i] for every [i < k]. *)
Theorem stitch_round_trip `{Host} (from : list Z) (m s k : Z) :
  0 ≤ m ≤ INT_MAX - 7 → ceil_div8 m ≤ size from →
  0 ≤ s → 0 ≤ k → s + k ≤ m →
  ∃ to,
    StitchNulls 0 k s from [] = Some to ∧
    size to = ceil_div8 k ∧
    ∀ i, 0 ≤ i < k →
         ∃ b, GetNullBit to i = Some b ∧ GetNullBit from (s + i) = Some b.
Proof.
  intros Hm Hfrom Hs Hk Hsk. unfold StitchNulls.
  destruct (for_range_inv
              (λ j to, size to = ceil_div8 j ∧
                       ∀ i, 0 ≤ i →
                            bit_of to i = (i <? j) && bit_of from (s + i))
              (λ i to, b ← GetNullBit from (u32 (i + s));
                       SetNullBit (u32 (0 + i)) b to)
              0 k []) as (to & Hrun & Hsz & Hbits).
  - done.
  - split; [done |]. intros i Hi. rewrite bit_of_nil.
    destruct (Z.ltb_spec i 0); [lia | done].
  - intros j to Hj [Hsz Hbits]. rewrite !Z.add_0_l.
    rewrite !u32_small by (unfold INT_MAX in *; lia).
    rewrite GetNullBit_spec by (unfold INT_MAX in *; zdiv). simpl.
    destruct (SetNullBit_spec to j (bit_of from (j + s)))
      as (to' & Hset & Hsz' & Hbits'); [lia | lia |].
    exists to'. split; [done |]. split.
    + rewrite Hsz', Hsz. destruct (Z.eqb_spec (j mod 8) 0); zdiv.
    + intros i Hi. rewrite Hbits', Hbits by done.
      destruct (Z.eqb_spec i j) as [->|Hne].
      * destruct (Z.ltb_spec j j); [lia |].
        destruct (Z.ltb_spec j (j + 1)); [| lia].
        simpl. rewrite andb_true_r. f_equal. lia.
      * rewrite andb_false_r, orb_false_r.
        destruct (Z.ltb_spec i j), (Z.ltb_spec i (j + 1)); try lia; done.
  - rewrite Z.sub_0_r in *. exists to. split; [done |]. split; [done |].
    intros i Hi. exists (bit_of to i). split.
    + apply GetNullBit_spec; [lia |]. rewrite Hsz. zdiv.
    + rewrite Hbits by lia. destruct (Z.ltb_spec i k); [| lia]. simpl.
      apply GetNullBit_spec; [lia |]. zdiv.
Qed.

Lemma stitch_round_trip_witness :
  (0 ≤ 20 ≤ INT_MAX - 7 ∧ ceil_div8 20 ≤ size [165; 90; 3] ∧
   0 ≤ 3 ∧ 0 ≤ 11 ∧ 3 + 11 ≤ 20) ∧
  ∃ to,
    StitchNulls (H := Demo.host) 0 11 3 [165; 90; 3] [] = Some to ∧
    GetNullBit (H := Demo.host) to 2 =
    GetNullBit (H := Demo.host) [165; 90; 3] (3 + 2).
Proof.
  assert (0 ≤ 20 ≤ INT_MAX - 7) as Hm by (vm_compute; split; discriminate).
  assert (ceil_div8 20 ≤ size [165; 90; 3]) as Hf by (vm_compute; discriminate).
  assert (0 ≤ 3) as Hs by lia.
  assert (0 ≤ 11) as Hk by lia.
  assert (3 + 11 ≤ 20) as Hsk by lia.
  split; [exact (conj Hm (conj Hf (conj Hs (conj Hk Hsk)))) |].
  destruct (stitch_round_trip (H := Demo.host) [165; 90; 3] 20 3 11
              Hm Hf Hs Hk Hsk) as (to & Hrun & _ & Hbits).
  exists to. split; [exact Hrun |].
  destruct (Hbits 2) as (b & Hto & Hfr); [lia |].
  rewrite Hto, Hfr. reflexivity.
Defined.

(** ** Bulk copy against one-at-a-time append of pre-decoded values *)

(** C1 (evaluation at two failing inputs).  For one present boolean the bulk
    path sets the null bit where the one-at-a-time path leaves it clear; for
    one present string the bulk path stores the narrowed [long_val] in
    [stringVal.values] and sizes [i64Val.nulls], where the one-at-a-time path
    stores the text and marks [stringVal.nulls]. *)
Theorem bulk_copy_differs_from_single `{Host} :
  let present_true :=
    {| bool_val := true; byte_val := 0; short_val := 0; int_val := 0;
       long_val := 0; double_val := 0%float; string_val := "";
       isset_bool_val := true; isset_byte_val := false;
       isset_short_val := false; isset_int_val := false;
       isset_long_val := false; isset_double_val := false;
       isset_string_val := false |} in
  let present_text :=
    {| bool_val := false; byte_val := 0; short_val := 0; int_val := 0;
       long_val := 0; double_val := 0%float; string_val := "ab";
       isset_bool_val := false; isset_byte_val := false;
       isset_short_val := false; isset_int_val := false;
       isset_long_val := false; isset_double_val := false;
       isset_string_val := true |} in
  (TColumnValuesToHS2TColumn [present_true] (scalar BOOLEAN 0 0 0) 0 0 1
     TColumn.empty
   = Some (TColumn.set_boolVal {| values := [true]; nulls := [1] |}
             TColumn.empty) ∧
   append_one_at_a_time [present_true] (scalar BOOLEAN 0 0 0) 0 0 1
     TColumn.empty
   = Some (TColumn.set_boolVal {| values := [true]; nulls := [0] |}
             TColumn.empty)) ∧
  (TColumnValuesToHS2TColumn [present_text] (scalar STRING 0 0 0) 0 0 1
     TColumn.empty
   = Some (TColumn.set_i64Val {| values := []; nulls := [0] |}
             (TColumn.set_stringVal
                {| values := [string_of_char 0]; nulls := [] |}
                TColumn.empty)) ∧
   append_one_at_a_time [present_text] (scalar STRING 0 0 0) 0 0 1
     TColumn.empty
   = Some (TColumn.set_stringVal {| values := ["ab"]; nulls := [0] |}
             TColumn.empty)).
Proof.
  destruct H as [[|]]; vm_compute; done.
Qed.

(** ** Value printer *)

Lemma PrintTColumnValue_printed `{Host} (colval : TColumnValue.t) (out : string) :
  - 2 ^ 7 ≤ value (TColumnValue.byteVal colval) < 2 ^ 7 →
  PrintTColumnValue colval out = out +:+ printed colval.
Proof.
  intros Hbyte.
  unfold PrintTColumnValue, printed, render, PrintVal, PrintVal_TByteValue,
    print_order.
  rewrite (s16_small (value (TColumnValue.byteVal colval))) by lia.
  destruct colval as [vb vy v16 v32 v64 vd vs b y i16 i32 i64 d s]; simpl.
  destruct b; simpl; [by destruct (isset_value vb) |].
  destruct d; simpl; [by destruct (isset_value vd) |].
  destruct y; simpl; [by destruct (isset_value vy) |].
  destruct i32; simpl; [by destruct (isset_value v32) |].
  destruct i16; simpl; [by destruct (isset_value v16) |].
  destruct i64; simpl; [by destruct (isset_value v64) |].
  destruct s; simpl; [by destruct (isset_value vs) |].
  done.
Qed.

(** C8. The printer emits the text of the first variant selected in the
    order boolean, double, byte, int32, int16, int64, text; a selected byte
    with value 65 prints the numeral 65, a selected boolean [true] prints
    [true], and when nothing is selected, or the first selected variant has
    its presence flag unset, the output is exactly [NULL]. *)
Theorem printer_precedence `{Host} (colval : TColumnValue.t) (out : string) :
  - 2 ^ 7 ≤ value (TColumnValue.byteVal colval) < 2 ^ 7 →
  PrintTColumnValue colval out = out +:+ printed colval ∧
  print_order = [VBool; VDouble; VByte; VI32; VI16; VI64; VText] ∧
  (∀ i x, list_find (λ x, selected colval x = true) print_order = Some (i, x) →
          PrintTColumnValue colval "" = render colval x ∧
          selected colval x = true ∧
          ∀ y, y ∈ take i print_order → selected colval y = false) ∧
  (TColumnValue.isset_boolVal colval = false →
   TColumnValue.isset_doubleVal colval = false →
   TColumnValue.isset_byteVal colval = true →
   TColumnValue.byteVal colval = {| value := 65; isset_value := true |} →
   PrintTColumnValue colval "" = "65") ∧
  (TColumnValue.isset_boolVal colval = true →
   TColumnValue.boolVal colval = {| value := true; isset_value := true |} →
   PrintTColumnValue colval "" = "true") ∧
  ((∀ x, selected colval x = false) → PrintTColumnValue colval "" = "NULL") ∧
  (∀ i x, list_find (λ x, selected colval x = true) print_order = Some (i, x) →
          present colval x = false → PrintTColumnValue colval "" = "NULL").
Proof.
  intros Hbyte.
  pose proof (PrintTColumnValue_printed colval "" Hbyte) as Hnil.
  simpl in Hnil.
  split; [by apply PrintTColumnValue_printed |]. split; [done |].
  split; [| split; [| split; [| split]]].
  - intros i x Hfind. rewrite Hnil. unfold printed. rewrite Hfind.
    split; [done |].
    apply list_find_Some in Hfind as (Hlook & Hsel & Hbefore).
    split; [done |]. intros y Hy.
    apply list_elem_of_lookup in Hy as [j Hj].
    apply lookup_take_Some in Hj as [Hj Hlt].
    specialize (Hbefore j y Hj Hlt).
    by destruct (selected colval y).
  - intros Hb Hd Hy Hval. unfold PrintTColumnValue, PrintVal_TByteValue.
    rewrite Hb, Hd, Hy, Hval. done.
  - intros Hb Hval. unfold PrintTColumnValue. rewrite Hb, Hval. done.
  - intros Hnone. rewrite Hnil. unfold printed.
    destruct (list_find _ _) as [[i x]|] eqn:Hfind; [| done].
    apply list_find_Some in Hfind as (_ & Hsel & _).
    rewrite Hnone in Hsel. done.
  - intros i x Hfind Habsent. rewrite Hnil. unfold printed, render.
    by rewrite Hfind, Habsent.
Qed.

Lemma printer_precedence_witness :
  let colval :=
    TColumnValue.select_i64Val {| value := 7; isset_value := true |}
      (TColumnValue.select_byteVal {| value := 65; isset_value := true |}
         TColumnValue.empty) in
  - 2 ^ 7 ≤ value (TColumnValue.byteVal colval) < 2 ^ 7 ∧
  PrintTColumnValue (H := Demo.host) colval "" = "65".
Proof.
  intros colval.
  assert (- 2 ^ 7 ≤ value (TColumnValue.byteVal colval) < 2 ^ 7) as Hb
    by (vm_compute; split; [discriminate | reflexivity]).
  split; [exact Hb |].
  destruct (printer_precedence (H := Demo.host) colval "" Hb)
    as (_ & _ & _ & H65 & _).
  apply H65; reflexivity.
Defined.

(** ** Legacy converters *)

Lemma scalar_node_one `{Host} (t : TScalarType) :
  scalar_node (one_scalar t)
  = Some {| tn_type := SCALAR; tn_isset_scalar_type := true;
            tn_scalar_type := t |}.
Proof.
  unfold scalar_node, one_scalar, DCHECK. simpl.
  by rewrite !orb_true_r.
Qed.

Lemma selection_one (v : TColumnValue.t) (x : Variant) :
  selected v x = true →
  (∀ y, y ≠ x → selected v y = false) →
  selection v = [x].
Proof.
  intros Hx Hothers.
  pose proof (Hothers VBool) as Hb. pose proof (Hothers VByte) as Hy.
  pose proof (Hothers VI16) as H16. pose proof (Hothers VI32) as H32.
  pose proof (Hothers VI64) as H64. pose proof (Hothers VDouble) as Hd.
  pose proof (Hothers VText) as Hs. clear Hothers.
  destruct v as [vb vy v16 v32 v64 vd vs b y i16 i32 i64 d s].
  unfold selection, all_variants.
  destruct x; simpl in *;
    repeat match goal with
           | Hq : ?a ≠ ?a → _ |- _ => clear Hq
           | Hq : ?a ≠ ?b → _ |- _ => specialize (Hq ltac:(discriminate))
           end;
    subst; reflexivity.
Qed.

(** C7 (as the code has it).  On a fresh output record and a descriptor of
    one of the twelve tags that have a family, both converters succeed and
    select exactly the variant of the family, with its presence flag equal to
    the presence of the source value.  [ExprValueToHS2TColumnValue] writes
    the payload only when the value is present; [TColumnValueToHS2TColumnValue]
    does so for the text variant and copies the payload field of every other
    variant whether or not it is set.  For [NULL_TYPE],
    [ExprValueToHS2TColumnValue] selects the boolean variant with the
    presence flag unset, whatever the value. *)
Theorem legacy_converters `{Host} (t : TScalarType) (x : Variant) :
  variant_of (ts_type t) = Some x → supported t →
  (∀ col_val, ∃ out,
     TColumnValueToHS2TColumnValue col_val (one_scalar t) TColumnValue.empty
     = Some out ∧
     selection out = [x] ∧
     present out x = source_present col_val x ∧
     payload out x =
       match x with
       | VText => if source_present col_val x then source_payload col_val x
                  else payload TColumnValue.empty x
       | _ => source_payload col_val x
       end) ∧
  (∀ value,
     (∀ p, value = Some p → is_Some (wire_cell t p)) →
     ∃ out,
       ExprValueToHS2TColumnValue value (one_scalar t) TColumnValue.empty
       = Some out ∧
       selection out = [x] ∧
       present out x = bool_decide (is_Some value) ∧
       match value with
       | Some p => wire_cell t p = Some (payload out x)
       | None => payload out x = payload TColumnValue.empty x
       end) ∧
  (∀ value len precision scale, ∃ out,
     ExprValueToHS2TColumnValue value (scalar NULL_TYPE len precision scale)
       TColumnValue.empty = Some out ∧
     selection out = [VBool] ∧ present out VBool = false ∧
     payload out VBool = payload TColumnValue.empty VBool).
Proof.
  intros Hvar [Hvalid Hdec]. split; [| split].
  - intros col_val.
    unfold TColumnValueToHS2TColumnValue. rewrite scalar_node_one. simpl.
    destruct (ts_type t); simplify_eq/=; eexists; (split; [done |]).
    all: split; [apply selection_one; [done | intros []; done] |].
    all: split; simpl; try done; by destruct (isset_string_val col_val).
  - intros value Hread.
    unfold ExprValueToHS2TColumnValue. rewrite scalar_node_one. simpl.
    unfold wire_cell in *.
    destruct (ts_type t) eqn:Htag; simplify_eq/=;
      destruct value as [p|]; simpl;
      try (destruct (Hread p eq_refl) as [c Hc];
           apply fmap_Some in Hc as (s & Hs & ->); rewrite Hs; simpl).
    all: try (eexists; split; [done |];
           split; [apply selection_one; [done | intros []; done] |];
           split; done).
  - intros value len precision scale.
    unfold ExprValueToHS2TColumnValue, scalar.
    rewrite (scalar_node_one _). simpl.
    eexists. split; [done |].
    split; [apply selection_one; [done | intros []; done] |]. done.
Qed.

Lemma legacy_converters_witness :
  let t := {| ts_type := CHAR; ts_len := 5; ts_precision := 0;
              ts_scale := 0 |} in
  (variant_of (ts_type t) = Some VText ∧ supported (H := Demo.host) t) ∧
  ∃ out,
    ExprValueToHS2TColumnValue (H := Demo.host)
      (Some (Demo.text_slot "ab   ")) (one_scalar t) TColumnValue.empty
    = Some out ∧
    selection out = [VText] ∧ present out VText = true ∧
    payload out VText = CText "ab   ".
Proof.
  intros t.
  assert (variant_of (ts_type t) = Some VText) as Hv by reflexivity.
  assert (supported (H := Demo.host) t) as Hs by (split; [discriminate | discriminate]).
  split; [exact (conj Hv Hs) |].
  destruct (legacy_converters (H := Demo.host) t VText Hv Hs)
    as (_ & Hexpr & _).
  destruct (Hexpr (Some (Demo.text_slot "ab   ")))
    as (out & Hrun & Hsel & Hpres & Hpay).
  - intros p [= <-]. vm_compute. eauto.
  - exists out. split; [exact Hrun |]. split; [exact Hsel |].
    split; [exact Hpres |]. injection Hpay as Hpay. unfold payload.
    rewrite <- Hpay. reflexivity.
Defined.

(** C7 as stated fails twice.  A pre-decoded boolean whose field holds
    [true] but is not set is copied into the output although the value is
    absent; and a [NULL_TYPE] column leaves the presence flag unset although
    the value is present. *)
Lemma legacy_converters_not_as_stated :
  (let col_val :=
     {| bool_val := true; byte_val := 0; short_val := 0; int_val := 0;
        long_val := 0; double_val := 0%float; string_val := "";
        isset_bool_val := false; isset_byte_val := false;
        isset_short_val := false; isset_int_val := false;
        isset_long_val := false; isset_double_val := false;
        isset_string_val := false |} in
   ∃ out,
     TColumnValueToHS2TColumnValue (H := Demo.host) col_val
       (scalar BOOLEAN 0 0 0) TColumnValue.empty = Some out ∧
     source_present col_val VBool = false ∧
     payload out VBool = CBool true ∧
     payload TColumnValue.empty VBool = CBool false) ∧
  (∃ out,
     ExprValueToHS2TColumnValue (H := Demo.host) (Some (Demo.int_slot 1))
       (scalar NULL_TYPE 0 0 0) TColumnValue.empty = Some out ∧
     selection out = [VBool] ∧ present out VBool = false).
Proof.
  split; eexists; (split; [reflexivity |]); repeat split.
Qed.

(** ** NULL_TYPE *)

Lemma set_boolVal_frame (x : TXColumn bool) (c : TColumn.t) :
  same_outside_boolVal c (TColumn.set_boolVal x c).
Proof. repeat split. Qed.

(** C10. Each of the four columnar appenders treats a [NULL_TYPE] column
    exactly as a [BOOLEAN] one: the call computes the same result, it leaves
    every sub-column but [boolVal] untouched, and a single-value append adds
    one entry to [boolVal.values]; one absent value appended to an empty
    column lands in [boolVal.values] with a one-byte [boolVal.nulls].  The
    legacy [ExprValueToHS2TColumnValue] selects the boolean variant with the
    presence flag unset, whether or not the input pointer is null. *)
Theorem null_type_routes_to_boolean `{Host} (len precision scale : Z)
  (column : TColumn.t) :
  let NT := scalar NULL_TYPE len precision scale in
  let BT := scalar BOOLEAN len precision scale in
  (∀ col_val r,
     TColumnValueToHS2TColumn col_val NT r column
     = TColumnValueToHS2TColumn col_val BT r column) ∧
  (∀ col_vals s r n,
     TColumnValuesToHS2TColumn col_vals NT s r n column
     = TColumnValuesToHS2TColumn col_vals BT s r n column) ∧
  (∀ value r,
     ExprValueToHS2TColumn value NT r column
     = ExprValueToHS2TColumn value BT r column) ∧
  (∀ rows s r n,
     ExprValuesToHS2TColumn rows NT s r n column
     = ExprValuesToHS2TColumn rows BT s r n column) ∧
  (∀ col_val r c',
     TColumnValueToHS2TColumn col_val NT r column = Some c' →
     same_outside_boolVal column c' ∧
     values (TColumn.boolVal c')
     = values (TColumn.boolVal column) ++ [bool_val col_val]) ∧
  (∀ col_vals s r n c',
     TColumnValuesToHS2TColumn col_vals NT s r n column = Some c' →
     same_outside_boolVal column c') ∧
  (∀ value r c',
     ExprValueToHS2TColumn value NT r column = Some c' →
     same_outside_boolVal column c' ∧
     values (TColumn.boolVal c')
     = values (TColumn.boolVal column)
       ++ [match value with None => false | Some p => as_bool p end]) ∧
  (∀ rows s r n c',
     ExprValuesToHS2TColumn rows NT s r n column = Some c' →
     same_outside_boolVal column c') ∧
  (TColumnValueToHS2TColumn Demo.unset NT 0 TColumn.empty
   = Some (TColumn.set_boolVal {| values := [false]; nulls := [1] |}
             TColumn.empty) ∧
   TColumnValuesToHS2TColumn [Demo.unset] NT 0 0 1 TColumn.empty
   = Some (TColumn.set_boolVal {| values := [false]; nulls := [0] |}
             TColumn.empty) ∧
   ExprValueToHS2TColumn None NT 0 TColumn.empty
   = Some (TColumn.set_boolVal {| values := [false]; nulls := [1] |}
             TColumn.empty) ∧
   ExprValuesToHS2TColumn [None] NT 0 0 1 TColumn.empty
   = Some (TColumn.set_boolVal {| values := [false]; nulls := [1] |}
             TColumn.empty)) ∧
  (∀ value hs2_col_val, ∃ out,
     ExprValueToHS2TColumnValue value NT hs2_col_val = Some out ∧
     TColumnValue.isset_boolVal out = true ∧
     isset_value (TColumnValue.boolVal out) = false).
Proof.
  intros NT BT.
  repeat match goal with |- _ ∧ _ => split end; try reflexivity.
  - intros col_val r c'. unfold TColumnValueToHS2TColumn, push_back_and_mark.
    simpl. intros Hrun.
    destruct (SetNullBit _ _ _) as [nulls'|]; simplify_eq/=.
    split; [apply set_boolVal_frame | done].
  - intros col_vals s r n c'. unfold TColumnValuesToHS2TColumn. simpl.
    intros Hrun. destruct (copy_range _ _ _ _ _ _ _ _ _) as [[result nulls']|];
      simplify_eq/=.
    apply set_boolVal_frame.
  - intros value r c'. unfold ExprValueToHS2TColumn, push_back_and_mark.
    simpl. intros Hrun.
    destruct (SetNullBit _ _ _) as [nulls'|]; simplify_eq/=.
    split; [apply set_boolVal_frame | done].
  - intros rows s r n c'. unfold ExprValuesToHS2TColumn. simpl.
    intros Hrun. destruct (AddValues _ _ _ _ _ _ _ _ _ _) as [[result nulls']|];
      simplify_eq/=.
    apply set_boolVal_frame.
  - destruct H as [[|]]; vm_compute; done.
  - destruct H as [[|]]; vm_compute; done.
  - destruct H as [[|]]; vm_compute; done.
  - destruct H as [[|]]; vm_compute; done.
  - intros value hs2_col_val. unfold ExprValueToHS2TColumnValue.
    unfold NT, scalar. rewrite scalar_node_one. simpl. eexists. done.
Qed.

(** ** Bulk append from a row batch into a fresh column *)

Lemma bulk_fill_fresh `{Host} {T : Type}
  (write : option RawValue → list T → Z → option (list T)) (dflt : T)
  (expected : option RawValue → T) (rows : list (option RawValue)) (s k : Z) :
  0 ≤ s → 0 ≤ k ≤ INT_MAX - 7 → s + k ≤ size rows → size rows ≤ INT_MAX →
  (∀ i value result idx,
     s ≤ i < s + k → rows !! Z.to_nat i = Some value →
     0 ≤ idx < size result → result !! Z.to_nat idx = Some dflt →
     write value result idx = Some (<[Z.to_nat idx := expected value]> result)) →
  ∃ result nulls,
    bulk_fill write dflt rows [] [] s 0 k = Some (result, nulls) ∧
    size result = k ∧
    size nulls = ceil_div8 k ∧
    (∀ j, 0 ≤ j < k →
          ∃ value, rows !! Z.to_nat (s + j) = Some value ∧
                   result !! Z.to_nat j = Some (expected value)) ∧
    (∀ j, 0 ≤ j →
          bit_of nulls j =
          (j <? k) && null_at rows (s + j)).
Proof.
  intros Hs Hk Hrows Hmax Hwrite. unfold bulk_fill.
  assert (INT_MAX = 2147483647) as HIM by reflexivity.
  rewrite Z.add_0_l. rewrite !u32_small by lia.
  unfold resize_to, SetNullsSize, resize_to.
  rewrite GetNullsRequiredSize_small by lia.
  destruct (Z.leb_spec 0 k) as [_|]; [| lia].
  assert (0 ≤ ceil_div8 k) as Hc by zdiv.
  destruct (Z.leb_spec 0 (ceil_div8 k)) as [_|]; [| lia].
  simpl.
  destruct (for_range_inv
    (λ j (st : Z * list T * list Z),
       let '(ridx, result, nulls) := st in
       ridx = j ∧ size result = k ∧ size nulls = ceil_div8 k ∧
       (∀ i, 0 ≤ i < j →
             ∃ value, rows !! Z.to_nat (s + i) = Some value ∧
                      result !! Z.to_nat i = Some (expected value)) ∧
       (∀ i, j ≤ i < k → result !! Z.to_nat i = Some dflt) ∧
       (∀ i, 0 ≤ i →
             bit_of nulls i =
             (i <? j) && null_at rows (s + i)))
    (λ i '(result_idx, result, nulls),
       value ← vector_at rows (s32 i);
       result ← write value result result_idx;
       nulls ← SetNullBitNoResize result_idx (bool_decide (value = None)) nulls;
       Some (u32 (result_idx + 1), result, nulls))
    s (s + k)
    (0, resize (Z.to_nat k) dflt [], resize (Z.to_nat (ceil_div8 k)) 0 []))
    as ([[ridx result] nulls] & Hrun & Hinv).
  - lia.
  - split; [done |]. split; [unfold size; rewrite length_resize; lia |].
    split; [unfold size; rewrite length_resize; lia |].
    split; [intros; lia |]. split.
    + intros i Hi. apply lookup_resize_new; simpl; lia.
    + intros i Hi. rewrite bit_of_resize_zero by (simpl; lia).
      rewrite bit_of_nil. destruct (Z.ltb_spec i 0); [lia | done].
  - intros j [[ridx result] nulls] Hj (-> & Hres & Hnul & Hdone & Htodo & Hbits).
    rewrite s32_small by lia.
    rewrite vector_at_lookup by lia.
    destruct (lookup_lt_is_Some_2 rows (Z.to_nat (s + j))) as [value Hvalue];
      [unfold size in *; lia |].
    rewrite Hvalue. simpl.
    rewrite (Hwrite (s + j) value result j) by (try done; try lia; apply Htodo; lia).
    simpl.
    destruct (SetNullBitNoResize_spec nulls j (bool_decide (value = None)))
      as (nulls' & Hset & Hlen & Hbits'); [lia | rewrite Hnul; zdiv |].
    rewrite Hset. simpl. rewrite u32_small by lia.
    eexists. split; [done |]. simpl.
    split; [done |]. split; [unfold size in *; rewrite length_insert; lia |].
    split; [unfold size in *; lia |]. split; [| split].
    + intros i Hi. destruct (decide (i = j)) as [->|Hne].
      * exists value. split; [done |].
        apply list_lookup_insert_eq. unfold size in *. lia.
      * destruct (Hdone i) as (v & Hv & Hr); [lia |].
        exists v. split; [done |]. rewrite list_lookup_insert_ne by lia. done.
    + intros i Hi. rewrite list_lookup_insert_ne by lia. apply Htodo. lia.
    + intros i Hi. rewrite Hbits', Hbits by done.
      destruct (Z.eqb_spec i j) as [->|Hne].
      * destruct (Z.ltb_spec j j); [lia |].
        destruct (Z.ltb_spec j (j + 1)); [| lia]. simpl.
        rewrite andb_true_r. unfold null_at. rewrite Hvalue.
        by destruct value.
      * rewrite andb_false_r, orb_false_r.
        destruct (Z.ltb_spec i j), (Z.ltb_spec i (j + 1)); try lia; done.
  - rewrite Hrun. simpl. destruct Hinv as (_ & Hres & Hnul & Hdone & _ & Hbits).
    replace (s + k - s) with k in * by lia.
    exists result, nulls. done.
Qed.

Lemma fill_case `{Host} {T : Type} (inj : T → Cell)
  (write : option RawValue → list T → Z → option (list T)) (dflt : T)
  (expected : option RawValue → T) (t : TScalarType)
  (rows : list (option RawValue)) (s k : Z) :
  0 ≤ s → 0 ≤ k ≤ INT_MAX - 7 → s + k ≤ size rows → size rows ≤ INT_MAX →
  (∀ i value result idx,
     s ≤ i < s + k → rows !! Z.to_nat i = Some value →
     0 ≤ idx < size result → result !! Z.to_nat idx = Some dflt →
     write value result idx = Some (<[Z.to_nat idx := expected value]> result)) →
  inj (expected None) = placeholder (ts_type t) →
  (∀ i p, s ≤ i < s + k → rows !! Z.to_nat i = Some (Some p) →
          wire_cell t p = Some (inj (expected (Some p)))) →
  ∃ result nulls,
    bulk_fill write dflt rows [] [] s 0 k = Some (result, nulls) ∧
    filled_from t rows s k (inj <$> result) nulls.
Proof.
  intros Hs Hk Hrows Hmax Hwrite Hnone Hsome.
  destruct (bulk_fill_fresh write dflt expected rows s k)
    as (result & nulls & Hrun & Hres & Hnul & Hvals & Hbits); try done.
  exists result, nulls. split; [done |].
  split; [unfold size in *; by rewrite length_fmap |]. split; [done |].
  split.
  - intros j Hj. destruct (Hvals j Hj) as (value & Hvalue & Hr).
    exists value, (inj (expected value)). split; [done |].
    split; [by rewrite list_lookup_fmap, Hr |]. split.
    + destruct value as [p|]; [| done]. apply (Hsome (s + j)); [lia | done].
    + rewrite GetNullBit_spec by (try lia; rewrite Hnul; zdiv).
      rewrite Hbits by lia. destruct (Z.ltb_spec j k); [| lia]. simpl.
      unfold null_at. rewrite Hvalue. by destruct value.
  - intros j Hj. rewrite Hbits by done. unfold null_at.
    destruct (Z.ltb_spec j k); simpl.
    + destruct (rows !! Z.to_nat (s + j)) as [[p|]|]; split;
        try done; try (by intros [_ [=]]); by intros [_ ?].
    + split; [done | lia].
Qed.

Lemma vector_set_id {A} (v : list A) i x :
  0 ≤ i < size v → v !! Z.to_nat i = Some x →
  Some v = Some (<[Z.to_nat i := x]> v).
Proof. intros _ Hx. by rewrite list_insert_id. Qed.

(** Each of the five appenders is [bulk_fill] with its own store statement. *)

Lemma AddValues_fresh `{Host} {S T : Type} (inj : T → Cell)
  (read : RawValue → S) (zero : S) (conv : S → T) (dflt : T)
  (t : TScalarType) (rows : list (option RawValue)) (s k : Z) :
  0 ≤ s → 0 ≤ k ≤ INT_MAX - 7 → s + k ≤ size rows → size rows ≤ INT_MAX →
  inj (conv zero) = placeholder (ts_type t) →
  (∀ p, wire_cell t p = Some (inj (conv (read p)))) →
  ∃ result nulls,
    AddValues read zero conv dflt rows [] [] s 0 k = Some (result, nulls) ∧
    filled_from t rows s k (inj <$> result) nulls.
Proof.
  intros Hs Hk Hrows Hmax Hzero Hwire.
  apply (fill_case inj
           (λ value result idx,
              vector_set result idx
                (conv (match value with None => zero | Some p => read p end)))
           dflt
           (λ value, conv (match value with None => zero | Some p => read p end)));
    try done.
  intros. by apply vector_set_insert.
Qed.

Lemma AddDecimalValues_fresh `{Host}
  (ToString : RawValue → ColumnType → string) (decimalType : ColumnType)
  (t : TScalarType) (rows : list (option RawValue)) (s k : Z) :
  0 ≤ s → 0 ≤ k ≤ INT_MAX - 7 → s + k ≤ size rows → size rows ≤ INT_MAX →
  ts_type t = DECIMAL →
  (∀ p, wire_cell t p = Some (CText (ToString p decimalType))) →
  ∃ result nulls,
    AddDecimalValues ToString rows [] decimalType [] s 0 k
    = Some (result, nulls) ∧
    filled_from t rows s k (CText <$> result) nulls.
Proof.
  intros Hs Hk Hrows Hmax Htag Hwire.
  apply (fill_case CText
           (λ value result idx,
              vector_set result idx
                (match value with
                 | None => ""
                 | Some p => ToString p decimalType
                 end))
           ""
           (λ value, match value with
                     | None => ""
                     | Some p => ToString p decimalType
                     end));
    try done.
  - intros. by apply vector_set_insert.
  - by rewrite Htag.
Qed.

Lemma AddTimestampValues_fresh `{Host} (t : TScalarType)
  (rows : list (option RawValue)) (s k : Z) :
  0 ≤ s → 0 ≤ k ≤ INT_MAX - 7 → s + k ≤ size rows → size rows ≤ INT_MAX →
  ts_type t = TIMESTAMP →
  ∃ result nulls,
    AddTimestampValues rows [] [] s 0 k = Some (result, nulls) ∧
    filled_from t rows s k (CText <$> result) nulls.
Proof.
  intros Hs Hk Hrows Hmax Htag.
  apply (fill_case CText
           (λ value result idx,
              match value with
              | Some p => vector_set result idx (PrintTimestamp p)
              | None => Some result
              end)
           ""
           (λ value, match value with
                     | None => ""
                     | Some p => PrintTimestamp p
                     end));
    try done.
  - intros i [p|] result idx Hi Hvalue Hidx Hdflt;
      [by apply vector_set_insert | by apply vector_set_id].
  - by rewrite Htag.
  - intros. unfold wire_cell. by rewrite Htag.
Qed.

Lemma AddStringValues_fresh `{Host} (t : TScalarType)
  (rows : list (option RawValue)) (s k : Z) :
  0 ≤ s → 0 ≤ k ≤ INT_MAX - 7 → s + k ≤ size rows → size rows ≤ INT_MAX →
  ts_type t = STRING ∨ ts_type t = VARCHAR →
  (∀ i p, s ≤ i < s + k → rows !! Z.to_nat i = Some (Some p) →
          is_Some (wire_cell t p)) →
  ∃ result nulls,
    AddStringValues rows [] [] s 0 k = Some (result, nulls) ∧
    filled_from t rows s k (CText <$> result) nulls.
Proof.
  intros Hs Hk Hrows Hmax Htag Hread.
  assert (∀ p, wire_cell t p =
               CText <$> string_assign (ptr (as_StringValue p))
                           (len (as_StringValue p))) as Hwire.
  { intros p. unfold wire_cell. by destruct Htag as [-> | ->]. }
  apply (fill_case CText
           (λ value result idx,
              match value with
              | Some p =>
                  let str_val := as_StringValue p in
                  s ← string_assign (ptr str_val) (len str_val);
                  vector_set result idx s
              | None => Some result
              end)
           ""
           (λ value, match value with
                     | None => ""
                     | Some p =>
                         default "" (string_assign (ptr (as_StringValue p))
                                       (len (as_StringValue p)))
                     end));
    try done.
  - intros i [p|] result idx Hi Hvalue Hidx Hdflt; [| by apply vector_set_id].
    destruct (Hread i p Hi Hvalue) as [c Hc]. rewrite Hwire in Hc.
    apply fmap_Some in Hc as (str & Hstr & _). simpl. rewrite Hstr.
    simpl. by apply vector_set_insert.
  - by destruct Htag as [-> | ->].
  - intros i p Hi Hvalue. destruct (Hread i p Hi Hvalue) as [c Hc].
    rewrite Hwire in *.
    apply fmap_Some in Hc as (str & Hstr & ->). by rewrite Hstr.
Qed.

Lemma AddCharValues_fresh `{Host} (t : TScalarType)
  (rows : list (option RawValue)) (s k : Z) :
  0 ≤ s → 0 ≤ k ≤ INT_MAX - 7 → s + k ≤ size rows → size rows ≤ INT_MAX →
  ts_type t = CHAR →
  (∀ i p, s ≤ i < s + k → rows !! Z.to_nat i = Some (Some p) →
          is_Some (wire_cell t p)) →
  ∃ result nulls,
    AddCharValues rows [] (CreateCharType (ts_len t)) [] s 0 k
    = Some (result, nulls) ∧
    filled_from t rows s k (CText <$> result) nulls.
Proof.
  intros Hs Hk Hrows Hmax Htag Hread.
  assert (∀ p, wire_cell t p =
               CText <$> string_assign
                           (CharSlotToPtr p (CreateCharType (ts_len t)))
                           (ts_len t)) as Hwire.
  { intros p. unfold wire_cell. by rewrite Htag. }
  apply (fill_case CText
           (λ value result idx,
              match value with
              | Some p =>
                  s ← string_assign
                        (CharSlotToPtr p (CreateCharType (ts_len t)))
                        (ct_len (CreateCharType (ts_len t)));
                  vector_set result idx s
              | None => Some result
              end)
           ""
           (λ value, match value with
                     | None => ""
                     | Some p =>
                         default "" (string_assign
                                       (CharSlotToPtr p
                                          (CreateCharType (ts_len t)))
                                       (ts_len t))
                     end));
    try done.
  - intros i [p|] result idx Hi Hvalue Hidx Hdflt; [| by apply vector_set_id].
    destruct (Hread i p Hi Hvalue) as [c Hc]. rewrite Hwire in Hc.
    apply fmap_Some in Hc as (str & Hstr & _). simpl. rewrite Hstr.
    simpl. by apply vector_set_insert.
  - by rewrite Htag.
  - intros i p Hi Hvalue. destruct (Hread i p Hi Hvalue) as [c Hc].
    rewrite Hwire in *.
    apply fmap_Some in Hc as (str & Hstr & ->). by rewrite Hstr.
Qed.

(** Closes a case of the dispatch once the appender's result is known. *)
Ltac store_column Hfresh :=
  let result := fresh "result" in
  let nulls := fresh "nulls" in
  let Hrun := fresh "Hrun" in
  let Hok := fresh "Hok" in
  destruct Hfresh as (result & nulls & Hrun & Hok);
  rewrite Hrun; simpl; eexists; split; [reflexivity | exact Hok].

(** C2. For each type family, filling an empty column from rows [[s, s+k)]
    of a row batch with [ExprValuesToHS2TColumn] succeeds and yields a value
    array of [k] entries and a bitmap of [ceil(k/8)] bytes; an entry at a
    null row is the zero or empty placeholder of the family, an entry at a
    non-null row is the wire form of the slot, [GetNullBit] at a row tells
    whether it is null, and the set bits of the bitmap are exactly the null
    rows.  This holds for every pattern of nulls, in particular when every
    other row is null. *)
Theorem bulk_append_fresh `{Host} (t : TScalarType)
  (rows : list (option RawValue)) (s k : Z) :
  supported t →
  0 ≤ s → 0 ≤ k ≤ INT_MAX - 7 → s + k ≤ size rows → size rows ≤ INT_MAX →
  (∀ i p, s ≤ i < s + k → rows !! Z.to_nat i = Some (Some p) →
          is_Some (wire_cell t p)) →
  ∃ column,
    ExprValuesToHS2TColumn rows (one_scalar t) s 0 k TColumn.empty
    = Some column ∧
    filled_from t rows s k
      (family_values (ts_type t) column) (family_nulls (ts_type t) column).
Proof.
  intros [Hvalid Hdec] Hs Hk Hrows Hmax Hread.
  unfold ExprValuesToHS2TColumn. simpl.
  destruct (ts_type t) eqn:Htag; [done | ..].
  - store_column (AddValues_fresh CBool as_bool false id false t rows s k
                    Hs Hk Hrows Hmax ltac:(by rewrite Htag)
                    ltac:(by intros; unfold wire_cell; rewrite Htag)).
  - store_column (AddValues_fresh CBool as_bool false id false t rows s k
                    Hs Hk Hrows Hmax ltac:(by rewrite Htag)
                    ltac:(by intros; unfold wire_cell; rewrite Htag)).
  - store_column (AddValues_fresh CInt as_int8 0 id 0 t rows s k
                    Hs Hk Hrows Hmax ltac:(by rewrite Htag)
                    ltac:(by intros; unfold wire_cell; rewrite Htag)).
  - store_column (AddValues_fresh CInt as_int16 0 id 0 t rows s k
                    Hs Hk Hrows Hmax ltac:(by rewrite Htag)
                    ltac:(by intros; unfold wire_cell; rewrite Htag)).
  - store_column (AddValues_fresh CInt as_int32 0 id 0 t rows s k
                    Hs Hk Hrows Hmax ltac:(by rewrite Htag)
                    ltac:(by intros; unfold wire_cell; rewrite Htag)).
  - store_column (AddValues_fresh CInt as_int64 0 id 0 t rows s k
                    Hs Hk Hrows Hmax ltac:(by rewrite Htag)
                    ltac:(by intros; unfold wire_cell; rewrite Htag)).
  - store_column (AddValues_fresh CDouble as_float float32_zero
                    float_to_double 0%float t rows s k
                    Hs Hk Hrows Hmax
                    ltac:(by rewrite Htag; simpl; rewrite float_to_double_zero)
                    ltac:(by intros; unfold wire_cell; rewrite Htag)).
  - store_column (AddValues_fresh CDouble as_double 0%float id 0%float
                    t rows s k Hs Hk Hrows Hmax ltac:(by rewrite Htag)
                    ltac:(by intros; unfold wire_cell; rewrite Htag)).
  - store_column (AddTimestampValues_fresh t rows s k Hs Hk Hrows Hmax Htag).
  - store_column (AddStringValues_fresh t rows s k Hs Hk Hrows Hmax
                    (or_introl Htag) Hread).
  - store_column (AddStringValues_fresh t rows s k Hs Hk Hrows Hmax
                    (or_intror Htag) Hread).
  - store_column (AddCharValues_fresh t rows s k Hs Hk Hrows Hmax Htag Hread).
  - destruct (Hdec eq_refl) as [Hw|[Hw|Hw]]; rewrite Hw.
    + store_column (AddDecimalValues_fresh Decimal4ToString
                      (FromThrift_scalar t) t rows s k Hs Hk Hrows Hmax Htag
                      ltac:(by intros; unfold wire_cell, decimal_text;
                              rewrite Htag, Hw)).
    + store_column (AddDecimalValues_fresh Decimal8ToString
                      (FromThrift_scalar t) t rows s k Hs Hk Hrows Hmax Htag
                      ltac:(by intros; unfold wire_cell, decimal_text;
                              rewrite Htag, Hw)).
    + store_column (AddDecimalValues_fresh Decimal16ToString
                      (FromThrift_scalar t) t rows s k Hs Hk Hrows Hmax Htag
                      ltac:(by intros; unfold wire_cell, decimal_text;
                              rewrite Htag, Hw)).
Qed.

Lemma bulk_append_fresh_witness :
  let t := {| ts_type := INT; ts_len := 0; ts_precision := 0; ts_scale := 0 |} in
  let rows := [Some (Demo.int_slot 7); None; Some (Demo.int_slot 9); None;
               Some (Demo.int_slot 11)] in
  (supported (H := Demo.host) t ∧ 0 ≤ 0 ∧ 0 ≤ 5 ≤ INT_MAX - 7 ∧
   0 + 5 ≤ size rows ∧ size rows ≤ INT_MAX ∧
   ∀ i p, 0 ≤ i < 0 + 5 → rows !! Z.to_nat i = Some (Some p) →
          is_Some (wire_cell (H := Demo.host) t p)) ∧
  ∃ column,
    ExprValuesToHS2TColumn (H := Demo.host) rows (one_scalar t) 0 0 5
      TColumn.empty = Some column ∧
    values (TColumn.i32Val column) = [7; 0; 9; 0; 11] ∧
    nulls (TColumn.i32Val column) = [10] ∧
    filled_from (H := Demo.host) t rows 0 5
      (family_values INT column) (family_nulls INT column).
Proof.
  intros t rows.
  assert (supported (H := Demo.host) t) as Hsup
    by (split; [discriminate | discriminate]).
  assert (0 ≤ 0) as Hs by lia.
  assert (0 ≤ 5 ≤ INT_MAX - 7) as Hk by (vm_compute; split; discriminate).
  assert (0 + 5 ≤ size rows) as Hrows by (vm_compute; discriminate).
  assert (size rows ≤ INT_MAX) as Hmax by (vm_compute; discriminate).
  assert (∀ i p, 0 ≤ i < 0 + 5 → rows !! Z.to_nat i = Some (Some p) →
                 is_Some (wire_cell (H := Demo.host) t p)) as Hread
    by (intros i p _ _; vm_compute; eauto).
  split; [exact (conj Hsup (conj Hs (conj Hk (conj Hrows (conj Hmax Hread))))) |].
  destruct (bulk_append_fresh (H := Demo.host) t rows 0 5
              Hsup Hs Hk Hrows Hmax Hread) as (column & Hrun & Hok).
  exists column. split; [exact Hrun |].
  assert (column = TColumn.set_i32Val
                     {| values := [7; 0; 9; 0; 11]; nulls := [10] |}
                     TColumn.empty) as Hcol
    by (vm_compute in Hrun; injection Hrun as <-; reflexivity).
  split; [by rewrite Hcol |]. split; [by rewrite Hcol |]. exact Hok.
Defined.

(** ** Fixed-width character slots *)

Lemma substring_0_length (s : string) (n : nat) :
  (n ≤ String.length s)%nat → String.length (String.substring 0 n s) = n.
Proof.
  revert n. induction s as [|c s IH]; intros [|n] Hn; simpl in *; try done; try lia.
  rewrite IH; [done | lia].
Qed.

Lemma substring_0_all (s : string) :
  String.substring 0 (String.length s) s = s.
Proof. induction s as [|c s IH]; simpl; [done | by rewrite IH]. Qed.

Lemma string_assign_take (p : string) (n : Z) :
  0 ≤ n ≤ Z.of_nat (String.length p) →
  string_assign p n = Some (String.substring 0 (Z.to_nat n) p).
Proof.
  intros Hn. unfold string_assign.
  destruct (Z.leb_spec 0 n); [| lia].
  destruct (Z.leb_spec n (Z.of_nat (String.length p))); [done | lia].
Qed.

(** C9. For a char(N) column and a present value whose slot holds at least
    [N] characters, the single-value columnar appender, the bulk columnar
    appender and the legacy converter all produce the first [N] characters of
    the slot: exactly [N] characters, the whole slot with its padding when
    the slot is [N] characters wide. *)
Theorem char_slot_copied_whole `{Host} (N precision scale : Z) (p : RawValue) :
  0 ≤ N ≤ Z.of_nat (String.length (CharSlotToPtr p (CreateCharType N))) →
  let type := scalar CHAR N precision scale in
  let slot := CharSlotToPtr p (CreateCharType N) in
  let text := String.substring 0 (Z.to_nat N) slot in
  Z.of_nat (String.length text) = N ∧
  (Z.of_nat (String.length slot) = N → text = slot) ∧
  (∃ column,
     ExprValueToHS2TColumn (Some p) type 0 TColumn.empty = Some column ∧
     values (TColumn.stringVal column) = [text]) ∧
  (∀ column r column',
     ExprValueToHS2TColumn (Some p) type r column = Some column' →
     values (TColumn.stringVal column')
     = values (TColumn.stringVal column) ++ [text]) ∧
  (∃ column,
     ExprValuesToHS2TColumn [Some p] type 0 0 1 TColumn.empty = Some column ∧
     values (TColumn.stringVal column) = [text]) ∧
  (∃ out,
     ExprValueToHS2TColumnValue (Some p) type TColumnValue.empty = Some out ∧
     TColumnValue.isset_stringVal out = true ∧
     TColumnValue.stringVal out = {| value := text; isset_value := true |}).
Proof.
  intros HN type slot text.
  change (0 ≤ N ≤ Z.of_nat (String.length slot)) in HN.
  assert (string_assign slot N = Some text) as Hassign
    by (by apply string_assign_take).
  split; [| split; [| split; [| split; [| split]]]].
  - unfold text. rewrite substring_0_length; lia.
  - intros Hw. unfold text. rewrite <- Hw, Nat2Z.id. apply substring_0_all.
  - unfold ExprValueToHS2TColumn, push_back_and_mark. simpl.
    fold slot. rewrite Hassign. simpl.
    destruct (SetNullBit_spec [] 0 false) as (nulls' & Hset & _);
      [by vm_compute | by vm_compute |].
    rewrite Hset. simpl. eexists. done.
  - intros column r column'.
    unfold ExprValueToHS2TColumn, push_back_and_mark. simpl.
    fold slot. rewrite Hassign. simpl. intros Hrun.
    destruct (SetNullBit _ _ _) as [nulls'|]; simplify_eq/=. done.
  - destruct (AddCharValues_fresh
                {| ts_type := CHAR; ts_len := N; ts_precision := precision;
                   ts_scale := scale |} [Some p] 0 1)
      as (result & nulls & Hrun & Hsz & _ & Hvals & _).
    + lia.
    + by vm_compute.
    + by vm_compute.
    + by vm_compute.
    + done.
    + intros i q Hi Hq. assert (i = 0) as -> by lia. simplify_eq/=.
      unfold wire_cell. simpl. fold slot. rewrite Hassign. eauto.
    + unfold ExprValuesToHS2TColumn. simpl in *. rewrite Hrun. simpl.
      eexists. split; [done |]. simpl.
      destruct (Hvals 0) as (value & cell & Hrow & Hcell & Hwire & _); [lia |].
      simplify_eq/=. unfold wire_cell in Hwire. simpl in Hwire.
      fold slot in Hwire. rewrite Hassign in Hwire. simplify_eq/=.
      unfold size in Hsz. rewrite length_fmap in Hsz.
      destruct result as [|v [|v' vs]]; simpl in *; [lia | | lia].
      by injection Hcell as ->.
  - unfold ExprValueToHS2TColumnValue, type, scalar.
    rewrite scalar_node_one. simpl. fold slot. rewrite Hassign. simpl.
    eexists. done.
Qed.

Lemma char_slot_copied_whole_witness :
  0 ≤ 5 ≤ Z.of_nat (String.length
                      (CharSlotToPtr (Host := Demo.host)
                         (Demo.text_slot "ab   ") (CreateCharType 5))) ∧
  ∃ column,
    ExprValueToHS2TColumn (H := Demo.host) (Some (Demo.text_slot "ab   "))
      (scalar CHAR 5 0 0) 0 TColumn.empty = Some column ∧
    values (TColumn.stringVal column) = ["ab   "] ∧
    String.length "ab   " = 5%nat.
Proof.
  assert (0 ≤ 5 ≤ Z.of_nat (String.length
                              (CharSlotToPtr (Host := Demo.host)
                                 (Demo.text_slot "ab   ") (CreateCharType 5))))
    as HN by (vm_compute; split; discriminate).
  split; [exact HN |].
  destruct (char_slot_copied_whole (H := Demo.host) 5 0 0
              (Demo.text_slot "ab   ") HN)
    as (_ & _ & (column & Hrun & Hvals) & _).
  exists column. split; [exact Hrun |]. split; [exact Hvals | reflexivity].
Defined.

(** * Further properties *)

(** ** The two single-bit setters *)

(** X1. [SetNullBit] is [SetNullBitNoResize] on the bitmap with a zero byte
    appended when the row opens a new byte, and on the bitmap itself
    otherwise: same failure, same bytes. *)
Theorem SetNullBit_as_NoResize `{Host} (row_idx : Z) (is_null : bool)
  (nulls : list Z) :
  0 ≤ row_idx ≤ INT_MAX - 8 →
  SetNullBit row_idx is_null nulls
  = SetNullBitNoResize row_idx is_null
      (if row_idx mod 8 =? 0 then nulls ++ [0] else nulls).
Proof.
  intros Hi. unfold SetNullBit, SetNullBitNoResize.
  rewrite u32_small by (unfold INT_MAX in *; lia).
  rewrite !GetNullsRequiredSize_small by lia.
  assert (0 ≤ row_idx mod 8 < 8) as Hr by (apply Z.mod_pos_bound; lia).
  rewrite (s16_small (row_idx mod 8)) by lia.
  assert (DCHECK_LE_size (ceil_div8 row_idx) (size nulls)
          = DCHECK_LE_size (ceil_div8 (row_idx + 1))
              (size (if row_idx mod 8 =? 0 then nulls ++ [0] else nulls)))
    as ->; [| done].
  unfold DCHECK_LE_size. f_equal.
  destruct (Z.eqb_spec (row_idx mod 8) 0) as [H0|H0].
  - rewrite size_app. change (size [0]) with 1.
    assert (ceil_div8 (row_idx + 1) = ceil_div8 row_idx + 1) as -> by zdiv.
    assert (0 ≤ ceil_div8 row_idx) by zdiv.
    destruct (Z.leb_spec 0 (ceil_div8 row_idx)),
      (Z.leb_spec 0 (ceil_div8 row_idx + 1)),
      (Z.leb_spec (ceil_div8 row_idx) (size nulls)),
      (Z.leb_spec (ceil_div8 row_idx + 1) (size nulls + 1)); try lia; done.
  - assert (ceil_div8 (row_idx + 1) = ceil_div8 row_idx) as -> by zdiv. done.
Qed.

Lemma SetNullBit_as_NoResize_witness :
  0 ≤ 8 ≤ INT_MAX - 8 ∧
  SetNullBit (H := Demo.host) 8 true [3]
  = SetNullBitNoResize (H := Demo.host) 8 true [3; 0] ∧
  SetNullBit (H := Demo.host) 8 true [3] = Some [3; 1].
Proof.
  assert (0 ≤ 8 ≤ INT_MAX - 8) as Hi by (vm_compute; split; discriminate).
  split; [exact Hi |].
  split; [exact (SetNullBit_as_NoResize (H := Demo.host) 8 true [3] Hi) |].
  reflexivity.
Defined.

(** ** Bulk fill onto a column that already holds rows *)

Lemma flag_at_lookup {V} (flag : V → bool) (src : list V) i v :
  src !! Z.to_nat i = Some v → flag_at flag src i = flag v.
Proof. intros Hv. unfold flag_at. by rewrite Hv. Qed.

Lemma range_fill_append `{Host} {V T : Type}
  (write : V → list T → Z → option (list T)) (flag : V → bool) (dflt : T)
  (expected : V → T) (src : list V) (result : list T) (nulls : list Z)
  (s r k : Z) :
  0 ≤ s → 0 ≤ k → 0 ≤ r → r + k ≤ INT_MAX - 7 →
  s + k ≤ size src → size src ≤ INT_MAX →
  size result = r → size nulls = ceil_div8 r →
  (∀ i value res idx,
     s ≤ i < s + k → src !! Z.to_nat i = Some value →
     0 ≤ idx < size res → res !! Z.to_nat idx = Some dflt →
     write value res idx = Some (<[Z.to_nat idx := expected value]> res)) →
  ∃ result' nulls',
    range_fill write flag dflt src result nulls s r k
    = Some (result', nulls') ∧
    size result' = r + k ∧
    size nulls' = ceil_div8 (r + k) ∧
    (∀ i, 0 ≤ i < r → result' !! Z.to_nat i = result !! Z.to_nat i) ∧
    (∀ j, 0 ≤ j < k →
          ∃ value, src !! Z.to_nat (s + j) = Some value ∧
                   result' !! Z.to_nat (r + j) = Some (expected value)) ∧
    (∀ j, 0 ≤ j →
          bit_of nulls' j =
          bit_of nulls j ||
          ((r <=? j) && (j <? r + k) && flag_at flag src (s + (j - r)))).
Proof.
  intros Hs Hk Hr Hrk Hsrc Hmax Hres Hnul Hwrite. unfold range_fill.
  assert (INT_MAX = 2147483647) as HIM by reflexivity.
  rewrite !u32_small by lia.
  unfold resize_to, SetNullsSize, resize_to.
  rewrite GetNullsRequiredSize_small by lia.
  destruct (Z.leb_spec 0 (r + k)) as [_|]; [| lia].
  assert (0 ≤ ceil_div8 (r + k)) as Hc by zdiv.
  assert (ceil_div8 r ≤ ceil_div8 (r + k)) as Hmono by zdiv.
  destruct (Z.leb_spec 0 (ceil_div8 (r + k))) as [_|]; [| lia].
  simpl.
  destruct (for_range_inv
    (λ j (st : Z * list T * list Z),
       let '(ridx, res, nul) := st in
       ridx = r + j ∧ size res = r + k ∧ size nul = ceil_div8 (r + k) ∧
       (∀ i, 0 ≤ i < r → res !! Z.to_nat i = result !! Z.to_nat i) ∧
       (∀ i, 0 ≤ i < j →
             ∃ value, src !! Z.to_nat (s + i) = Some value ∧
                      res !! Z.to_nat (r + i) = Some (expected value)) ∧
       (∀ i, j ≤ i < k → res !! Z.to_nat (r + i) = Some dflt) ∧
       (∀ i, 0 ≤ i →
             bit_of nul i =
             bit_of nulls i ||
             ((r <=? i) && (i <? r + j) && flag_at flag src (s + (i - r)))))
    (λ i '(result_idx, result, nulls),
       value ← vector_at src (s32 i);
       result ← write value result result_idx;
       nulls ← SetNullBitNoResize result_idx (flag value) nulls;
       Some (u32 (result_idx + 1), result, nulls))
    s (s + k)
    (r, resize (Z.to_nat (r + k)) dflt result,
     resize (Z.to_nat (ceil_div8 (r + k))) 0 nulls))
    as ([[ridx res] nul] & Hrun & Hinv).
  - lia.
  - split; [lia |]. split; [unfold size; rewrite length_resize; lia |].
    split; [unfold size; rewrite length_resize; lia |].
    split; [| split; [| split]].
    + intros i Hi. apply lookup_resize; unfold size in *; lia.
    + intros; lia.
    + intros i Hi. apply lookup_resize_new; unfold size in *; lia.
    + intros i Hi. rewrite bit_of_resize_zero by (unfold size in *; lia).
      destruct (Z.ltb_spec i (r + 0)), (Z.leb_spec r i); try lia;
        by rewrite ?andb_false_r, orb_false_r.
  - intros j [[ridx res] nul] Hj
      (-> & Hres' & Hnul' & Hold & Hdone & Htodo & Hbits).
    rewrite s32_small by lia.
    rewrite vector_at_lookup by lia.
    destruct (lookup_lt_is_Some_2 src (Z.to_nat (s + j))) as [value Hvalue];
      [unfold size in *; lia |].
    rewrite Hvalue. simpl.
    rewrite (Hwrite (s + j) value res (r + j))
      by (try done; try lia; apply Htodo; lia).
    simpl.
    destruct (SetNullBitNoResize_spec nul (r + j) (flag value))
      as (nul' & Hset & Hlen & Hbits'); [lia | rewrite Hnul'; zdiv |].
    rewrite Hset. simpl. rewrite u32_small by lia.
    eexists. split; [done |]. simpl.
    split; [lia |]. split; [unfold size in *; rewrite length_insert; lia |].
    split; [unfold size in *; lia |]. split; [| split; [| split]].
    + intros i Hi. rewrite list_lookup_insert_ne by lia. by apply Hold.
    + intros i Hi. destruct (decide (i = j)) as [->|Hne].
      * exists value. split; [done |].
        apply list_lookup_insert_eq. unfold size in *. lia.
      * destruct (Hdone i) as (v & Hv & Hr'); [lia |].
        exists v. split; [done |]. rewrite list_lookup_insert_ne by lia. done.
    + intros i Hi. rewrite list_lookup_insert_ne by lia. apply Htodo. lia.
    + intros i Hi. rewrite Hbits', Hbits by done.
      destruct (Z.eqb_spec i (r + j)) as [->|Hne].
      * replace (s + (r + j - r)) with (s + j) by lia.
        rewrite (flag_at_lookup _ _ _ _ Hvalue).
        destruct (Z.leb_spec r (r + j)); [| lia].
        destruct (Z.ltb_spec (r + j) (r + j)); [lia |].
        destruct (Z.ltb_spec (r + j) (r + (j + 1))); [| lia].
        by destruct (bit_of nulls (r + j)), (flag value).
      * rewrite andb_false_r, orb_false_r.
        destruct (Z.ltb_spec i (r + j)), (Z.ltb_spec i (r + (j + 1)));
          try lia; done.
  - rewrite Hrun. simpl.
    destruct Hinv as (_ & Hres' & Hnul' & Hold & Hdone & _ & Hbits).
    replace (s + k - s) with k in * by lia.
    exists res, nul. done.
Qed.

Lemma size_fmap {A B} (f : A → B) (l : list A) : size (f <$> l) = size l.
Proof. unfold size. by rewrite length_fmap. Qed.

Lemma fill_case_append `{Host} {T : Type} (inj : T → Cell)
  (write : option RawValue → list T → Z → option (list T)) (dflt : T)
  (expected : option RawValue → T) (t : TScalarType)
  (rows : list (option RawValue)) (result0 : list T) (nulls0 : list Z)
  (s r k : Z) :
  0 ≤ s → 0 ≤ k → r + k ≤ INT_MAX - 7 →
  s + k ≤ size rows → size rows ≤ INT_MAX →
  holds_rows r (inj <$> result0) nulls0 →
  (∀ i value res idx,
     s ≤ i < s + k → rows !! Z.to_nat i = Some value →
     0 ≤ idx < size res → res !! Z.to_nat idx = Some dflt →
     write value res idx = Some (<[Z.to_nat idx := expected value]> res)) →
  inj (expected None) = placeholder (ts_type t) →
  (∀ i p, s ≤ i < s + k → rows !! Z.to_nat i = Some (Some p) →
          wire_cell t p = Some (inj (expected (Some p)))) →
  ∃ result nulls,
    bulk_fill write dflt rows result0 nulls0 s r k = Some (result, nulls) ∧
    extended_from t rows s k r (inj <$> result0) nulls0 (inj <$> result) nulls.
Proof.
  intros Hs Hk Hrk Hrows Hmax (Hsz0 & Hnul0 & Hclear) Hwrite Hnone Hsome.
  rewrite size_fmap in Hsz0.
  assert (0 ≤ r) as Hr by (unfold size in *; lia).
  destruct (range_fill_append write (λ value, bool_decide (value = None))
              dflt expected rows result0 nulls0 s r k)
    as (result & nulls & Hrun & Hres & Hnul & Hold & Hnew & Hbits); try done.
  exists result, nulls. split; [exact Hrun |].
  split; [| split].
  - split; [by rewrite size_fmap |]. split; [done |].
    intros j Hj. rewrite Hbits by lia. rewrite Hclear by lia.
    destruct (Z.ltb_spec j (r + k)); [lia |].
    by rewrite andb_false_r.
  - intros i Hi. split.
    + by rewrite !list_lookup_fmap, Hold.
    + rewrite Hbits by lia. destruct (Z.leb_spec r i); [lia |].
      by rewrite orb_false_r.
  - intros j Hj. destruct (Hnew j Hj) as (value & Hvalue & Hr').
    exists value, (inj (expected value)). split; [done |].
    split; [by rewrite list_lookup_fmap, Hr' |]. split.
    + destruct value as [p|]; [| done]. apply (Hsome (s + j)); [lia | done].
    + rewrite Hbits by lia. rewrite Hclear by lia.
      replace (s + (r + j - r)) with (s + j) by lia.
      rewrite (flag_at_lookup _ _ _ _ Hvalue).
      destruct (Z.leb_spec r (r + j)); [| lia].
      destruct (Z.ltb_spec (r + j) (r + k)); [done | lia].
Qed.

Lemma AddValues_append `{Host} {S T : Type} (inj : T → Cell)
  (read : RawValue → S) (zero : S) (conv : S → T) (dflt : T)
  (t : TScalarType) (rows : list (option RawValue))
  (result0 : list T) (nulls0 : list Z) (s r k : Z) :
  0 ≤ s → 0 ≤ k → r + k ≤ INT_MAX - 7 →
  s + k ≤ size rows → size rows ≤ INT_MAX →
  holds_rows r (inj <$> result0) nulls0 →
  inj (conv zero) = placeholder (ts_type t) →
  (∀ p, wire_cell t p = Some (inj (conv (read p)))) →
  ∃ result nulls,
    AddValues read zero conv dflt rows result0 nulls0 s r k
    = Some (result, nulls) ∧
    extended_from t rows s k r (inj <$> result0) nulls0 (inj <$> result) nulls.
Proof.
  intros Hs Hk Hrk Hrows Hmax Hholds Hzero Hwire.
  apply (fill_case_append inj
           (λ value result idx,
              vector_set result idx
                (conv (match value with None => zero | Some p => read p end)))
           dflt
           (λ value, conv (match value with None => zero | Some p => read p end)));
    try done.
  intros. by apply vector_set_insert.
Qed.

Lemma AddDecimalValues_append `{Host}
  (ToString : RawValue → ColumnType → string) (decimalType : ColumnType)
  (t : TScalarType) (rows : list (option RawValue))
  (result0 : list string) (nulls0 : list Z) (s r k : Z) :
  0 ≤ s → 0 ≤ k → r + k ≤ INT_MAX - 7 →
  s + k ≤ size rows → size rows ≤ INT_MAX →
  holds_rows r (CText <$> result0) nulls0 →
  ts_type t = DECIMAL →
  (∀ p, wire_cell t p = Some (CText (ToString p decimalType))) →
  ∃ result nulls,
    AddDecimalValues ToString rows result0 decimalType nulls0 s r k
    = Some (result, nulls) ∧
    extended_from t rows s k r (CText <$> result0) nulls0
      (CText <$> result) nulls.
Proof.
  intros Hs Hk Hrk Hrows Hmax Hholds Htag Hwire.
  apply (fill_case_append CText
           (λ value result idx,
              vector_set result idx
                (match value with
                 | None => ""
                 | Some p => ToString p decimalType
                 end))
           ""
           (λ value, match value with
                     | None => ""
                     | Some p => ToString p decimalType
                     end));
    try done.
  - intros. by apply vector_set_insert.
  - by rewrite Htag.
Qed.

Lemma AddTimestampValues_append `{Host} (t : TScalarType)
  (rows : list (option RawValue)) (result0 : list string) (nulls0 : list Z)
  (s r k : Z) :
  0 ≤ s → 0 ≤ k → r + k ≤ INT_MAX - 7 →
  s + k ≤ size rows → size rows ≤ INT_MAX →
  holds_rows r (CText <$> result0) nulls0 →
  ts_type t = TIMESTAMP →
  ∃ result nulls,
    AddTimestampValues rows result0 nulls0 s r k = Some (result, nulls) ∧
    extended_from t rows s k r (CText <$> result0) nulls0
      (CText <$> result) nulls.
Proof.
  intros Hs Hk Hrk Hrows Hmax Hholds Htag.
  apply (fill_case_append CText
           (λ value result idx,
              match value with
              | Some p => vector_set result idx (PrintTimestamp p)
              | None => Some result
              end)
           ""
           (λ value, match value with
                     | None => ""
                     | Some p => PrintTimestamp p
                     end));
    try done.
  - intros i [p|] result idx Hi Hvalue Hidx Hdflt;
      [by apply vector_set_insert | by apply vector_set_id].
  - by rewrite Htag.
  - intros. unfold wire_cell. by rewrite Htag.
Qed.

Lemma AddStringValues_append `{Host} (t : TScalarType)
  (rows : list (option RawValue)) (result0 : list string) (nulls0 : list Z)
  (s r k : Z) :
  0 ≤ s → 0 ≤ k → r + k ≤ INT_MAX - 7 →
  s + k ≤ size rows → size rows ≤ INT_MAX →
  holds_rows r (CText <$> result0) nulls0 →
  ts_type t = STRING ∨ ts_type t = VARCHAR →
  (∀ i p, s ≤ i < s + k → rows !! Z.to_nat i = Some (Some p) →
          is_Some (wire_cell t p)) →
  ∃ result nulls,
    AddStringValues rows result0 nulls0 s r k = Some (result, nulls) ∧
    extended_from t rows s k r (CText <$> result0) nulls0
      (CText <$> result) nulls.
Proof.
  intros Hs Hk Hrk Hrows Hmax Hholds Htag Hread.
  assert (∀ p, wire_cell t p =
               CText <$> string_assign (ptr (as_StringValue p))
                           (len (as_StringValue p))) as Hwire.
  { intros p. unfold wire_cell. by destruct Htag as [-> | ->]. }
  apply (fill_case_append CText
           (λ value result idx,
              match value with
              | Some p =>
                  let str_val := as_StringValue p in
                  s ← string_assign (ptr str_val) (len str_val);
                  vector_set result idx s
              | None => Some result
              end)
           ""
           (λ value, match value with
                     | None => ""
                     | Some p =>
                         default "" (string_assign (ptr (as_StringValue p))
                                       (len (as_StringValue p)))
                     end));
    try done.
  - intros i [p|] result idx Hi Hvalue Hidx Hdflt; [| by apply vector_set_id].
    destruct (Hread i p Hi Hvalue) as [c Hc]. rewrite Hwire in Hc.
    apply fmap_Some in Hc as (str & Hstr & _). simpl. rewrite Hstr.
    simpl. by apply vector_set_insert.
  - by destruct Htag as [-> | ->].
  - intros i p Hi Hvalue. destruct (Hread i p Hi Hvalue) as [c Hc].
    rewrite Hwire in *.
    apply fmap_Some in Hc as (str & Hstr & ->). by rewrite Hstr.
Qed.

Lemma AddCharValues_append `{Host} (t : TScalarType)
  (rows : list (option RawValue)) (result0 : list string) (nulls0 : list Z)
  (s r k : Z) :
  0 ≤ s → 0 ≤ k → r + k ≤ INT_MAX - 7 →
  s + k ≤ size rows → size rows ≤ INT_MAX →
  holds_rows r (CText <$> result0) nulls0 →
  ts_type t = CHAR →
  (∀ i p, s ≤ i < s + k → rows !! Z.to_nat i = Some (Some p) →
          is_Some (wire_cell t p)) →
  ∃ result nulls,
    AddCharValues rows result0 (CreateCharType (ts_len t)) nulls0 s r k
    = Some (result, nulls) ∧
    extended_from t rows s k r (CText <$> result0) nulls0
      (CText <$> result) nulls.
Proof.
  intros Hs Hk Hrk Hrows Hmax Hholds Htag Hread.
  assert (∀ p, wire_cell t p =
               CText <$> string_assign
                           (CharSlotToPtr p (CreateCharType (ts_len t)))
                           (ts_len t)) as Hwire.
  { intros p. unfold wire_cell. by rewrite Htag. }
  apply (fill_case_append CText
           (λ value result idx,
              match value with
              | Some p =>
                  s ← string_assign
                        (CharSlotToPtr p (CreateCharType (ts_len t)))
                        (ct_len (CreateCharType (ts_len t)));
                  vector_set result idx s
              | None => Some result
              end)
           ""
           (λ value, match value with
                     | None => ""
                     | Some p =>
                         default "" (string_assign
                                       (CharSlotToPtr p
                                          (CreateCharType (ts_len t)))
                                       (ts_len t))
                     end));
    try done.
  - intros i [p|] result idx Hi Hvalue Hidx Hdflt; [| by apply vector_set_id].
    destruct (Hread i p Hi Hvalue) as [c Hc]. rewrite Hwire in Hc.
    apply fmap_Some in Hc as (str & Hstr & _). simpl. rewrite Hstr.
    simpl. by apply vector_set_insert.
  - by rewrite Htag.
  - intros i p Hi Hvalue. destruct (Hread i p Hi Hvalue) as [c Hc].
    rewrite Hwire in *.
    apply fmap_Some in Hc as (str & Hstr & ->). by rewrite Hstr.
Qed.

Lemma ExprValuesToHS2TColumn_extends `{Host} (t : TScalarType)
  (rows : list (option RawValue)) (column : TColumn.t) (s r k : Z) :
  supported t →
  0 ≤ s → 0 ≤ k → r + k ≤ INT_MAX - 7 →
  s + k ≤ size rows → size rows ≤ INT_MAX →
  holds_rows r (family_values (ts_type t) column)
    (family_nulls (ts_type t) column) →
  (∀ i p, s ≤ i < s + k → rows !! Z.to_nat i = Some (Some p) →
          is_Some (wire_cell t p)) →
  ∃ column',
    ExprValuesToHS2TColumn rows (one_scalar t) s r k column = Some column' ∧
    extended_from t rows s k r
      (family_values (ts_type t) column) (family_nulls (ts_type t) column)
      (family_values (ts_type t) column') (family_nulls (ts_type t) column').
Proof.
  intros [Hvalid Hdec] Hs Hk Hrk Hrows Hmax Hholds Hread.
  unfold ExprValuesToHS2TColumn. simpl.
  destruct (ts_type t) eqn:Htag; [done | ..];
    unfold family_values, family_nulls in Hholds.
  - store_column (AddValues_append CBool as_bool false id false t rows _ _
                    s r k Hs Hk Hrk Hrows Hmax Hholds ltac:(by rewrite Htag)
                    ltac:(by intros; unfold wire_cell; rewrite Htag)).
  - store_column (AddValues_append CBool as_bool false id false t rows _ _
                    s r k Hs Hk Hrk Hrows Hmax Hholds ltac:(by rewrite Htag)
                    ltac:(by intros; unfold wire_cell; rewrite Htag)).
  - store_column (AddValues_append CInt as_int8 0 id 0 t rows _ _
                    s r k Hs Hk Hrk Hrows Hmax Hholds ltac:(by rewrite Htag)
                    ltac:(by intros; unfold wire_cell; rewrite Htag)).
  - store_column (AddValues_append CInt as_int16 0 id 0 t rows _ _
                    s r k Hs Hk Hrk Hrows Hmax Hholds ltac:(by rewrite Htag)
                    ltac:(by intros; unfold wire_cell; rewrite Htag)).
  - store_column (AddValues_append CInt as_int32 0 id 0 t rows _ _
                    s r k Hs Hk Hrk Hrows Hmax Hholds ltac:(by rewrite Htag)
                    ltac:(by intros; unfold wire_cell; rewrite Htag)).
  - store_column (AddValues_append CInt as_int64 0 id 0 t rows _ _
                    s r k Hs Hk Hrk Hrows Hmax Hholds ltac:(by rewrite Htag)
                    ltac:(by intros; unfold wire_cell; rewrite Htag)).
  - store_column (AddValues_append CDouble as_float float32_zero
                    float_to_double 0%float t rows _ _
                    s r k Hs Hk Hrk Hrows Hmax Hholds
                    ltac:(by rewrite Htag; simpl; rewrite float_to_double_zero)
                    ltac:(by intros; unfold wire_cell; rewrite Htag)).
  - store_column (AddValues_append CDouble as_double 0%float id 0%float
                    t rows _ _ s r k Hs Hk Hrk Hrows Hmax Hholds
                    ltac:(by rewrite Htag)
                    ltac:(by intros; unfold wire_cell; rewrite Htag)).
  - store_column (AddTimestampValues_append t rows _ _ s r k
                    Hs Hk Hrk Hrows Hmax Hholds Htag).
  - store_column (AddStringValues_append t rows _ _ s r k
                    Hs Hk Hrk Hrows Hmax Hholds (or_introl Htag) Hread).
  - store_column (AddStringValues_append t rows _ _ s r k
                    Hs Hk Hrk Hrows Hmax Hholds (or_intror Htag) Hread).
  - store_column (AddCharValues_append t rows _ _ s r k
                    Hs Hk Hrk Hrows Hmax Hholds Htag Hread).
  - destruct (Hdec eq_refl) as [Hw|[Hw|Hw]]; rewrite Hw.
    + store_column (AddDecimalValues_append Decimal4ToString
                      (FromThrift_scalar t) t rows _ _ s r k
                      Hs Hk Hrk Hrows Hmax Hholds Htag
                      ltac:(by intros; unfold wire_cell, decimal_text;
                              rewrite Htag, Hw)).
    + store_column (AddDecimalValues_append Decimal8ToString
                      (FromThrift_scalar t) t rows _ _ s r k
                      Hs Hk Hrk Hrows Hmax Hholds Htag
                      ltac:(by intros; unfold wire_cell, decimal_text;
                              rewrite Htag, Hw)).
    + store_column (AddDecimalValues_append Decimal16ToString
                      (FromThrift_scalar t) t rows _ _ s r k
                      Hs Hk Hrk Hrows Hmax Hholds Htag
                      ltac:(by intros; unfold wire_cell, decimal_text;
                              rewrite Htag, Hw)).
Qed.

Lemma accumulated_of_extended `{Host} (t : TScalarType)
  (rows : list (option RawValue)) (s k r : Z) (c0 c : TColumn.t) :
  0 ≤ k → r + k ≤ INT_MAX - 7 →
  holds_rows r (family_values (ts_type t) c0) (family_nulls (ts_type t) c0) →
  extended_from t rows s k r
    (family_values (ts_type t) c0) (family_nulls (ts_type t) c0)
    (family_values (ts_type t) c) (family_nulls (ts_type t) c) →
  accumulated t rows s k r c0 c.
Proof.
  intros Hk Hrk (Hsz0 & Hnul0 & _) (Hholds & Hold & Hnew).
  pose proof Hholds as (Hsz & Hnul & _).
  assert (0 ≤ r) as Hr by (unfold size in *; lia).
  split; [done |]. split; [done |]. split; [| split; [| done]].
  - intros i Hi. destruct (Hold i Hi) as [Hv Hb]. split; [done |].
    rewrite !GetNullBit_spec by (try lia; rewrite ?Hnul, ?Hnul0; zdiv).
    by rewrite Hb.
  - intros j Hj. destruct (Hnew j Hj) as (value & cell & Hv & Hc & Hm & Hb).
    exists value, cell. split; [done |]. split; [done |]. split; [done |].
    rewrite GetNullBit_spec by (try lia; rewrite Hnul; zdiv). by rewrite Hb.
Qed.

(** X2. Bulk append accumulates.  On a column whose array and bitmap for the
    family hold exactly [r] rows, [ExprValuesToHS2TColumn] at
    [result_start_idx = r] succeeds; the first [r] values and null bits read
    as before, rows [[r, r+k)] carry the wire form and nullness of batch rows
    [[s, s+k)], and the column then holds exactly [r + k] rows, so the next
    call can append in turn. *)
Theorem bulk_append_accumulates `{Host} (t : TScalarType)
  (rows : list (option RawValue)) (column : TColumn.t) (s r k : Z) :
  supported t →
  0 ≤ s → 0 ≤ k → r + k ≤ INT_MAX - 7 →
  s + k ≤ size rows → size rows ≤ INT_MAX →
  holds_rows r (family_values (ts_type t) column)
    (family_nulls (ts_type t) column) →
  (∀ i p, s ≤ i < s + k → rows !! Z.to_nat i = Some (Some p) →
          is_Some (wire_cell t p)) →
  ∃ column',
    ExprValuesToHS2TColumn rows (one_scalar t) s r k column = Some column' ∧
    accumulated t rows s k r column column'.
Proof.
  intros Hsup Hs Hk Hrk Hrows Hmax Hholds Hread.
  destruct (ExprValuesToHS2TColumn_extends t rows column s r k)
    as (column' & Hrun & Hext); try done.
  exists column'. split; [exact Hrun |].
  by apply accumulated_of_extended.
Qed.

Lemma bulk_append_accumulates_witness :
  let t := {| ts_type := INT; ts_len := 0; ts_precision := 0; ts_scale := 0 |} in
  let rows := [Some (Demo.int_slot 7); None; Some (Demo.int_slot 9); None;
               Some (Demo.int_slot 11)] in
  ∃ c1 c2,
    ExprValuesToHS2TColumn (H := Demo.host) rows (one_scalar t) 0 0 3
      TColumn.empty = Some c1 ∧
    holds_rows 3 (family_values INT c1) (family_nulls INT c1) ∧
    ExprValuesToHS2TColumn (H := Demo.host) rows (one_scalar t) 3 3 2 c1
    = Some c2 ∧
    values (TColumn.i32Val c2) = [7; 0; 9; 0; 11] ∧
    nulls (TColumn.i32Val c2) = [10] ∧
    holds_rows 5 (family_values INT c2) (family_nulls INT c2).
Proof.
  intros t rows.
  assert (supported (H := Demo.host) t) as Hsup
    by (split; [discriminate | discriminate]).
  assert (size rows ≤ INT_MAX) as Hmax by (vm_compute; discriminate).
  assert (∀ s k i p, s ≤ i < s + k → rows !! Z.to_nat i = Some (Some p) →
                     is_Some (wire_cell (H := Demo.host) t p)) as Hread
    by (intros s k i p _ _; vm_compute; eauto).
  assert (holds_rows 0 (family_values (ts_type t) TColumn.empty)
            (family_nulls (ts_type t) TColumn.empty)) as Hempty
    by (split; [done |]; split; [done |]; intros; apply bit_of_nil).
  destruct (bulk_append_accumulates (H := Demo.host) t rows TColumn.empty
              0 0 3 Hsup ltac:(lia) ltac:(lia)
              ltac:(vm_compute; discriminate) ltac:(vm_compute; discriminate)
              Hmax Hempty (Hread 0 3))
    as (c1 & Hrun1 & _ & _ & _ & _ & Hholds1).
  destruct (bulk_append_accumulates (H := Demo.host) t rows c1
              3 3 2 Hsup ltac:(lia) ltac:(lia)
              ltac:(vm_compute; discriminate) ltac:(vm_compute; discriminate)
              Hmax Hholds1 (Hread 3 2))
    as (c2 & Hrun2 & _ & _ & _ & _ & Hholds2).
  exists c1, c2. split; [exact Hrun1 |]. split; [exact Hholds1 |].
  split; [exact Hrun2 |].
  assert (c1 = TColumn.set_i32Val {| values := [7; 0; 9]; nulls := [2] |}
                 TColumn.empty) as Hc1
    by (vm_compute in Hrun1; injection Hrun1 as <-; reflexivity).
  assert (c2 = TColumn.set_i32Val
                 {| values := [7; 0; 9; 0; 11]; nulls := [10] |}
                 TColumn.empty) as Hc2
    by (rewrite Hc1 in Hrun2; vm_compute in Hrun2; injection Hrun2 as <-;
        reflexivity).
  split; [by rewrite Hc2 |]. split; [by rewrite Hc2 |]. exact Hholds2.
Defined.

(** ** One value at a time *)

Lemma push_back_and_mark_spec `{Host} {A} (v : A) (j : Z) (b : bool)
  (col : TXColumn A) :
  0 ≤ j ≤ INT_MAX - 7 → size (nulls col) = ceil_div8 j →
  ∃ col',
    push_back_and_mark v j b col = Some col' ∧
    values col' = values col ++ [v] ∧
    size (nulls col') = ceil_div8 (j + 1) ∧
    ∀ i, 0 ≤ i →
         bit_of (nulls col') i = bit_of (nulls col) i || (b && (i =? j)).
Proof.
  intros Hj Hsz. unfold push_back_and_mark.
  destruct (SetNullBit_spec (nulls col) j b) as (nulls' & Hset & Hsz' & Hbits);
    [done | lia |].
  rewrite Hset. simpl. eexists. split; [done |]. simpl.
  split; [done |]. split; [| done].
  rewrite Hsz', Hsz. destruct (Z.eqb_spec (j mod 8) 0); zdiv.
Qed.

Lemma stream_append {C : Type} (fv : C → list Cell) (fn : C → list Z)
  (step : Z → C → option C) (cell : Z → Cell) (flag : Z → bool)
  (r k : Z) (c0 : C) :
  0 ≤ r → 0 ≤ k → size (fn c0) = ceil_div8 r →
  (∀ j c, 0 ≤ j < k → size (fn c) = ceil_div8 (r + j) →
          ∃ c', step j c = Some c' ∧
                fv c' = fv c ++ [cell j] ∧
                size (fn c') = ceil_div8 (r + j + 1) ∧
                ∀ i, 0 ≤ i →
                     bit_of (fn c') i
                     = bit_of (fn c) i || (flag j && (i =? r + j))) →
  ∃ c',
    for_range 0 k step c0 = Some c' ∧
    fv c' = fv c0 ++ (cell <$> seqZ 0 k) ∧
    size (fn c') = ceil_div8 (r + k) ∧
    ∀ i, 0 ≤ i →
         bit_of (fn c') i
         = bit_of (fn c0) i || ((r <=? i) && (i <? r + k) && flag (i - r)).
Proof.
  intros Hr Hk Hsz Hstep.
  destruct (for_range_inv
    (λ j c, fv c = fv c0 ++ (cell <$> seqZ 0 j) ∧
            size (fn c) = ceil_div8 (r + j) ∧
            ∀ i, 0 ≤ i →
                 bit_of (fn c) i
                 = bit_of (fn c0) i ||
                   ((r <=? i) && (i <? r + j) && flag (i - r)))
    step 0 k c0) as (c' & Hrun & Hinv).
  - done.
  - split; [by rewrite app_nil_r |]. split; [by rewrite Z.add_0_r |].
    intros i Hi. destruct (Z.ltb_spec i (r + 0)), (Z.leb_spec r i); try lia;
      by rewrite ?andb_false_r, orb_false_r.
  - intros j c Hj (Hfv & Hfn & Hbits). rewrite Z.add_0_l.
    destruct (Hstep j c) as (c' & Hs & Hfv' & Hfn' & Hbits'); [lia | done |].
    exists c'. split; [done |]. split; [| split].
    + rewrite Hfv', Hfv, <- app_assoc. f_equal.
      rewrite seqZ_app by lia. rewrite fmap_app. done.
    + rewrite Hfn'. f_equal. lia.
    + intros i Hi. rewrite Hbits', Hbits by done.
      destruct (Z.eqb_spec i (r + j)) as [->|Hne].
      * replace (r + j - r) with j by lia.
        destruct (Z.leb_spec r (r + j)); [| lia].
        destruct (Z.ltb_spec (r + j) (r + j)); [lia |].
        destruct (Z.ltb_spec (r + j) (r + (j + 1))); [| lia].
        by destruct (bit_of (fn c0) (r + j)), (flag j).
      * rewrite andb_false_r, orb_false_r.
        destruct (Z.ltb_spec i (r + j)), (Z.ltb_spec i (r + (j + 1)));
          try lia; done.
  - rewrite Z.sub_0_r in Hinv. exists c'. split; [done |]. exact Hinv.
Qed.

(** Closes a case of a single-value appender: the push, then the three
    facts about the column it leaves. *)
Ltac push_done tac :=
  match goal with
  | |- context [push_back_and_mark ?v ?jj ?b ?col] =>
      let col' := fresh "col'" in
      let Hpush := fresh "Hpush" in
      let Hvals := fresh "Hvals" in
      let Hsz' := fresh "Hsz'" in
      let Hbits := fresh "Hbits" in
      destruct (push_back_and_mark_spec v jj b col)
        as (col' & Hpush & Hvals & Hsz' & Hbits); [done | done |];
      rewrite Hpush; simpl;
      eexists; eexists; (split; [reflexivity |]); simpl;
      rewrite Hvals, fmap_app; simpl;
      (split; [reflexivity |]);
      (split; [tac | split; [exact Hsz' | exact Hbits]])
  end.

Lemma ExprValueToHS2TColumn_step `{Host} (t : TScalarType)
  (value : option RawValue) (j : Z) (column : TColumn.t) :
  supported t → 0 ≤ j ≤ INT_MAX - 7 →
  size (family_nulls (ts_type t) column) = ceil_div8 j →
  (∀ p, value = Some p → is_Some (wire_cell t p)) →
  ∃ column' cell,
    ExprValueToHS2TColumn value (one_scalar t) j column = Some column' ∧
    family_values (ts_type t) column'
    = family_values (ts_type t) column ++ [cell] ∧
    match value with
    | None => cell = placeholder (ts_type t)
    | Some p => wire_cell t p = Some cell
    end ∧
    size (family_nulls (ts_type t) column') = ceil_div8 (j + 1) ∧
    ∀ i, 0 ≤ i →
         bit_of (family_nulls (ts_type t) column') i
         = bit_of (family_nulls (ts_type t) column) i
           || (bool_decide (value = None) && (i =? j)).
Proof.
  intros [Hvalid Hdec] Hj Hsz Hread.
  unfold ExprValueToHS2TColumn. simpl.
  destruct (ts_type t) eqn:Htag; [done | ..]; simpl in Hsz.
  1-6, 8: push_done ltac:(destruct value; unfold wire_cell; by rewrite ?Htag).
  - push_done ltac:(destruct value; unfold wire_cell; rewrite ?Htag; simpl;
                    by rewrite ?float_to_double_zero).
  - push_done ltac:(destruct value; unfold wire_cell; by rewrite ?Htag).
  - destruct value as [p|]; simpl.
    + destruct (Hread p eq_refl) as [c Hc]. unfold wire_cell in Hc.
      rewrite Htag in Hc. apply fmap_Some in Hc as (str & Hstr & _).
      rewrite Hstr. simpl.
      push_done ltac:(unfold wire_cell; by rewrite Htag, Hstr).
    + push_done ltac:(done).
  - destruct value as [p|]; simpl.
    + destruct (Hread p eq_refl) as [c Hc]. unfold wire_cell in Hc.
      rewrite Htag in Hc. apply fmap_Some in Hc as (str & Hstr & _).
      rewrite Hstr. simpl.
      push_done ltac:(unfold wire_cell; by rewrite Htag, Hstr).
    + push_done ltac:(done).
  - destruct value as [p|]; simpl.
    + destruct (Hread p eq_refl) as [c Hc]. unfold wire_cell in Hc.
      rewrite Htag in Hc. apply fmap_Some in Hc as (str & Hstr & _).
      simpl in *. rewrite Hstr. simpl.
      push_done ltac:(unfold wire_cell; rewrite Htag; simpl; by rewrite Hstr).
    + push_done ltac:(done).
  - destruct value as [p|]; simpl; [| push_done ltac:(done)].
    destruct (Hdec eq_refl) as [Hw|[Hw|Hw]];
      unfold decimal_text; rewrite Hw; simpl;
      push_done ltac:(unfold wire_cell, decimal_text; by rewrite Htag, Hw).
Qed.

Lemma extended_from_of_stream `{Host} (t : TScalarType)
  (rows : list (option RawValue)) (s k r : Z) (cell : Z → Cell)
  (flag : Z → bool) (vals0 vals : list Cell) (nulls0 nulls : list Z) :
  0 ≤ k → holds_rows r vals0 nulls0 →
  vals = vals0 ++ (cell <$> seqZ 0 k) →
  size nulls = ceil_div8 (r + k) →
  (∀ i, 0 ≤ i →
        bit_of nulls i
        = bit_of nulls0 i || ((r <=? i) && (i <? r + k) && flag (i - r))) →
  (∀ j, 0 ≤ j < k →
        ∃ value, rows !! Z.to_nat (s + j) = Some value ∧
                 match value with
                 | None => cell j = placeholder (ts_type t)
                 | Some p => wire_cell t p = Some (cell j)
                 end ∧
                 flag j = bool_decide (value = None)) →
  extended_from t rows s k r vals0 nulls0 vals nulls.
Proof.
  intros Hk (Hsz0 & Hnul0 & Hclear) -> Hnul Hbits Hcells.
  assert (0 ≤ r) as Hr by (unfold size in *; lia).
  split; [| split].
  - split; [| split; [done |]].
    + unfold size in *. rewrite length_app, length_fmap, length_seqZ. lia.
    + intros j Hj. rewrite Hbits, Hclear by lia.
      destruct (Z.ltb_spec j (r + k)); [lia |]. by rewrite andb_false_r.
  - intros i Hi. split.
    + apply lookup_app_l. unfold size in *. lia.
    + rewrite Hbits by lia. destruct (Z.leb_spec r i); [lia |].
      by rewrite orb_false_r.
  - intros j Hj. destruct (Hcells j Hj) as (value & Hvalue & Hcell & Hflag).
    exists value, (cell j). split; [done |]. split; [| split; [done |]].
    + rewrite lookup_app_r by (unfold size in *; lia).
      rewrite list_lookup_fmap.
      replace (Z.to_nat (r + j) - length vals0)%nat with (Z.to_nat j)
        by (unfold size in *; lia).
      rewrite lookup_seqZ_lt by lia. simpl. do 2 f_equal. lia.
    + rewrite Hbits, Hclear by lia.
      destruct (Z.leb_spec r (r + j)); [| lia].
      destruct (Z.ltb_spec (r + j) (r + k)); [| lia]. simpl.
      rewrite <- Hflag. f_equal. lia.
Qed.

Lemma extended_from_unique `{Host} (t : TScalarType)
  (rows : list (option RawValue)) (s k r : Z)
  (vals0 vals1 vals2 : list Cell) (nulls0 nulls1 nulls2 : list Z) :
  0 ≤ r → 0 ≤ k →
  extended_from t rows s k r vals0 nulls0 vals1 nulls1 →
  extended_from t rows s k r vals0 nulls0 vals2 nulls2 →
  vals1 = vals2 ∧ size nulls1 = size nulls2 ∧
  ∀ i, 0 ≤ i → bit_of nulls1 i = bit_of nulls2 i.
Proof.
  intros Hr Hk ((Hsz1 & Hn1 & Hc1) & Hold1 & Hnew1)
    ((Hsz2 & Hn2 & Hc2) & Hold2 & Hnew2).
  split; [| split; [lia |]].
  - apply list_eq. intros n.
    destruct (decide (Z.of_nat n < r)) as [Hlt|Hge].
    + destruct (Hold1 (Z.of_nat n)) as [E1 _]; [lia |].
      destruct (Hold2 (Z.of_nat n)) as [E2 _]; [lia |].
      rewrite Nat2Z.id in E1, E2. by rewrite E1, E2.
    + destruct (decide (Z.of_nat n < r + k)) as [Hlt'|Hge'].
      * destruct (Hnew1 (Z.of_nat n - r)) as (v1 & c1 & Hv1 & Hl1 & Hm1 & _);
          [lia |].
        destruct (Hnew2 (Z.of_nat n - r)) as (v2 & c2 & Hv2 & Hl2 & Hm2 & _);
          [lia |].
        replace (Z.to_nat (r + (Z.of_nat n - r))) with n in * by lia.
        rewrite Hl1, Hl2. f_equal.
        rewrite Hv1 in Hv2. injection Hv2 as <-.
        destruct v1 as [p|]; [| by rewrite Hm1, Hm2].
        rewrite Hm1 in Hm2. by injection Hm2.
      * rewrite !lookup_ge_None_2; [done | |]; unfold size in *; lia.
  - intros i Hi. destruct (decide (i < r)) as [Hlt|Hge].
    + destruct (Hold1 i) as [_ ->]; [lia |].
      destruct (Hold2 i) as [_ ->]; [lia |]. done.
    + destruct (decide (i < r + k)) as [Hlt'|Hge'].
      * destruct (Hnew1 (i - r)) as (v1 & c1 & Hv1 & _ & _ & Hb1); [lia |].
        destruct (Hnew2 (i - r)) as (v2 & c2 & Hv2 & _ & _ & Hb2); [lia |].
        replace (r + (i - r)) with i in * by lia.
        rewrite Hb1, Hb2. rewrite Hv1 in Hv2. by injection Hv2 as <-.
      * rewrite Hc1, Hc2 by lia. done.
Qed.

Lemma append_expr_extends `{Host} (t : TScalarType)
  (rows : list (option RawValue)) (column : TColumn.t) (s r k : Z) :
  supported t →
  0 ≤ s → 0 ≤ k → r + k ≤ INT_MAX - 6 → s + k ≤ size rows →
  holds_rows r (family_values (ts_type t) column)
    (family_nulls (ts_type t) column) →
  (∀ i p, s ≤ i < s + k → rows !! Z.to_nat i = Some (Some p) →
          is_Some (wire_cell t p)) →
  ∃ column',
    append_expr_one_at_a_time rows (one_scalar t) s r k column
    = Some column' ∧
    extended_from t rows s k r
      (family_values (ts_type t) column) (family_nulls (ts_type t) column)
      (family_values (ts_type t) column') (family_nulls (ts_type t) column').
Proof.
  intros Hsup Hs Hk Hrk Hrows Hholds Hread.
  pose proof Hholds as (Hsz0 & Hnul0 & _).
  assert (0 ≤ r) as Hr by (unfold size in *; lia).
  unfold append_expr_one_at_a_time.
  destruct (stream_append
              (family_values (ts_type t)) (family_nulls (ts_type t))
              (λ i column,
                 value ← vector_at rows (s + i);
                 ExprValueToHS2TColumn value (one_scalar t) (r + i) column)
              (λ j, match rows !! Z.to_nat (s + j) with
                    | Some (Some p) =>
                        default (placeholder (ts_type t)) (wire_cell t p)
                    | _ => placeholder (ts_type t)
                    end)
              (λ j, null_at rows (s + j))
              r k column) as (column' & Hrun & Hvals & Hnul & Hbits);
    try done.
  - intros j c Hj Hsz.
    rewrite vector_at_lookup by lia.
    destruct (lookup_lt_is_Some_2 rows (Z.to_nat (s + j))) as [value Hvalue];
      [unfold size in *; lia |].
    rewrite Hvalue. simpl.
    destruct (ExprValueToHS2TColumn_step t value (r + j) c)
      as (c' & cell & Hstep & Hfv & Hcell & Hfn & Hb); try done.
    { lia. }
    { intros p ->. apply (Hread (s + j)); [lia | done]. }
    exists c'. split; [done |]. split; [| split].
    + rewrite Hfv. do 2 f_equal. destruct value as [p|]; [| done].
      by rewrite Hcell.
    + rewrite Hfn. f_equal; lia.
    + intros i Hi. rewrite Hb by done. do 2 f_equal.
      unfold null_at. rewrite Hvalue. by destruct value.
  - exists column'. split; [done |].
    eapply (extended_from_of_stream _ _ _ _ _ _ (λ j, null_at rows (s + j)));
      try done.
    intros j Hj.
    destruct (lookup_lt_is_Some_2 rows (Z.to_nat (s + j))) as [value Hvalue];
      [unfold size in *; lia |].
    exists value. split; [done |]. simpl. rewrite Hvalue. split.
    + destruct value as [p|]; [| done].
      destruct (Hread (s + j) p) as [c Hc]; [lia | done |]. by rewrite Hc.
    + unfold null_at. rewrite Hvalue. by destruct value.
Qed.

(** X3. Single-value append accumulates.  On a column whose array and bitmap
    for the family hold exactly [r] rows, appending batch rows [[s, s+k)] one
    at a time with [ExprValueToHS2TColumn] at rows [r, r+1, ...] succeeds,
    keeps what the first [r] rows read as, and leaves exactly [r + k] rows,
    the new ones carrying the wire form and nullness of the batch rows. *)
Theorem single_append_accumulates `{Host} (t : TScalarType)
  (rows : list (option RawValue)) (column : TColumn.t) (s r k : Z) :
  supported t →
  0 ≤ s → 0 ≤ k → r + k ≤ INT_MAX - 7 → s + k ≤ size rows →
  holds_rows r (family_values (ts_type t) column)
    (family_nulls (ts_type t) column) →
  (∀ i p, s ≤ i < s + k → rows !! Z.to_nat i = Some (Some p) →
          is_Some (wire_cell t p)) →
  ∃ column',
    append_expr_one_at_a_time rows (one_scalar t) s r k column
    = Some column' ∧
    accumulated t rows s k r column column'.
Proof.
  intros Hsup Hs Hk Hrk Hrows Hholds Hread.
  destruct (append_expr_extends t rows column s r k)
    as (column' & Hrun & Hext); try done; [lia |].
  exists column'. split; [exact Hrun |].
  by apply accumulated_of_extended.
Qed.

Lemma single_append_accumulates_witness :
  let t := {| ts_type := STRING; ts_len := 0; ts_precision := 0;
              ts_scale := 0 |} in
  let rows := [None; Some (Demo.text_slot "ab"); None] in
  ∃ c,
    append_expr_one_at_a_time (H := Demo.host) rows (one_scalar t) 0 0 3
      TColumn.empty = Some c ∧
    values (TColumn.stringVal c) = [""; "ab"; ""] ∧
    nulls (TColumn.stringVal c) = [5] ∧
    accumulated (H := Demo.host) t rows 0 3 0 TColumn.empty c.
Proof.
  intros t rows.
  assert (supported (H := Demo.host) t) as Hsup
    by (split; [discriminate | discriminate]).
  assert (∀ i p, 0 ≤ i < 0 + 3 → rows !! Z.to_nat i = Some (Some p) →
                 is_Some (wire_cell (H := Demo.host) t p)) as Hread.
  { intros i p Hi Hp. unfold wire_cell. simpl.
    rewrite string_assign_take by (simpl; lia). eauto. }
  assert (holds_rows 0 (family_values (ts_type t) TColumn.empty)
            (family_nulls (ts_type t) TColumn.empty)) as Hempty
    by (split; [done |]; split; [done |]; intros; apply bit_of_nil).
  destruct (single_append_accumulates (H := Demo.host) t rows TColumn.empty
              0 0 3 Hsup ltac:(lia) ltac:(lia)
              ltac:(vm_compute; discriminate) ltac:(vm_compute; discriminate)
              Hempty Hread) as (c & Hrun & Hacc).
  exists c. split; [exact Hrun |].
  assert (c = TColumn.set_stringVal
                {| values := [""; "ab"; ""]; nulls := [5] |} TColumn.empty)
    as Hc by (vm_compute in Hrun; injection Hrun as <-; reflexivity).
  split; [by rewrite Hc |]. split; [by rewrite Hc |]. exact Hacc.
Defined.

(** X4. The bulk and the single-value appender of batch rows agree.  From
    the same column of [r] rows and the same batch rows, both succeed and
    leave the same value array for the family, bitmaps of the same length
    with the same bits, and the same [GetNullBit] at every row. *)
Theorem bulk_and_single_agree `{Host} (t : TScalarType)
  (rows : list (option RawValue)) (column : TColumn.t) (s r k : Z) :
  supported t →
  0 ≤ s → 0 ≤ k → r + k ≤ INT_MAX - 7 →
  s + k ≤ size rows → size rows ≤ INT_MAX →
  holds_rows r (family_values (ts_type t) column)
    (family_nulls (ts_type t) column) →
  (∀ i p, s ≤ i < s + k → rows !! Z.to_nat i = Some (Some p) →
          is_Some (wire_cell t p)) →
  ∃ c1 c2,
    ExprValuesToHS2TColumn rows (one_scalar t) s r k column = Some c1 ∧
    append_expr_one_at_a_time rows (one_scalar t) s r k column = Some c2 ∧
    family_values (ts_type t) c1 = family_values (ts_type t) c2 ∧
    size (family_nulls (ts_type t) c1) = size (family_nulls (ts_type t) c2) ∧
    (∀ i, 0 ≤ i →
          bit_of (family_nulls (ts_type t) c1) i
          = bit_of (family_nulls (ts_type t) c2) i) ∧
    (∀ i, 0 ≤ i < r + k →
          GetNullBit (family_nulls (ts_type t) c1) i
          = GetNullBit (family_nulls (ts_type t) c2) i).
Proof.
  intros Hsup Hs Hk Hrk Hrows Hmax Hholds Hread.
  pose proof Hholds as (Hsz0 & _).
  assert (0 ≤ r) as Hr by (unfold size in *; lia).
  destruct (ExprValuesToHS2TColumn_extends t rows column s r k)
    as (c1 & Hrun1 & Hext1); try done.
  destruct (append_expr_extends t rows column s r k)
    as (c2 & Hrun2 & Hext2); try done; [lia |].
  exists c1, c2. split; [done |]. split; [done |].
  destruct (extended_from_unique t rows s k r _ _ _ _ _ _ Hr Hk Hext1 Hext2)
    as (Hvals & Hsz & Hbits).
  split; [done |]. split; [done |]. split; [done |].
  intros i Hi. destruct Hext1 as ((_ & Hn1 & _) & _).
  rewrite !GetNullBit_spec by (try lia; rewrite <- ?Hsz, Hn1; zdiv).
  by rewrite Hbits by lia.
Qed.

Lemma bulk_and_single_agree_witness :
  let t := {| ts_type := INT; ts_len := 0; ts_precision := 0; ts_scale := 0 |} in
  let rows := [Some (Demo.int_slot 7); None; Some (Demo.int_slot 9)] in
  ∃ c1 c2,
    ExprValuesToHS2TColumn (H := Demo.host) rows (one_scalar t) 0 0 3
      TColumn.empty = Some c1 ∧
    append_expr_one_at_a_time (H := Demo.host) rows (one_scalar t) 0 0 3
      TColumn.empty = Some c2 ∧
    family_values INT c1 = family_values INT c2 ∧
    values (TColumn.i32Val c2) = [7; 0; 9].
Proof.
  intros t rows.
  assert (supported (H := Demo.host) t) as Hsup
    by (split; [discriminate | discriminate]).
  assert (∀ i p, 0 ≤ i < 0 + 3 → rows !! Z.to_nat i = Some (Some p) →
                 is_Some (wire_cell (H := Demo.host) t p)) as Hread
    by (intros i p _ _; vm_compute; eauto).
  assert (holds_rows 0 (family_values (ts_type t) TColumn.empty)
            (family_nulls (ts_type t) TColumn.empty)) as Hempty
    by (split; [done |]; split; [done |]; intros; apply bit_of_nil).
  destruct (bulk_and_single_agree (H := Demo.host) t rows TColumn.empty
              0 0 3 Hsup ltac:(lia) ltac:(lia)
              ltac:(vm_compute; discriminate) ltac:(vm_compute; discriminate)
              ltac:(vm_compute; discriminate) Hempty Hread)
    as (c1 & c2 & Hrun1 & Hrun2 & Hvals & _).
  exists c1, c2. split; [exact Hrun1 |]. split; [exact Hrun2 |].
  split; [exact Hvals |].
  vm_compute in Hrun2. injection Hrun2 as <-. reflexivity.
Defined.

(** ** Pre-decoded values *)

Lemma TColumnValueToHS2TColumn_step `{Host} (t : TScalarType) (x : Variant)
  (col_val : TColumnValue) (j : Z) (column : TColumn.t) :
  columnar_variant (ts_type t) = Some x → 0 ≤ j ≤ INT_MAX - 7 →
  size (family_nulls (ts_type t) column) = ceil_div8 j →
  ∃ column',
    TColumnValueToHS2TColumn col_val (one_scalar t) j column = Some column' ∧
    family_values (ts_type t) column'
    = family_values (ts_type t) column ++ [source_payload col_val x] ∧
    size (family_nulls (ts_type t) column') = ceil_div8 (j + 1) ∧
    ∀ i, 0 ≤ i →
         bit_of (family_nulls (ts_type t) column') i
         = bit_of (family_nulls (ts_type t) column) i
           || (negb (source_present col_val x) && (i =? j)).
Proof.
  intros Hx Hj Hsz. unfold TColumnValueToHS2TColumn. simpl.
  destruct (ts_type t) eqn:Htag; simplify_eq/=;
    match goal with
    | |- context [push_back_and_mark ?v ?jj ?b ?col] =>
        destruct (push_back_and_mark_spec v jj b col)
          as (col' & Hpush & Hvals & Hsz' & Hbits); [done | done |];
        rewrite Hpush; simpl
    end;
    eexists; (split; [reflexivity |]); simpl;
    rewrite Hvals, fmap_app; done.
Qed.

(** X5. Appending pre-decoded values one at a time.  On a column whose array
    and bitmap for the family hold exactly [r] rows, appending
    [col_vals[s .. s+k)] with [TColumnValueToHS2TColumn] at rows
    [r, r+1, ...] succeeds; the old rows read as before, each new row
    carries the field of the family's variant, its null bit is set exactly
    when that field is not set, and the column holds exactly [r + k] rows. *)
Theorem decoded_append_accumulates `{Host} (t : TScalarType) (x : Variant)
  (col_vals : list TColumnValue) (column : TColumn.t) (s r k : Z) :
  columnar_variant (ts_type t) = Some x →
  0 ≤ s → 0 ≤ k → r + k ≤ INT_MAX - 7 → s + k ≤ size col_vals →
  holds_rows r (family_values (ts_type t) column)
    (family_nulls (ts_type t) column) →
  ∃ column',
    append_one_at_a_time col_vals (one_scalar t) s r k column = Some column' ∧
    holds_rows (r + k) (family_values (ts_type t) column')
      (family_nulls (ts_type t) column') ∧
    (∀ i, 0 ≤ i < r →
          family_values (ts_type t) column' !! Z.to_nat i
          = family_values (ts_type t) column !! Z.to_nat i ∧
          GetNullBit (family_nulls (ts_type t) column') i
          = GetNullBit (family_nulls (ts_type t) column) i) ∧
    (∀ j, 0 ≤ j < k →
          ∃ col_val,
            col_vals !! Z.to_nat (s + j) = Some col_val ∧
            family_values (ts_type t) column' !! Z.to_nat (r + j)
            = Some (source_payload col_val x) ∧
            GetNullBit (family_nulls (ts_type t) column') (r + j)
            = Some (negb (source_present col_val x))).
Proof.
  intros Hx Hs Hk Hrk Hsrc (Hsz0 & Hnul0 & Hclear).
  assert (0 ≤ r) as Hr by (unfold size in *; lia).
  unfold append_one_at_a_time.
  destruct (stream_append
              (family_values (ts_type t)) (family_nulls (ts_type t))
              (λ i column,
                 col_val ← vector_at col_vals (s + i);
                 TColumnValueToHS2TColumn col_val (one_scalar t) (r + i) column)
              (λ j, match col_vals !! Z.to_nat (s + j) with
                    | Some col_val => source_payload col_val x
                    | None => CBool false
                    end)
              (flag_at (λ col_val, negb (source_present col_val x)) col_vals
                 ∘ Z.add s)
              r k column) as (column' & Hrun & Hvals & Hnul & Hbits);
    try done.
  - intros j c Hj Hsz. rewrite vector_at_lookup by lia.
    destruct (lookup_lt_is_Some_2 col_vals (Z.to_nat (s + j)))
      as [col_val Hcv]; [unfold size in *; lia |].
    rewrite Hcv. simpl.
    destruct (TColumnValueToHS2TColumn_step t x col_val (r + j) c)
      as (c' & Hstep & Hfv & Hfn & Hb); try done; [lia |].
    exists c'. split; [done |]. split; [done |].
    split; [rewrite Hfn; f_equal; lia |].
    intros i Hi. rewrite Hb by done. do 2 f_equal.
    unfold flag_at. by rewrite Hcv.
  - assert (size (family_values (ts_type t) column') = r + k) as Hsz.
    { rewrite Hvals. unfold size in *.
      rewrite length_app, length_fmap, length_seqZ. lia. }
    exists column'. split; [done |]. split; [| split].
    + split; [done |]. split; [done |].
      intros j Hj. rewrite Hbits, Hclear by lia.
      destruct (Z.ltb_spec j (r + k)); [lia |]. by rewrite andb_false_r.
    + intros i Hi. split.
      * rewrite Hvals. apply lookup_app_l. unfold size in *. lia.
      * rewrite !GetNullBit_spec by (try lia; rewrite ?Hnul, ?Hnul0; zdiv).
        rewrite Hbits by lia. destruct (Z.leb_spec r i); [lia |].
        by rewrite orb_false_r.
    + intros j Hj.
      destruct (lookup_lt_is_Some_2 col_vals (Z.to_nat (s + j)))
        as [col_val Hcv]; [unfold size in *; lia |].
      exists col_val. split; [done |]. split.
      * rewrite Hvals, lookup_app_r by (unfold size in *; lia).
        rewrite list_lookup_fmap.
        replace (Z.to_nat (r + j) - length (family_values (ts_type t) column))%nat
          with (Z.to_nat j) by (unfold size in *; lia).
        rewrite lookup_seqZ_lt by lia. simpl.
        replace (0 + Z.of_nat (Z.to_nat j)) with j by lia. by rewrite Hcv.
      * rewrite GetNullBit_spec by (try lia; rewrite Hnul; zdiv).
        rewrite Hbits, Hclear by lia.
        destruct (Z.leb_spec r (r + j)); [| lia].
        destruct (Z.ltb_spec (r + j) (r + k)); [| lia]. simpl.
        unfold flag_at. replace (s + (r + j - r)) with (s + j) by lia.
        by rewrite Hcv.
Qed.

Lemma decoded_append_accumulates_witness :
  let t := {| ts_type := BIGINT; ts_len := 0; ts_precision := 0;
              ts_scale := 0 |} in
  let present :=
    {| bool_val := false; byte_val := 0; short_val := 0; int_val := 0;
       long_val := 42; double_val := 0%float; string_val := "";
       isset_bool_val := false; isset_byte_val := false;
       isset_short_val := false; isset_int_val := false;
       isset_long_val := true; isset_double_val := false;
       isset_string_val := false |} in
  ∃ c,
    append_one_at_a_time (H := Demo.host) [Demo.unset; present]
      (one_scalar t) 0 0 2 TColumn.empty = Some c ∧
    values (TColumn.i64Val c) = [0; 42] ∧
    GetNullBit (H := Demo.host) (nulls (TColumn.i64Val c)) 0 = Some true ∧
    GetNullBit (H := Demo.host) (nulls (TColumn.i64Val c)) 1 = Some false.
Proof.
  intros t present.
  assert (holds_rows 0 (family_values (ts_type t) TColumn.empty)
            (family_nulls (ts_type t) TColumn.empty)) as Hempty
    by (split; [done |]; split; [done |]; intros; apply bit_of_nil).
  destruct (decoded_append_accumulates (H := Demo.host) t VI64
              [Demo.unset; present] TColumn.empty 0 0 2 eq_refl
              ltac:(lia) ltac:(lia) ltac:(vm_compute; discriminate)
              ltac:(vm_compute; discriminate) Hempty)
    as (c & Hrun & _ & _ & Hnew).
  exists c. split; [exact Hrun |].
  destruct (Hnew 0) as (cv0 & Hcv0 & _ & Hb0); [lia |].
  destruct (Hnew 1) as (cv1 & Hcv1 & _ & Hb1); [lia |].
  injection Hcv0 as <-. injection Hcv1 as <-.
  split; [| split; [exact Hb0 | exact Hb1]].
  vm_compute in Hrun. injection Hrun as <-. reflexivity.
Defined.

Lemma copy_case `{Host} {A : Type} (inj : A → Cell) (x : Variant)
  (field : TColumnValue → A) (isset : TColumnValue → bool) (dflt : A)
  (col_vals : list TColumnValue) (result0 : list A) (nulls0 : list Z)
  (s r k : Z) :
  0 ≤ s → 0 ≤ k → r + k ≤ INT_MAX - 7 →
  s + k ≤ size col_vals → size col_vals ≤ INT_MAX →
  holds_rows r (inj <$> result0) nulls0 →
  (∀ col_val, inj (field col_val) = source_payload col_val x) →
  (∀ col_val, isset col_val = source_present col_val x) →
  ∃ result nulls,
    copy_range field isset dflt col_vals s r k result0 nulls0
    = Some (result, nulls) ∧
    bulk_copied x col_vals s k r (inj <$> result0) nulls0
      (inj <$> result) nulls.
Proof.
  intros Hs Hk Hrk Hsrc Hmax (Hsz0 & Hnul0 & Hclear) Hfield Hisset.
  rewrite size_fmap in Hsz0.
  assert (0 ≤ r) as Hr by (unfold size in *; lia).
  destruct (range_fill_append
              (λ value res idx, vector_set res idx (field value))
              isset dflt field col_vals result0 nulls0 s r k)
    as (result & nulls & Hrun & Hres & Hnul & Hold & Hnew & Hbits); try done.
  { intros. by apply vector_set_insert. }
  exists result, nulls. split; [exact Hrun |]. split; [| split].
  - split; [by rewrite size_fmap |]. split; [done |].
    intros j Hj. rewrite Hbits, Hclear by lia.
    destruct (Z.ltb_spec j (r + k)); [lia |]. by rewrite andb_false_r.
  - intros i Hi. split; [by rewrite !list_lookup_fmap, Hold |].
    rewrite !GetNullBit_spec by (try lia; rewrite ?Hnul, ?Hnul0; zdiv).
    rewrite Hbits by lia. destruct (Z.leb_spec r i); [lia |].
    by rewrite orb_false_r.
  - intros j Hj. destruct (Hnew j Hj) as (col_val & Hcv & Hr').
    exists col_val. split; [done |]. split.
    + by rewrite list_lookup_fmap, Hr', <- Hfield.
    + rewrite GetNullBit_spec by (try lia; rewrite Hnul; zdiv).
      rewrite Hbits, Hclear by lia.
      replace (s + (r + j - r)) with (s + j) by lia.
      rewrite (flag_at_lookup _ _ _ _ Hcv), Hisset.
      destruct (Z.leb_spec r (r + j)); [| lia].
      destruct (Z.ltb_spec (r + j) (r + k)); [done | lia].
Qed.

(** X6. What the bulk copy of pre-decoded values does for a fixed-width
    family.  On a column whose array and bitmap for the family hold exactly
    [r] rows, [TColumnValuesToHS2TColumn] succeeds, keeps what the old rows
    read as and appends the fields of [col_vals[s .. s+k)]; the bit of each
    new row is the field's [__isset] flag, so it is set for a row whose value
    is present and clear for a row whose value is absent. *)
Theorem bulk_copy_fixed_width `{Host} (t : TScalarType) (x : Variant)
  (col_vals : list TColumnValue) (column : TColumn.t) (s r k : Z) :
  columnar_variant (ts_type t) = Some x → x ≠ VText →
  0 ≤ s → 0 ≤ k → r + k ≤ INT_MAX - 7 →
  s + k ≤ size col_vals → size col_vals ≤ INT_MAX →
  holds_rows r (family_values (ts_type t) column)
    (family_nulls (ts_type t) column) →
  ∃ column',
    TColumnValuesToHS2TColumn col_vals (one_scalar t) s r k column
    = Some column' ∧
    bulk_copied x col_vals s k r
      (family_values (ts_type t) column) (family_nulls (ts_type t) column)
      (family_values (ts_type t) column') (family_nulls (ts_type t) column').
Proof.
  intros Hx Htext Hs Hk Hrk Hsrc Hmax Hholds.
  unfold TColumnValuesToHS2TColumn. simpl.
  destruct (ts_type t) eqn:Htag; simplify_eq/=;
    unfold family_values, family_nulls in Hholds.
  - store_column (copy_case CBool VBool bool_val isset_bool_val false
                    col_vals _ _ s r k Hs Hk Hrk Hsrc Hmax Hholds
                    ltac:(done) ltac:(done)).
  - store_column (copy_case CBool VBool bool_val isset_bool_val false
                    col_vals _ _ s r k Hs Hk Hrk Hsrc Hmax Hholds
                    ltac:(done) ltac:(done)).
  - store_column (copy_case CInt VByte byte_val isset_byte_val 0
                    col_vals _ _ s r k Hs Hk Hrk Hsrc Hmax Hholds
                    ltac:(done) ltac:(done)).
  - store_column (copy_case CInt VI16 short_val isset_short_val 0
                    col_vals _ _ s r k Hs Hk Hrk Hsrc Hmax Hholds
                    ltac:(done) ltac:(done)).
  - store_column (copy_case CInt VI32 int_val isset_int_val 0
                    col_vals _ _ s r k Hs Hk Hrk Hsrc Hmax Hholds
                    ltac:(done) ltac:(done)).
  - store_column (copy_case CInt VI64 long_val isset_long_val 0
                    col_vals _ _ s r k Hs Hk Hrk Hsrc Hmax Hholds
                    ltac:(done) ltac:(done)).
  - store_column (copy_case CDouble VDouble double_val isset_double_val
                    0%float col_vals _ _ s r k Hs Hk Hrk Hsrc Hmax Hholds
                    ltac:(done) ltac:(done)).
  - store_column (copy_case CDouble VDouble double_val isset_double_val
                    0%float col_vals _ _ s r k Hs Hk Hrk Hsrc Hmax Hholds
                    ltac:(done) ltac:(done)).
Qed.

Lemma bulk_copy_fixed_width_witness :
  let t := {| ts_type := BIGINT; ts_len := 0; ts_precision := 0;
              ts_scale := 0 |} in
  let present :=
    {| bool_val := false; byte_val := 0; short_val := 0; int_val := 0;
       long_val := 42; double_val := 0%float; string_val := "";
       isset_bool_val := false; isset_byte_val := false;
       isset_short_val := false; isset_int_val := false;
       isset_long_val := true; isset_double_val := false;
       isset_string_val := false |} in
  ∃ c,
    TColumnValuesToHS2TColumn (H := Demo.host) [Demo.unset; present]
      (one_scalar t) 0 0 2 TColumn.empty = Some c ∧
    values (TColumn.i64Val c) = [0; 42] ∧
    GetNullBit (H := Demo.host) (nulls (TColumn.i64Val c)) 0 = Some false ∧
    GetNullBit (H := Demo.host) (nulls (TColumn.i64Val c)) 1 = Some true.
Proof.
  intros t present.
  assert (holds_rows 0 (family_values (ts_type t) TColumn.empty)
            (family_nulls (ts_type t) TColumn.empty)) as Hempty
    by (split; [done |]; split; [done |]; intros; apply bit_of_nil).
  destruct (bulk_copy_fixed_width (H := Demo.host) t VI64
              [Demo.unset; present] TColumn.empty 0 0 2 eq_refl
              ltac:(discriminate) ltac:(lia) ltac:(lia)
              ltac:(vm_compute; discriminate) ltac:(vm_compute; discriminate)
              ltac:(vm_compute; discriminate) Hempty)
    as (c & Hrun & _ & _ & Hnew).
  exists c. split; [exact Hrun |].
  destruct (Hnew 0) as (cv0 & Hcv0 & _ & Hb0); [lia |].
  destruct (Hnew 1) as (cv1 & Hcv1 & _ & Hb1); [lia |].
  injection Hcv0 as <-. injection Hcv1 as <-.
  split; [| split; [exact Hb0 | exact Hb1]].
  vm_compute in Hrun. injection Hrun as <-. reflexivity.
Defined.

(** X7. What the bulk copy of pre-decoded values does for a text family
    (timestamp, string, char, varchar, decimal).  With [r] entries in
    [stringVal.values] and [ceil(r/8)] bytes in [i64Val.nulls] the call
    succeeds; each new entry of [stringVal.values] is the one character
    [long_val] narrows to, [stringVal.nulls] and every other sub-column's
    values are left as they were, and the bits are or-ed into [i64Val.nulls]
    from [__isset.long_val].  [string_val] is not read. *)
Theorem bulk_copy_text_branch `{Host} (t : TScalarType)
  (col_vals : list TColumnValue) (column : TColumn.t) (s r k : Z) :
  columnar_variant (ts_type t) = Some VText →
  0 ≤ s → 0 ≤ k → 0 ≤ r → r + k ≤ INT_MAX - 7 →
  s + k ≤ size col_vals → size col_vals ≤ INT_MAX →
  size (values (TColumn.stringVal column)) = r →
  size (nulls (TColumn.i64Val column)) = ceil_div8 r →
  ∃ column',
    TColumnValuesToHS2TColumn col_vals (one_scalar t) s r k column
    = Some column' ∧
    nulls (TColumn.stringVal column') = nulls (TColumn.stringVal column) ∧
    values (TColumn.i64Val column') = values (TColumn.i64Val column) ∧
    TColumn.boolVal column' = TColumn.boolVal column ∧
    TColumn.byteVal column' = TColumn.byteVal column ∧
    TColumn.i16Val column' = TColumn.i16Val column ∧
    TColumn.i32Val column' = TColumn.i32Val column ∧
    TColumn.doubleVal column' = TColumn.doubleVal column ∧
    size (values (TColumn.stringVal column')) = r + k ∧
    size (nulls (TColumn.i64Val column')) = ceil_div8 (r + k) ∧
    (∀ i, 0 ≤ i < r →
          values (TColumn.stringVal column') !! Z.to_nat i
          = values (TColumn.stringVal column) !! Z.to_nat i) ∧
    (∀ j, 0 ≤ j < k →
          ∃ col_val,
            col_vals !! Z.to_nat (s + j) = Some col_val ∧
            values (TColumn.stringVal column') !! Z.to_nat (r + j)
            = Some (string_of_char (long_val col_val)) ∧
            bit_of (nulls (TColumn.i64Val column')) (r + j)
            = bit_of (nulls (TColumn.i64Val column)) (r + j)
              || isset_long_val col_val).
Proof.
  intros Hx Hs Hk Hr Hrk Hsrc Hmax Hsz Hnul.
  destruct (range_fill_append
              (λ value res idx,
                 vector_set res idx (string_of_char (long_val value)))
              isset_long_val ""
              (λ value, string_of_char (long_val value))
              col_vals (values (TColumn.stringVal column))
              (nulls (TColumn.i64Val column)) s r k)
    as (result & nulls' & Hrun & Hres & Hnul' & Hold & Hnew & Hbits);
    try done.
  { intros. by apply vector_set_insert. }
  assert (copy_range (λ value, string_of_char (long_val value))
            isset_long_val "" col_vals s r k
            (values (TColumn.stringVal column))
            (nulls (TColumn.i64Val column)) = Some (result, nulls'))
    as Hcopy by exact Hrun.
  unfold TColumnValuesToHS2TColumn. simpl.
  destruct (ts_type t) eqn:Htag; simpl in Hx; try discriminate Hx;
    rewrite Hcopy; simpl; eexists; (split; [reflexivity |]); simpl;
    repeat (split; [done |]);
    intros j Hj; destruct (Hnew j Hj) as (col_val & Hcv & Hr');
    exists col_val; (split; [done |]); (split; [done |]);
    rewrite Hbits by lia;
    replace (s + (r + j - r)) with (s + j) by lia;
    rewrite (flag_at_lookup _ _ _ _ Hcv);
    (destruct (Z.leb_spec r (r + j)); [| lia]);
    (destruct (Z.ltb_spec (r + j) (r + k)); [done | lia]).
Qed.

Lemma bulk_copy_text_branch_witness :
  let t := {| ts_type := STRING; ts_len := 0; ts_precision := 0;
              ts_scale := 0 |} in
  let text :=
    {| bool_val := false; byte_val := 0; short_val := 0; int_val := 0;
       long_val := 65; double_val := 0%float; string_val := "hello";
       isset_bool_val := false; isset_byte_val := false;
       isset_short_val := false; isset_int_val := false;
       isset_long_val := false; isset_double_val := false;
       isset_string_val := true |} in
  ∃ c,
    TColumnValuesToHS2TColumn (H := Demo.host) [text] (one_scalar t) 0 0 1
      TColumn.empty = Some c ∧
    values (TColumn.stringVal c) = ["A"] ∧
    nulls (TColumn.stringVal c) = [] ∧
    nulls (TColumn.i64Val c) = [0].
Proof.
  intros t text.
  destruct (bulk_copy_text_branch (H := Demo.host) t [text] TColumn.empty
              0 0 1 eq_refl ltac:(lia) ltac:(lia) ltac:(lia)
              ltac:(vm_compute; discriminate) ltac:(vm_compute; discriminate)
              ltac:(vm_compute; discriminate) eq_refl eq_refl)
    as (c & Hrun & _).
  exists c. split; [exact Hrun |].
  vm_compute in Hrun. injection Hrun as <-. repeat split.
Defined.

(** ** Stitching at any destination offset *)

Lemma StitchNulls_bits `{Host} (from to : list Z) (before added s : Z) :
  0 ≤ before → 0 ≤ added → before + added ≤ INT_MAX - 7 →
  0 ≤ s → s + added ≤ INT_MAX - 7 → ceil_div8 (s + added) ≤ size from →
  size to = ceil_div8 before →
  ∃ to',
    StitchNulls before added s from to = Some to' ∧
    size to' = ceil_div8 (before + added) ∧
    ∀ i, 0 ≤ i →
         bit_of to' i
         = bit_of to i ||
           ((before <=? i) && (i <? before + added)
            && bit_of from (s + (i - before))).
Proof.
  intros Hb Ha Hba Hs Hsa Hfrom Hto. unfold StitchNulls.
  assert (INT_MAX = 2147483647) as HIM by reflexivity.
  destruct (for_range_inv
              (λ j to', size to' = ceil_div8 (before + j) ∧
                        ∀ i, 0 ≤ i →
                             bit_of to' i
                             = bit_of to i ||
                               ((before <=? i) && (i <? before + j)
                                && bit_of from (s + (i - before))))
              (λ i to, b ← GetNullBit from (u32 (i + s));
                       SetNullBit (u32 (before + i)) b to)
              0 added to) as (to' & Hrun & Hsz & Hbits).
  - done.
  - split; [by rewrite Z.add_0_r |]. intros i Hi.
    destruct (Z.ltb_spec i (before + 0)), (Z.leb_spec before i); try lia;
      by rewrite ?andb_false_r, orb_false_r.
  - intros j to1 Hj [Hsz Hbits]. rewrite !Z.add_0_l.
    rewrite !u32_small by lia.
    rewrite GetNullBit_spec by (try lia; zdiv). simpl.
    destruct (SetNullBit_spec to1 (before + j) (bit_of from (j + s)))
      as (to2 & Hset & Hsz' & Hbits'); [lia | lia |].
    exists to2. split; [done |]. split.
    + rewrite Hsz', Hsz. destruct (Z.eqb_spec ((before + j) mod 8) 0); zdiv.
    + intros i Hi. rewrite Hbits', Hbits by done.
      destruct (Z.eqb_spec i (before + j)) as [->|Hne].
      * replace (s + (before + j - before)) with (j + s) by lia.
        destruct (Z.leb_spec before (before + j)); [| lia].
        destruct (Z.ltb_spec (before + j) (before + j)); [lia |].
        destruct (Z.ltb_spec (before + j) (before + (j + 1))); [| lia].
        by destruct (bit_of to (before + j)), (bit_of from (j + s)).
      * rewrite andb_false_r, orb_false_r.
        destruct (Z.ltb_spec i (before + j)),
          (Z.ltb_spec i (before + (j + 1))); try lia; done.
  - rewrite Z.sub_0_r in *. exists to'. done.
Qed.

(** X8. Stitching appends.  When the destination holds exactly
    [num_rows_before] rows (that many bits in [ceil(num_rows_before / 8)]
    bytes, nothing set beyond), [StitchNulls] succeeds, the destination then
    holds exactly [num_rows_before + num_rows_added] rows, every old row
    reads as before and new row [j] reads as source row [start_idx + j]. *)
Theorem stitch_appends `{Host} (from to : list Z) (before added s : Z) :
  0 ≤ before → 0 ≤ added → before + added ≤ INT_MAX - 7 →
  0 ≤ s → s + added ≤ INT_MAX - 7 → ceil_div8 (s + added) ≤ size from →
  size to = ceil_div8 before →
  (∀ i, before ≤ i → bit_of to i = false) →
  ∃ to',
    StitchNulls before added s from to = Some to' ∧
    size to' = ceil_div8 (before + added) ∧
    (∀ i, before + added ≤ i → bit_of to' i = false) ∧
    (∀ i, 0 ≤ i < before → GetNullBit to' i = GetNullBit to i) ∧
    (∀ j, 0 ≤ j < added →
          ∃ b, GetNullBit to' (before + j) = Some b ∧
               GetNullBit from (s + j) = Some b).
Proof.
  intros Hb Ha Hba Hs Hsa Hfrom Hto Hclear.
  destruct (StitchNulls_bits from to before added s)
    as (to' & Hrun & Hsz & Hbits); try done.
  exists to'. split; [done |]. split; [done |]. split; [| split].
  - intros i Hi. rewrite Hbits, Hclear by lia.
    destruct (Z.ltb_spec i (before + added)); [lia |].
    by rewrite andb_false_r.
  - intros i Hi.
    rewrite !GetNullBit_spec by (try lia; rewrite ?Hsz, ?Hto; zdiv).
    rewrite Hbits by lia. destruct (Z.leb_spec before i); [lia |].
    by rewrite orb_false_r.
  - intros j Hj. exists (bit_of from (s + j)). split.
    + rewrite GetNullBit_spec by (try lia; rewrite Hsz; zdiv).
      rewrite Hbits, Hclear by lia.
      destruct (Z.leb_spec before (before + j)); [| lia].
      destruct (Z.ltb_spec (before + j) (before + added)); [| lia].
      simpl. do 2 f_equal. lia.
    + apply GetNullBit_spec; [lia | zdiv].
Qed.

Lemma stitch_appends_witness :
  ∃ to',
    StitchNulls (H := Demo.host) 3 6 2 [165; 90] [5] = Some to' ∧
    size to' = 2 ∧
    GetNullBit (H := Demo.host) to' 1 = GetNullBit (H := Demo.host) [5] 1 ∧
    GetNullBit (H := Demo.host) to' (3 + 5)
    = GetNullBit (H := Demo.host) [165; 90] (2 + 5).
Proof.
  destruct (stitch_appends (H := Demo.host) [165; 90] [5] 3 6 2)
    as (to' & Hrun & Hsz & _ & Hold & Hnew); try (vm_compute; discriminate).
  - reflexivity.
  - intros i Hi. destruct (decide (i < 8)) as [Hlt|Hge].
    + assert (i = 3 ∨ i = 4 ∨ i = 5 ∨ i = 6 ∨ i = 7) as Hcases by lia.
      destruct Hcases as [->|[->|[->|[->| ->]]]]; reflexivity.
    + apply bit_of_beyond; [lia |]. change (size [5]) with 1. zdiv.
  - exists to'. split; [exact Hrun |]. split; [exact Hsz |].
    split; [apply Hold; lia |].
    destruct (Hnew 5) as (b & Hto & Hfrom); [lia |].
    rewrite Hto, Hfrom. reflexivity.
Defined.

Lemma for_loop_app {St} (body : Z → St → option St) (n1 n2 : nat) (i : Z)
  (st : St) :
  for_loop (n1 + n2) i body st
  = st' ← for_loop n1 i body st; for_loop n2 (i + Z.of_nat n1) body st'.
Proof.
  revert i st. induction n1 as [|n1 IH]; intros i st.
  - simpl. by rewrite Z.add_0_r.
  - simpl. destruct (body i st) as [st1|]; [| done]. simpl.
    rewrite IH. destruct (for_loop n1 (i + 1) body st1); [| done]. simpl.
    f_equal. lia.
Qed.

Lemma for_loop_shift {St} (body body' : Z → St → option St) (n : nat)
  (i d : Z) (st : St) :
  (∀ j st, body' j st = body (j + d) st) →
  for_loop n i body' st = for_loop n (i + d) body st.
Proof.
  intros Hshift. revert i st. induction n as [|n IH]; intros i st; [done |].
  simpl. rewrite Hshift. destruct (body (i + d) st) as [st1|]; [| done].
  simpl. rewrite IH. f_equal. lia.
Qed.

(** X9. Stitching splits.  Stitching [a1 + a2] rows in one call is stitching
    the first [a1] and then the next [a2] at the advanced offsets: the same
    failure or the same bytes. *)
Theorem stitch_splits `{Host} (from to : list Z) (before s a1 a2 : Z) :
  0 ≤ a1 → 0 ≤ a2 →
  StitchNulls before (a1 + a2) s from to
  = to1 ← StitchNulls before a1 s from to;
    StitchNulls (before + a1) a2 (s + a1) from to1.
Proof.
  intros H1 H2. unfold StitchNulls, for_range.
  rewrite !Z.sub_0_r. rewrite Z2Nat.inj_add by lia.
  rewrite for_loop_app. rewrite Z2Nat.id by lia.
  destruct (for_loop (Z.to_nat a1) 0 _ to) as [to1|]; [| done]. simpl.
  symmetry. rewrite (for_loop_shift
                       (λ i to, b ← GetNullBit from (u32 (i + s));
                                SetNullBit (u32 (before + i)) b to)
                       _ _ 0 a1); [done |].
  intros j st. simpl.
  replace (j + (s + a1)) with (j + a1 + s) by lia.
  replace (before + a1 + j) with (before + (j + a1)) by lia. done.
Qed.

Lemma stitch_splits_witness :
  (0 ≤ 3 ∧ 0 ≤ 4) ∧
  StitchNulls (H := Demo.host) 0 (3 + 4) 1 [165] []
  = (to1 ← StitchNulls (H := Demo.host) 0 3 1 [165] [];
     StitchNulls (H := Demo.host) (0 + 3) 4 (1 + 3) [165] to1) ∧
  StitchNulls (H := Demo.host) 0 (3 + 4) 1 [165] [] = Some [82].
Proof.
  assert (0 ≤ 3) as H1 by lia. assert (0 ≤ 4) as H2 by lia.
  split; [exact (conj H1 H2) |].
  split; [exact (stitch_splits (H := Demo.host) [165] [] 0 1 3 4 H1 H2) |].
  reflexivity.
Defined.

(** ** Edges of the bitmap helpers *)

(** X10. Reading or writing one byte past the bitmap.  For a row whose byte
    is the one just after the storage, a build with DCHECKs stops in
    [GetNullBit] and [SetNullBitNoResize]; a build without them reads the
    string terminator, so [GetNullBit] answers "not null" and writing a
    [false] flag changes nothing, while writing a [true] flag has no defined
    result. *)
Theorem one_byte_past_the_end `{Host} (nulls : list Z) (i : Z) :
  0 ≤ i ≤ INT_MAX - 8 → i / 8 = size nulls →
  GetNullBit nulls i = (if NDEBUG then Some false else None) ∧
  SetNullBitNoResize i false nulls = (if NDEBUG then Some nulls else None) ∧
  SetNullBitNoResize i true nulls = None.
Proof.
  intros Hi Hq.
  assert (0 ≤ i mod 8 < 8) as Hr by (apply Z.mod_pos_bound; lia).
  assert (0 ≤ size nulls) as Hsz by (unfold size; lia).
  unfold GetNullBit, SetNullBitNoResize.
  rewrite u32_small by (unfold INT_MAX in *; lia).
  rewrite GetNullsRequiredSize_small by lia.
  rewrite ceil_div8_succ by lia.
  rewrite (s16_small (i mod 8)) by lia.
  unfold DCHECK_LE_size, DCHECK, string_at, string_set. rewrite Hq.
  destruct (Z.leb_spec 0 (size nulls + 1)); [| lia].
  destruct (Z.leb_spec (size nulls + 1) (size nulls)); [lia |].
  destruct (Z.leb_spec 0 (size nulls)); [| lia].
  destruct (Z.ltb_spec (size nulls) (size nulls)); [lia |].
  rewrite Z.eqb_refl. simpl.
  assert (char_or 0 (null_mask (i mod 8) false) = 0) as ->.
  { unfold char_or, null_mask. simpl. by rewrite Z.mul_0_r. }
  assert ((char_or 0 (null_mask (i mod 8) true) =? 0) = false) as ->.
  { apply Z.eqb_neq. intros Hz.
    assert (Z.testbit (char_or 0 (null_mask (i mod 8) true)) (i mod 8) = true)
      as Ht by (rewrite char_or_testbit by lia; by rewrite Z.eqb_refl, orb_true_r).
    rewrite Hz, Z.bits_0 in Ht. done. }
  by destruct NDEBUG.
Qed.

Lemma one_byte_past_the_end_witness :
  (0 ≤ 9 ≤ INT_MAX - 8 ∧ 9 / 8 = size [255]) ∧
  GetNullBit (H := Demo.host) [255] 9 = None.
Proof.
  assert (0 ≤ 9 ≤ INT_MAX - 8) as Hi by (vm_compute; split; discriminate).
  assert (9 / 8 = size [255]) as Hq by reflexivity.
  split; [exact (conj Hi Hq) |].
  destruct (one_byte_past_the_end (H := Demo.host) [255] 9 Hi Hq) as [Hget _].
  exact Hget.
Defined.

(** X11. Row counts beyond [int].  For a [uint32_t] row count of [2^31] or
    more the required size computed in [int] is zero or negative, so
    [SetNullsSize] either fails or empties the bitmap; it never sizes it for
    that many rows. *)
Theorem SetNullsSize_beyond_int (new_size : Z) (nulls : list Z) :
  2 ^ 31 ≤ new_size < 2 ^ 32 →
  GetNullsRequiredSize new_size ≤ 0 ∧
  (SetNullsSize new_size nulls = None ∨ SetNullsSize new_size nulls = Some []).
Proof.
  intros Hn.
  assert (GetNullsRequiredSize new_size ≤ 0) as Hle.
  { unfold GetNullsRequiredSize.
    assert (s32 new_size = new_size - 2 ^ 32) as ->.
    { unfold s32. replace (new_size + 2 ^ 31)
        with (new_size - 2 ^ 31 + 1 * 2 ^ 32) by lia.
      rewrite Z_mod_plus_full. rewrite Z.mod_small; lia. }
    rewrite s32_small by lia.
    destruct (Z.le_gt_cases 0 (new_size - 2 ^ 32 + 7)) as [Hpos|Hneg].
    - rewrite Z.quot_small; lia.
    - pose proof (Z.quot_opp_l (- (new_size - 2 ^ 32 + 7)) 8 ltac:(lia)) as Hq.
      rewrite Z.opp_involutive in Hq. rewrite Hq.
      pose proof (Z.quot_pos (- (new_size - 2 ^ 32 + 7)) 8). lia. }
  split; [done |]. unfold SetNullsSize, resize_to.
  destruct (Z.leb_spec 0 (GetNullsRequiredSize new_size)); [| by left].
  right. replace (GetNullsRequiredSize new_size) with 0 by lia.
  simpl. by rewrite resize_0.
Qed.

Lemma SetNullsSize_beyond_int_witness :
  2 ^ 31 ≤ 4294967295 < 2 ^ 32 ∧
  SetNullsSize 4294967295 [1; 2; 3] = Some [] ∧
  SetNullsSize 4294967280 [1; 2; 3] = None.
Proof.
  assert (2 ^ 31 ≤ 4294967295 < 2 ^ 32) as Hn
    by (vm_compute; split; [discriminate | reflexivity]).
  split; [exact Hn |].
  destruct (SetNullsSize_beyond_int 4294967295 [1; 2; 3] Hn) as [_ Hcases].
  split; [| reflexivity].
  destruct Hcases as [Hnone | Hsome]; [discriminate Hnone | exact Hsome].
Defined.

(** ** Unsupported type tags *)

Lemma for_loop_unhandled `{Host} {St} (body : Z → St → option St) (n : nat)
  (i : Z) (st : St) :
  (0 < n)%nat →
  (∀ j st', i ≤ j < i + Z.of_nat n → body j st' = after_unhandled st') →
  for_loop n i body st = after_unhandled st.
Proof.
  intros Hn Hbody. revert i Hbody.
  induction n as [|n IH]; intros i Hbody; [lia |].
  simpl. rewrite Hbody by lia. unfold after_unhandled in *.
  destruct NDEBUG eqn:Hnd; [| done]. simpl.
  destruct n as [|n']; [done |]. apply IH; [lia |].
  intros j st' Hj. apply Hbody. lia.
Qed.

(** X12. A tag outside the supported set.  Each of the six entry points
    stops in a build with DCHECKs and returns its destination untouched in a
    build without them; so does [TColumnValueToHS2TColumnValue] for
    [NULL_TYPE].  Appending any number of rows of such a column one at a time
    therefore leaves the column as it was: the rows are dropped. *)
Theorem unsupported_tag `{Host} (len precision scale : Z)
  (rows : list (option RawValue)) (col_vals : list TColumnValue)
  (column : TColumn.t) (hs2_col_val : TColumnValue.t) (s r k : Z) :
  0 ≤ s → 0 < k → s + k ≤ size rows → s + k ≤ size col_vals →
  let type := scalar INVALID_TYPE len precision scale in
  (∀ col_val row_idx,
     TColumnValueToHS2TColumn col_val type row_idx column
     = after_unhandled column) ∧
  (∀ value row_idx,
     ExprValueToHS2TColumn value type row_idx column
     = after_unhandled column) ∧
  TColumnValuesToHS2TColumn col_vals type s r k column
  = after_unhandled column ∧
  ExprValuesToHS2TColumn rows type s r k column = after_unhandled column ∧
  (∀ col_val,
     TColumnValueToHS2TColumnValue col_val type hs2_col_val
     = after_unhandled hs2_col_val) ∧
  (∀ value,
     ExprValueToHS2TColumnValue value type hs2_col_val
     = after_unhandled hs2_col_val) ∧
  (∀ col_val,
     TColumnValueToHS2TColumnValue col_val
       (scalar NULL_TYPE len precision scale) hs2_col_val
     = after_unhandled hs2_col_val) ∧
  append_expr_one_at_a_time rows type s r k column = after_unhandled column ∧
  append_one_at_a_time col_vals type s r k column = after_unhandled column.
Proof.
  intros Hs Hk Hrows Hcols type.
  assert (∀ A (a : A), (DCHECK false;; Some a) = after_unhandled a) as Hd.
  { intros A a. unfold DCHECK, after_unhandled. by destruct NDEBUG. }
  split; [intros; apply Hd |]. split; [intros; apply Hd |].
  split; [apply Hd |]. split; [apply Hd |].
  split; [| split; [| split; [| split]]].
  - intros col_val. unfold TColumnValueToHS2TColumnValue, type, scalar.
    rewrite scalar_node_one. apply Hd.
  - intros value. unfold ExprValueToHS2TColumnValue, type, scalar.
    rewrite scalar_node_one. apply Hd.
  - intros col_val. unfold TColumnValueToHS2TColumnValue, scalar.
    rewrite scalar_node_one. apply Hd.
  - unfold append_expr_one_at_a_time, for_range.
    apply for_loop_unhandled; [lia |]. intros j st Hj.
    rewrite vector_at_lookup by lia.
    destruct (lookup_lt_is_Some_2 rows (Z.to_nat (s + j))) as [value ->];
      [unfold size in *; lia |].
    apply Hd.
  - unfold append_one_at_a_time, for_range.
    apply for_loop_unhandled; [lia |]. intros j st Hj.
    rewrite vector_at_lookup by lia.
    destruct (lookup_lt_is_Some_2 col_vals (Z.to_nat (s + j))) as [value ->];
      [unfold size in *; lia |].
    apply Hd.
Qed.

Lemma unsupported_tag_witness :
  (0 ≤ 0 ∧ 0 < 2 ∧ 0 + 2 ≤ size [@None Demo.slot; None] ∧
   0 + 2 ≤ size [Demo.unset; Demo.unset]) ∧
  append_expr_one_at_a_time (H := Demo.release) [None; None]
    (scalar INVALID_TYPE 0 0 0) 0 0 2 TColumn.empty = Some TColumn.empty ∧
  ExprValuesToHS2TColumn (H := Demo.release) [None; None]
    (scalar INVALID_TYPE 0 0 0) 0 0 2 TColumn.empty = Some TColumn.empty.
Proof.
  assert (0 ≤ 0) as Hs by lia. assert (0 < 2) as Hk by lia.
  assert (0 + 2 ≤ size [@None Demo.slot; None]) as Hrows
    by (vm_compute; discriminate).
  assert (0 + 2 ≤ size [Demo.unset; Demo.unset]) as Hcols
    by (vm_compute; discriminate).
  split; [exact (conj Hs (conj Hk (conj Hrows Hcols))) |].
  destruct (unsupported_tag (H := Demo.release) 0 0 0 [None; None]
              [Demo.unset; Demo.unset] TColumn.empty TColumnValue.empty
              0 0 2 Hs Hk Hrows Hcols)
    as (_ & _ & _ & Hbulk & _ & _ & _ & Hone & _).
  split; [exact Hone | exact Hbulk].
Defined.

(** ** Converting and printing a legacy value *)

(** X13. Printing what the converters produce.  On a fresh record the
    printer shows a converted value as the text of its wire form, and as
    [NULL] when the value is absent; a [NULL_TYPE] column always prints
    [NULL].  A tinyint is taken in its [int8] range. *)
Theorem print_of_converted `{Host} (t : TScalarType) (x : Variant) :
  variant_of (ts_type t) = Some x → supported t →
  (∀ value : option RawValue,
     (∀ p, value = Some p → is_Some (wire_cell t p)) →
     (∀ p, value = Some p → - 2 ^ 7 ≤ as_int8 p < 2 ^ 7) →
     ∃ out,
       ExprValueToHS2TColumnValue value (one_scalar t) TColumnValue.empty
       = Some out ∧
       PrintTColumnValue out ""
       = match value with
         | None => "NULL"
         | Some p => from_option cell_text "" (wire_cell t p)
         end) ∧
  (∀ col_val,
     - 2 ^ 7 ≤ byte_val col_val < 2 ^ 7 →
     ∃ out,
       TColumnValueToHS2TColumnValue col_val (one_scalar t) TColumnValue.empty
       = Some out ∧
       PrintTColumnValue out ""
       = if source_present col_val x
         then cell_text (source_payload col_val x) else "NULL") ∧
  (∀ value len precision scale, ∃ out,
     ExprValueToHS2TColumnValue value (scalar NULL_TYPE len precision scale)
       TColumnValue.empty = Some out ∧
     PrintTColumnValue out "" = "NULL").
Proof.
  intros Hvar [Hvalid Hdec]. split; [| split].
  - intros value Hread Hbyte.
    unfold ExprValueToHS2TColumnValue. rewrite scalar_node_one. simpl.
    unfold wire_cell in *.
    destruct (ts_type t) eqn:Htag; simplify_eq/=;
      destruct value as [p|]; simpl;
      try (destruct (Hread p eq_refl) as [c Hc];
           apply fmap_Some in Hc as (str & Hstr & ->); rewrite Hstr; simpl);
      eexists; (split; [reflexivity |]);
      unfold PrintTColumnValue, PrintVal, PrintVal_TByteValue; simpl;
      try done.
    all: try (rewrite s16_small; [done |]; specialize (Hbyte p eq_refl); lia).
  - intros col_val Hbyte.
    unfold TColumnValueToHS2TColumnValue. rewrite scalar_node_one. simpl.
    destruct (ts_type t) eqn:Htag; simplify_eq/=;
      eexists; (split; [reflexivity |]);
      unfold PrintTColumnValue, PrintVal, PrintVal_TByteValue; simpl;
      try done.
    + rewrite s16_small by lia. done.
    + by destruct (isset_string_val col_val).
    + by destruct (isset_string_val col_val).
    + by destruct (isset_string_val col_val).
    + by destruct (isset_string_val col_val).
    + by destruct (isset_string_val col_val).
  - intros value len precision scale.
    unfold ExprValueToHS2TColumnValue, scalar.
    rewrite scalar_node_one. simpl. eexists. done.
Qed.

Lemma print_of_converted_witness :
  let t := {| ts_type := TINYINT; ts_len := 0; ts_precision := 0;
              ts_scale := 0 |} in
  (variant_of (ts_type t) = Some VByte ∧ supported (H := Demo.host) t) ∧
  ∃ out,
    ExprValueToHS2TColumnValue (H := Demo.host) (Some (Demo.int_slot (-5)))
      (one_scalar t) TColumnValue.empty = Some out ∧
    PrintTColumnValue (H := Demo.host) out "" = "-5".
Proof.
  intros t.
  assert (variant_of (ts_type t) = Some VByte) as Hv by reflexivity.
  assert (supported (H := Demo.host) t) as Hs
    by (split; [discriminate | discriminate]).
  split; [exact (conj Hv Hs) |].
  destruct (print_of_converted (H := Demo.host) t VByte Hv Hs)
    as (Hexpr & _ & _).
  destruct (Hexpr (Some (Demo.int_slot (-5)))) as (out & Hrun & Hprint).
  - intros p [= <-]. vm_compute. eauto.
  - intros p [= <-]. vm_compute. split; [discriminate | reflexivity].
  - exists out. split; [exact Hrun |]. rewrite Hprint. reflexivity.
Defined.

(** X14. The converters never clear a selection.  Converting into a record
    that already has the boolean variant selected, for a column of another
    family, succeeds and selects the new variant as well, keeps every
    variant that was selected, and the printer, which tests the boolean
    variant first, goes on printing what it printed before. *)
Theorem converters_keep_selection `{Host} (t : TScalarType) (x : Variant)
  (hs2_col_val : TColumnValue.t) :
  variant_of (ts_type t) = Some x → x ≠ VBool →
  TColumnValue.isset_boolVal hs2_col_val = true →
  (∀ col_val, ∃ out,
     TColumnValueToHS2TColumnValue col_val (one_scalar t) hs2_col_val
     = Some out ∧
     selected out x = true ∧
     (∀ y, selected hs2_col_val y = true → selected out y = true) ∧
     ∀ s, PrintTColumnValue out s = PrintTColumnValue hs2_col_val s) ∧
  (∀ value,
     supported t →
     (∀ p, value = Some p → is_Some (wire_cell t p)) →
     ∃ out,
       ExprValueToHS2TColumnValue value (one_scalar t) hs2_col_val
       = Some out ∧
       selected out x = true ∧
       (∀ y, selected hs2_col_val y = true → selected out y = true) ∧
       ∀ s, PrintTColumnValue out s = PrintTColumnValue hs2_col_val s).
Proof.
  intros Hvar Hx Hbool. split.
  - intros col_val.
    unfold TColumnValueToHS2TColumnValue. rewrite scalar_node_one. simpl.
    destruct (ts_type t) eqn:Htag; simplify_eq/=;
      eexists; (split; [reflexivity |]); (split; [reflexivity |]);
      (split; [by intros [] |]);
      intros s; unfold PrintTColumnValue; simpl; by rewrite Hbool.
  - intros value [Hvalid Hdec] Hread.
    unfold ExprValueToHS2TColumnValue. rewrite scalar_node_one. simpl.
    unfold wire_cell in *.
    destruct (ts_type t) eqn:Htag; simplify_eq/=;
      destruct value as [p|]; simpl;
      try (destruct (Hread p eq_refl) as [c Hc];
           apply fmap_Some in Hc as (str & Hstr & ->); rewrite Hstr; simpl);
      eexists; (split; [reflexivity |]); (split; [reflexivity |]);
      (split; [by intros [] |]);
      intros s; unfold PrintTColumnValue; simpl; by rewrite Hbool.
Qed.

Lemma converters_keep_selection_witness :
  let t := {| ts_type := INT; ts_len := 0; ts_precision := 0; ts_scale := 0 |} in
  let used :=
    TColumnValue.select_boolVal {| value := true; isset_value := true |}
      TColumnValue.empty in
  (variant_of (ts_type t) = Some VI32 ∧ VI32 ≠ VBool ∧
   TColumnValue.isset_boolVal used = true) ∧
  ∃ out,
    ExprValueToHS2TColumnValue (H := Demo.host) (Some (Demo.int_slot 7))
      (one_scalar t) used = Some out ∧
    selection out = [VBool; VI32] ∧
    PrintTColumnValue (H := Demo.host) out "" = "true".
Proof.
  intros t used.
  assert (variant_of (ts_type t) = Some VI32) as Hv by reflexivity.
  assert (VI32 ≠ VBool) as Hx by discriminate.
  assert (TColumnValue.isset_boolVal used = true) as Hb by reflexivity.
  split; [exact (conj Hv (conj Hx Hb)) |].
  destruct (converters_keep_selection (H := Demo.host) t VI32 used Hv Hx Hb)
    as (_ & Hexpr).
  destruct (Hexpr (Some (Demo.int_slot 7))) as (out & Hrun & _ & _ & Hprint).
  - split; [discriminate | discriminate].
  - intros p [= <-]. vm_compute. eauto.
  - exists out. split; [exact Hrun |].
    split; [| rewrite Hprint; reflexivity].
    vm_compute in Hrun. injection Hrun as <-. reflexivity.
Defined.
